(** * A shallow embedding of [generate_html_docs.py]

    The script turns a fixed list of markdown files into a static HTML site:
    [convert_markdown_to_html] is a chain of [re.sub] passes followed by a
    line-by-line paragraph wrapper, and [generate_html_docs] wraps every
    fragment in [HTML_TEMPLATE], rewrites [.md] link targets and writes the
    pages.

    Python strings are sequences of Unicode code points, and three of the
    patterns ([\w], [\d], the emoji ranges) look at code points, so a string
    is modelled as a list of code points ([N]).  The regular expressions are
    kept as data and run by a backtracking matcher with the priorities of
    Python's [re] module (leftmost match, greedy and lazy repetition, first
    alternative first). *)

From Stdlib Require Import NArith List Bool Lia String Ascii.
From stdpp Require Import base list gmap.

Local Open Scope nat_scope.

(** ** Strings *)

Abbreviation char := N.
Abbreviation str := (list N).

(** A string literal of the source, as code points (ASCII literals only). *)
Definition lit (s : string) : str := map N_of_ascii (list_ascii_of_string s).

Definition NL : char := 10%N.
Definition QUOTE : char := 34%N.

Definition str_eqb (a b : str) : bool := bool_decide (a = b).

(** [s.startswith(p)] *)
Fixpoint startswith (s p : str) {struct p} : bool :=
  match p, s with
  | [], _ => true
  | c :: p', x :: s' => N.eqb x c && startswith s' p'
  | _ :: _, [] => false
  end.

(** [s.startswith((p1, p2, ...))] *)
Definition startswith_any (s : str) (ps : list str) : bool :=
  existsb (startswith s) ps.

(** [s.split(sep)] for a one-character separator. *)
Fixpoint split (sep : char) (s : str) : list str :=
  match s with
  | [] => [[]]
  | c :: t =>
      if N.eqb c sep then [] :: split sep t
      else match split sep t with
           | l :: ls => (c :: l) :: ls
           | [] => [[c]]
           end
  end.

(** [sep.join(parts)] *)
Fixpoint join (sep : str) (parts : list str) : str :=
  match parts with
  | [] => []
  | [p] => p
  | p :: ps => p ++ sep ++ join sep ps
  end.

(** [l[1:-1]] *)
Definition slice_1_m1 {A} (l : list A) : list A := removelast (tl l).

Definition in_ranges (tbl : list (N * N)) (c : char) : bool :=
  existsb (fun r => N.leb (fst r) c && N.leb c (snd r)) tbl.

(** Code points for which [str.isspace] holds: what [str.strip] removes. *)
Definition unicode_space : list (N * N) :=
  [(9,13); (28,32); (133,133); (160,160); (5760,5760); (8192,8202); (8232,8233); (8239,8239);
   (8287,8287); (12288,12288)]%N.

(** Decimal digits (category Nd) beyond ASCII: the non-ASCII part of the pattern class [\d]. *)
Definition unicode_decimal : list (N * N) :=
  [(1632,1641); (1776,1785); (1984,1993); (2406,2415); (2534,2543); (2662,2671); (2790,2799);
   (2918,2927); (3046,3055); (3174,3183); (3302,3311); (3430,3439); (3558,3567); (3664,3673);
   (3792,3801); (3872,3881); (4160,4169); (4240,4249); (6112,6121); (6160,6169); (6470,6479);
   (6608,6617); (6784,6793); (6800,6809); (6992,7001); (7088,7097); (7232,7241); (7248,7257);
   (42528,42537); (43216,43225); (43264,43273); (43472,43481); (43504,43513); (43600,43609);
   (44016,44025); (65296,65305); (66720,66729); (68912,68921); (69734,69743); (69872,69881);
   (69942,69951); (70096,70105); (70384,70393); (70736,70745); (70864,70873); (71248,71257);
   (71360,71369); (71472,71481); (71904,71913); (72016,72025); (72784,72793); (73040,73049);
   (73120,73129); (92768,92777); (92864,92873); (93008,93017); (120782,120831);
   (123200,123209); (123632,123641); (125264,125273); (130032,130041)]%N.

(** Alphanumeric code points beyond ASCII ([str.isalnum]): the non-ASCII part of the pattern class [\w]. *)
Definition unicode_alnum : list (N * N) :=
  [(170,170); (178,179); (181,181); (185,186); (188,190); (192,214); (216,246); (248,705);
   (710,721); (736,740); (748,748); (750,750); (880,884); (886,887); (890,893); (895,895);
   (902,902); (904,906); (908,908); (910,929); (931,1013); (1015,1153); (1162,1327);
   (1329,1366); (1369,1369); (1376,1416); (1488,1514); (1519,1522); (1568,1610); (1632,1641);
   (1646,1647); (1649,1747); (1749,1749); (1765,1766); (1774,1788); (1791,1791); (1808,1808);
   (1810,1839); (1869,1957); (1969,1969); (1984,2026); (2036,2037); (2042,2042); (2048,2069);
   (2074,2074); (2084,2084); (2088,2088); (2112,2136); (2144,2154); (2160,2183); (2185,2190);
   (2208,2249); (2308,2361); (2365,2365); (2384,2384); (2392,2401); (2406,2415); (2417,2432);
   (2437,2444); (2447,2448); (2451,2472); (2474,2480); (2482,2482); (2486,2489); (2493,2493);
   (2510,2510); (2524,2525); (2527,2529); (2534,2545); (2548,2553); (2556,2556); (2565,2570);
   (2575,2576); (2579,2600); (2602,2608); (2610,2611); (2613,2614); (2616,2617); (2649,2652);
   (2654,2654); (2662,2671); (2674,2676); (2693,2701); (2703,2705); (2707,2728); (2730,2736);
   (2738,2739); (2741,2745); (2749,2749); (2768,2768); (2784,2785); (2790,2799); (2809,2809);
   (2821,2828); (2831,2832); (2835,2856); (2858,2864); (2866,2867); (2869,2873); (2877,2877);
   (2908,2909); (2911,2913); (2918,2927); (2929,2935); (2947,2947); (2949,2954); (2958,2960);
   (2962,2965); (2969,2970); (2972,2972); (2974,2975); (2979,2980); (2984,2986); (2990,3001);
   (3024,3024); (3046,3058); (3077,3084); (3086,3088); (3090,3112); (3114,3129); (3133,3133);
   (3160,3162); (3165,3165); (3168,3169); (3174,3183); (3192,3198); (3200,3200); (3205,3212);
   (3214,3216); (3218,3240); (3242,3251); (3253,3257); (3261,3261); (3293,3294); (3296,3297);
   (3302,3311); (3313,3314); (3332,3340); (3342,3344); (3346,3386); (3389,3389); (3406,3406);
   (3412,3414); (3416,3425); (3430,3448); (3450,3455); (3461,3478); (3482,3505); (3507,3515);
   (3517,3517); (3520,3526); (3558,3567); (3585,3632); (3634,3635); (3648,3654); (3664,3673);
   (3713,3714); (3716,3716); (3718,3722); (3724,3747); (3749,3749); (3751,3760); (3762,3763);
   (3773,3773); (3776,3780); (3782,3782); (3792,3801); (3804,3807); (3840,3840); (3872,3891);
   (3904,3911); (3913,3948); (3976,3980); (4096,4138); (4159,4169); (4176,4181); (4186,4189);
   (4193,4193); (4197,4198); (4206,4208); (4213,4225); (4238,4238); (4240,4249); (4256,4293);
   (4295,4295); (4301,4301); (4304,4346); (4348,4680); (4682,4685); (4688,4694); (4696,4696);
   (4698,4701); (4704,4744); (4746,4749); (4752,4784); (4786,4789); (4792,4798); (4800,4800);
   (4802,4805); (4808,4822); (4824,4880); (4882,4885); (4888,4954); (4969,4988); (4992,5007);
   (5024,5109); (5112,5117); (5121,5740); (5743,5759); (5761,5786); (5792,5866); (5870,5880);
   (5888,5905); (5919,5937); (5952,5969); (5984,5996); (5998,6000); (6016,6067); (6103,6103);
   (6108,6108); (6112,6121); (6128,6137); (6160,6169); (6176,6264); (6272,6276); (6279,6312);
   (6314,6314); (6320,6389); (6400,6430); (6470,6509); (6512,6516); (6528,6571); (6576,6601);
   (6608,6618); (6656,6678); (6688,6740); (6784,6793); (6800,6809); (6823,6823); (6917,6963);
   (6981,6988); (6992,7001); (7043,7072); (7086,7141); (7168,7203); (7232,7241); (7245,7293);
   (7296,7304); (7312,7354); (7357,7359); (7401,7404); (7406,7411); (7413,7414); (7418,7418);
   (7424,7615); (7680,7957); (7960,7965); (7968,8005); (8008,8013); (8016,8023); (8025,8025);
   (8027,8027); (8029,8029); (8031,8061); (8064,8116); (8118,8124); (8126,8126); (8130,8132);
   (8134,8140); (8144,8147); (8150,8155); (8160,8172); (8178,8180); (8182,8188); (8304,8305);
   (8308,8313); (8319,8329); (8336,8348); (8450,8450); (8455,8455); (8458,8467); (8469,8469);
   (8473,8477); (8484,8484); (8486,8486); (8488,8488); (8490,8493); (8495,8505); (8508,8511);
   (8517,8521); (8526,8526); (8528,8585); (9312,9371); (9450,9471); (10102,10131);
   (11264,11492); (11499,11502); (11506,11507); (11517,11517); (11520,11557); (11559,11559);
   (11565,11565); (11568,11623); (11631,11631); (11648,11670); (11680,11686); (11688,11694);
   (11696,11702); (11704,11710); (11712,11718); (11720,11726); (11728,11734); (11736,11742);
   (11823,11823); (12293,12295); (12321,12329); (12337,12341); (12344,12348); (12353,12438);
   (12445,12447); (12449,12538); (12540,12543); (12549,12591); (12593,12686); (12690,12693);
   (12704,12735); (12784,12799); (12832,12841); (12872,12879); (12881,12895); (12928,12937);
   (12977,12991); (13312,19903); (19968,42124); (42192,42237); (42240,42508); (42512,42539);
   (42560,42606); (42623,42653); (42656,42735); (42775,42783); (42786,42888); (42891,42954);
   (42960,42961); (42963,42963); (42965,42969); (42994,43009); (43011,43013); (43015,43018);
   (43020,43042); (43056,43061); (43072,43123); (43138,43187); (43216,43225); (43250,43255);
   (43259,43259); (43261,43262); (43264,43301); (43312,43334); (43360,43388); (43396,43442);
   (43471,43481); (43488,43492); (43494,43518); (43520,43560); (43584,43586); (43588,43595);
   (43600,43609); (43616,43638); (43642,43642); (43646,43695); (43697,43697); (43701,43702);
   (43705,43709); (43712,43712); (43714,43714); (43739,43741); (43744,43754); (43762,43764);
   (43777,43782); (43785,43790); (43793,43798); (43808,43814); (43816,43822); (43824,43866);
   (43868,43881); (43888,44002); (44016,44025); (44032,55203); (55216,55238); (55243,55291);
   (63744,64109); (64112,64217); (64256,64262); (64275,64279); (64285,64285); (64287,64296);
   (64298,64310); (64312,64316); (64318,64318); (64320,64321); (64323,64324); (64326,64433);
   (64467,64829); (64848,64911); (64914,64967); (65008,65019); (65136,65140); (65142,65276);
   (65296,65305); (65313,65338); (65345,65370); (65382,65470); (65474,65479); (65482,65487);
   (65490,65495); (65498,65500); (65536,65547); (65549,65574); (65576,65594); (65596,65597);
   (65599,65613); (65616,65629); (65664,65786); (65799,65843); (65856,65912); (65930,65931);
   (66176,66204); (66208,66256); (66273,66299); (66304,66339); (66349,66378); (66384,66421);
   (66432,66461); (66464,66499); (66504,66511); (66513,66517); (66560,66717); (66720,66729);
   (66736,66771); (66776,66811); (66816,66855); (66864,66915); (66928,66938); (66940,66954);
   (66956,66962); (66964,66965); (66967,66977); (66979,66993); (66995,67001); (67003,67004);
   (67072,67382); (67392,67413); (67424,67431); (67456,67461); (67463,67504); (67506,67514);
   (67584,67589); (67592,67592); (67594,67637); (67639,67640); (67644,67644); (67647,67669);
   (67672,67702); (67705,67742); (67751,67759); (67808,67826); (67828,67829); (67835,67867);
   (67872,67897); (67968,68023); (68028,68047); (68050,68096); (68112,68115); (68117,68119);
   (68121,68149); (68160,68168); (68192,68222); (68224,68255); (68288,68295); (68297,68324);
   (68331,68335); (68352,68405); (68416,68437); (68440,68466); (68472,68497); (68521,68527);
   (68608,68680); (68736,68786); (68800,68850); (68858,68899); (68912,68921); (69216,69246);
   (69248,69289); (69296,69297); (69376,69415); (69424,69445); (69457,69460); (69488,69505);
   (69552,69579); (69600,69622); (69635,69687); (69714,69743); (69745,69746); (69749,69749);
   (69763,69807); (69840,69864); (69872,69881); (69891,69926); (69942,69951); (69956,69956);
   (69959,69959); (69968,70002); (70006,70006); (70019,70066); (70081,70084); (70096,70106);
   (70108,70108); (70113,70132); (70144,70161); (70163,70187); (70272,70278); (70280,70280);
   (70282,70285); (70287,70301); (70303,70312); (70320,70366); (70384,70393); (70405,70412);
   (70415,70416); (70419,70440); (70442,70448); (70450,70451); (70453,70457); (70461,70461);
   (70480,70480); (70493,70497); (70656,70708); (70727,70730); (70736,70745); (70751,70753);
   (70784,70831); (70852,70853); (70855,70855); (70864,70873); (71040,71086); (71128,71131);
   (71168,71215); (71236,71236); (71248,71257); (71296,71338); (71352,71352); (71360,71369);
   (71424,71450); (71472,71483); (71488,71494); (71680,71723); (71840,71922); (71935,71942);
   (71945,71945); (71948,71955); (71957,71958); (71960,71983); (71999,71999); (72001,72001);
   (72016,72025); (72096,72103); (72106,72144); (72161,72161); (72163,72163); (72192,72192);
   (72203,72242); (72250,72250); (72272,72272); (72284,72329); (72349,72349); (72368,72440);
   (72704,72712); (72714,72750); (72768,72768); (72784,72812); (72818,72847); (72960,72966);
   (72968,72969); (72971,73008); (73030,73030); (73040,73049); (73056,73061); (73063,73064);
   (73066,73097); (73112,73112); (73120,73129); (73440,73458); (73648,73648); (73664,73684);
   (73728,74649); (74752,74862); (74880,75075); (77712,77808); (77824,78894); (82944,83526);
   (92160,92728); (92736,92766); (92768,92777); (92784,92862); (92864,92873); (92880,92909);
   (92928,92975); (92992,92995); (93008,93017); (93019,93025); (93027,93047); (93053,93071);
   (93760,93846); (93952,94026); (94032,94032); (94099,94111); (94176,94177); (94179,94179);
   (94208,100343); (100352,101589); (101632,101640); (110576,110579); (110581,110587);
   (110589,110590); (110592,110882); (110928,110930); (110948,110951); (110960,111355);
   (113664,113770); (113776,113788); (113792,113800); (113808,113817); (119520,119539);
   (119648,119672); (119808,119892); (119894,119964); (119966,119967); (119970,119970);
   (119973,119974); (119977,119980); (119982,119993); (119995,119995); (119997,120003);
   (120005,120069); (120071,120074); (120077,120084); (120086,120092); (120094,120121);
   (120123,120126); (120128,120132); (120134,120134); (120138,120144); (120146,120485);
   (120488,120512); (120514,120538); (120540,120570); (120572,120596); (120598,120628);
   (120630,120654); (120656,120686); (120688,120712); (120714,120744); (120746,120770);
   (120772,120779); (120782,120831); (122624,122654); (123136,123180); (123191,123197);
   (123200,123209); (123214,123214); (123536,123565); (123584,123627); (123632,123641);
   (124896,124902); (124904,124907); (124909,124910); (124912,124926); (124928,125124);
   (125127,125135); (125184,125251); (125259,125259); (125264,125273); (126065,126123);
   (126125,126127); (126129,126132); (126209,126253); (126255,126269); (126464,126467);
   (126469,126495); (126497,126498); (126500,126500); (126503,126503); (126505,126514);
   (126516,126519); (126521,126521); (126523,126523); (126530,126530); (126535,126535);
   (126537,126537); (126539,126539); (126541,126543); (126545,126546); (126548,126548);
   (126551,126551); (126553,126553); (126555,126555); (126557,126557); (126559,126559);
   (126561,126562); (126564,126564); (126567,126570); (126572,126578); (126580,126583);
   (126585,126588); (126590,126590); (126592,126601); (126603,126619); (126625,126627);
   (126629,126633); (126635,126651); (127232,127244); (130032,130041); (131072,173791);
   (173824,177976); (177984,178205); (178208,183969); (183984,191456); (194560,195101);
   (196608,201546)]%N.

Definition is_space (c : char) : bool := in_ranges unicode_space c.

(** [s.strip()] *)
Fixpoint lstrip (s : str) : str :=
  match s with
  | c :: t => if is_space c then lstrip t else s
  | [] => []
  end.

Definition rstrip (s : str) : str := rev (lstrip (rev s)).

Definition strip (s : str) : str := rstrip (lstrip s).

(** [s.replace(old, new)] for a non-empty [old]: the occurrences of [old] are
    found from the left and do not overlap.  [skip] counts the characters of
    an occurrence that are still to be passed over. *)
Fixpoint replace_go (old new : str) (skip : nat) (s : str) : str :=
  match s with
  | [] => []
  | c :: t =>
      match skip with
      | S n => replace_go old new n t
      | O =>
          if startswith s old
          then new ++ replace_go old new (length old - 1) t
          else c :: replace_go old new 0 t
      end
  end.

Definition replace (old new s : str) : str := replace_go old new 0 s.

(** Decimal rendering of a number, as an f-string does. *)
Fixpoint dec_go (fuel n : nat) (acc : str) : str :=
  match fuel with
  | O => acc
  | S f =>
      let acc' := N.of_nat (48 + n mod 10) :: acc in
      if Nat.eqb (n / 10) 0 then acc' else dec_go f (n / 10) acc'
  end.

Definition str_of_nat (n : nat) : str := dec_go (S n) n [].

(** ** Errors *)

Inductive exn :=
| ReError (msg : string)     (* re.error *)
| KeyError (key : str)
| IndexError (msg : string)
| ValueError (msg : string).

Inductive result (A : Type) :=
| Ok (a : A)
| Raise (e : exn).
Arguments Ok {A} a.
Arguments Raise {A} e.

Definition bind {A B} (x : result A) (f : A -> result B) : result B :=
  match x with
  | Ok a => f a
  | Raise e => Raise e
  end.

Notation "x <- e1 ;; e2" := (bind e1 (fun x => e2))
  (at level 100, e1 at next level, right associativity).

(** ** Regular expressions

    The patterns of the script use literals, character classes, [.], [^] and
    [$], concatenation, alternation, greedy and lazy repetition, [?] and
    numbered groups. *)

Record flags := { MULTILINE : bool; DOTALL : bool }.

Definition no_flags : flags := {| MULTILINE := false; DOTALL := false |}.
Definition re_MULTILINE : flags := {| MULTILINE := true; DOTALL := false |}.
Definition re_DOTALL : flags := {| MULTILINE := false; DOTALL := true |}.

(** What a character class lists. *)
Inductive citem :=
| One (c : char)
| Range (lo hi : char)
| Word        (* \w *)
| Digit.      (* \d *)

Inductive regex :=
| Eps
| Chr (c : char)
| Cls (neg : bool) (items : list citem)   (* [...] and [^...] *)
| Any                                     (* . *)
| Bol                                     (* ^ *)
| Eol                                     (* $ *)
| Cat (r1 r2 : regex)
| Alt (r1 r2 : regex)                     (* r1|r2 *)
| Rep (greedy : bool) (lo : nat) (r : regex)  (* r* r+ (greedy) and r*? r+? (lazy) *)
| Opt (r : regex)                         (* r? *)
| Grp (n : nat) (r : regex).              (* (r), the n-th group *)

Definition is_digit (c : char) : bool :=
  (N.leb 48 c && N.leb c 57) || in_ranges unicode_decimal c.

Definition is_word (c : char) : bool :=
  (N.leb 48 c && N.leb c 57) || (N.leb 65 c && N.leb c 90) || N.eqb c 95
  || (N.leb 97 c && N.leb c 122) || in_ranges unicode_alnum c.

Definition citem_mem (i : citem) (c : char) : bool :=
  match i with
  | One x => N.eqb c x
  | Range lo hi => N.leb lo c && N.leb c hi
  | Word => is_word c
  | Digit => is_digit c
  end.

Definition cls_mem (neg : bool) (items : list citem) (c : char) : bool :=
  xorb neg (existsb (fun i => citem_mem i c) items).

(** The matcher's state: the character before the current position ([None]
    at the start of the text), the text from the current position on, and the
    groups captured so far (latest capture first). *)
Record mstate := {
  m_prev : option char;
  m_rest : str;
  m_caps : list (nat * str)
}.

Definition advance (st : mstate) (c : char) (t : str) : mstate :=
  {| m_prev := Some c; m_rest := t; m_caps := m_caps st |}.

Definition at_bol (fl : flags) (st : mstate) : bool :=
  match m_prev st with
  | None => true
  | Some c => MULTILINE fl && N.eqb c NL
  end.

Definition at_eol (fl : flags) (st : mstate) : bool :=
  match m_rest st with
  | [] => true
  | c :: t => N.eqb c NL && (MULTILINE fl || bool_decide (t = []))
  end.

Definition set_cap (n : nat) (from to : mstate) : mstate :=
  {| m_prev := m_prev to;
     m_rest := m_rest to;
     m_caps := (n, take (length (m_rest from) - length (m_rest to)) (m_rest from))
               :: m_caps to |}.

Definition orelse {A} (x : option A) (y : option A) : option A :=
  match x with
  | Some a => Some a
  | None => y
  end.

(** [matches fl r st k]: the first way, in the order a backtracking matcher
    tries them, to match [r] at [st] such that the continuation [k] accepts
    what follows.  A repetition runs its body once more only when the body
    consumed something, so its fuel (the length of the remaining text, plus
    one) is never exhausted. *)
Fixpoint matches (fl : flags) (r : regex) (st : mstate)
    (k : mstate -> option mstate) {struct r} : option mstate :=
  match r with
  | Eps => k st
  | Chr c =>
      match m_rest st with
      | x :: t => if N.eqb x c then k (advance st x t) else None
      | [] => None
      end
  | Cls neg items =>
      match m_rest st with
      | x :: t => if cls_mem neg items x then k (advance st x t) else None
      | [] => None
      end
  | Any =>
      match m_rest st with
      | x :: t => if DOTALL fl || negb (N.eqb x NL) then k (advance st x t) else None
      | [] => None
      end
  | Bol => if at_bol fl st then k st else None
  | Eol => if at_eol fl st then k st else None
  | Cat r1 r2 => matches fl r1 st (fun st1 => matches fl r2 st1 k)
  | Alt r1 r2 => orelse (matches fl r1 st k) (matches fl r2 st k)
  | Opt r1 => orelse (matches fl r1 st k) (k st)
  | Rep greedy lo r1 =>
      (fix rep (fuel lo : nat) (st : mstate) {struct fuel} : option mstate :=
         match fuel with
         | O => None
         | S fuel' =>
             let again st1 :=
               if length (m_rest st1) <? length (m_rest st)
               then rep fuel' (pred lo) st1 else None in
             match lo with
             | S _ => matches fl r1 st again
             | O =>
                 if greedy
                 then orelse (matches fl r1 st again) (k st)
                 else match k st with
                      | Some a => Some a
                      | None => matches fl r1 st again
                      end
             end
         end) (S (length (m_rest st))) lo st
  | Grp n r1 => matches fl r1 st (fun st1 => k (set_cap n st st1))
  end.

(** A match object: [group(0)] and the numbered groups. *)
Record match_obj := {
  group0 : str;
  mo_caps : list (nat * str)
}.

Fixpoint assoc (n : nat) (caps : list (nat * str)) : option str :=
  match caps with
  | [] => None
  | (i, s) :: rest => if Nat.eqb i n then Some s else assoc n rest
  end.

(** [m.group(n)] in a replacement template: a group that took no part in
    the match expands to the empty string. *)
Definition group (mo : match_obj) (n : nat) : str :=
  match assoc n (mo_caps mo) with
  | Some s => s
  | None => []
  end.

(** The match of [r] that starts at the current position, with the number
    of characters it consumed. *)
Definition match_at (fl : flags) (r : regex) (prev : option char) (s : str)
    : option (nat * match_obj) :=
  match matches fl r {| m_prev := prev; m_rest := s; m_caps := [] |} Some with
  | Some st =>
      let n := length s - length (m_rest st) in
      Some (n, {| group0 := take n s; mo_caps := m_caps st |})
  | None => None
  end.

(** [re.search]: the leftmost match. *)
Fixpoint search_go (fl : flags) (r : regex) (prev : option char) (s : str)
    : option match_obj :=
  match match_at fl r prev s with
  | Some (_, mo) => Some mo
  | None =>
      match s with
      | [] => None
      | c :: t => search_go fl r (Some c) t
      end
  end.

Definition re_search (fl : flags) (r : regex) (s : str) : option match_obj :=
  search_go fl r None s.

(** [re.sub] with a function as replacement.  The text is scanned from the
    left; where the pattern matches, the replacement is written and the
    scan goes on after the match ([skip] counts the matched characters still
    to pass over).  Every pattern of the script consumes at least one
    character (see [sub_patterns_consume]), so the case of an empty match,
    which writes the replacement and copies the next character, does not
    arise. *)
Fixpoint sub_go (fl : flags) (r : regex) (repl : match_obj -> str)
    (skip : nat) (prev : option char) (s : str) : str :=
  match skip with
  | S n =>
      match s with
      | [] => []
      | c :: t => sub_go fl r repl n (Some c) t
      end
  | O =>
      match match_at fl r prev s with
      | Some (n, mo) =>
          repl mo ++
          match s with
          | [] => []
          | c :: t =>
              match n with
              | O => c :: sub_go fl r repl 0 (Some c) t
              | S n' => sub_go fl r repl n' (Some c) t
              end
          end
      | None =>
          match s with
          | [] => []
          | c :: t => c :: sub_go fl r repl 0 (Some c) t
          end
      end
  end.

Definition re_sub_fn (fl : flags) (r : regex) (repl : match_obj -> str) (s : str) : str :=
  sub_go fl r repl 0 None s.

(** A replacement template: literal text and group references [\n]. *)
Inductive titem :=
| TLit (s : str)
| TRef (n : nat).

Definition expand (tpl : list titem) (mo : match_obj) : str :=
  concat (map (fun i => match i with TLit s => s | TRef n => group mo n end) tpl).

(** The number of groups of a pattern. *)
Fixpoint ngroups (r : regex) : nat :=
  match r with
  | Cat r1 r2 | Alt r1 r2 => Nat.max (ngroups r1) (ngroups r2)
  | Rep _ _ r1 | Opt r1 => ngroups r1
  | Grp n r1 => Nat.max n (ngroups r1)
  | _ => 0
  end.

Definition template_ok (r : regex) (tpl : list titem) : bool :=
  forallb (fun i => match i with TLit _ => true | TRef n => n <=? ngroups r end) tpl.

(** [re.sub(pattern, template, s, flags)]: a template that refers to a group
    the pattern does not have raises [re.error] before any text is looked
    at. *)
Definition re_sub (fl : flags) (r : regex) (tpl : list titem) (s : str) : result str :=
  if template_ok r tpl
  then Ok (re_sub_fn fl r (expand tpl) s)
  else Raise (ReError "invalid group reference").

(** Building patterns. *)
Fixpoint text (s : str) : regex :=
  match s with
  | [] => Eps
  | c :: t => Cat (Chr c) (text t)
  end.

Fixpoint cats (rs : list regex) : regex :=
  match rs with
  | [] => Eps
  | r :: rest => Cat r (cats rest)
  end.

Definition star (r : regex) : regex := Rep true 0 r.       (* r*  *)
Definition plus (r : regex) : regex := Rep true 1 r.       (* r+  *)
Definition lazy_star (r : regex) : regex := Rep false 0 r. (* r*? *)
Definition lazy_plus (r : regex) : regex := Rep false 1 r. (* r+? *)
Definition none_of (cs : str) : regex := Cls true (map One cs).  (* [^...] *)
Definition one_of (cs : str) : regex := Cls false (map One cs).  (* [...] *)

(** ** The converter *)

Definition t (s : string) : titem := TLit (lit s).

(** [r'^# (.+)$'] and its siblings, for a given run of hashes. *)
Definition re_header (hashes : string) : regex :=
  cats [Bol; text (lit hashes); Chr 32%N; Grp 1 (plus Any); Eol].

(** [r'```(\w+)?\n(.*?)```'] *)
Definition re_code_block : regex :=
  cats [text (lit "```"); Opt (Grp 1 (plus (Cls false [Word]))); Chr NL;
        Grp 2 (lazy_star Any); text (lit "```")].

(** [r'`([^`]+)`'] *)
Definition re_inline_code : regex :=
  cats [text (lit "`"); Grp 1 (plus (none_of (lit "`"))); text (lit "`")].

(** [r'\*\*(.+?)\*\*'] *)
Definition re_bold : regex :=
  cats [text (lit "**"); Grp 1 (lazy_plus Any); text (lit "**")].

(** [r'\*(.+?)\*'] *)
Definition re_italic : regex :=
  cats [text (lit "*"); Grp 1 (lazy_plus Any); text (lit "*")].

(** [r'\[([^\]]+)\]\(([^\)]+)\)'] *)
Definition re_link : regex :=
  cats [text (lit "["); Grp 1 (plus (none_of (lit "]"))); text (lit "](");
        Grp 2 (plus (none_of (lit ")"))); text (lit ")")].

(** [r'^---+$'] *)
Definition re_hr : regex :=
  cats [Bol; text (lit "--"); plus (Chr 45%N); Eol].

(** [r'^\- (.+)$'] *)
Definition re_bullet : regex :=
  cats [Bol; text (lit "- "); Grp 1 (plus Any); Eol].

(** [r'(<li>.*</li>)'] *)
Definition re_items : regex :=
  Grp 1 (cats [text (lit "<li>"); star Any; text (lit "</li>")]).

(** [r'^\d+\. (.+)$'] *)
Definition re_numbered : regex :=
  cats [Bol; plus (Cls false [Digit]); text (lit ". "); Grp 1 (plus Any); Eol].

(** [r'\|[^\n]+\|\n'], one row of a table. *)
Definition re_row : regex :=
  cats [text (lit "|"); plus (none_of [NL]); text (lit "|"); Chr NL].

(** [r'\|[^\n]+\|\n\|[-:\| ]+\|\n(\|[^\n]+\|\n)+'] *)
Definition re_table : regex :=
  cats [re_row;
        text (lit "|"); plus (one_of (lit "-:| ")); text (lit "|"); Chr NL;
        plus (Grp 1 re_row)].

(** [r'([\U0001F300-\U0001F9FF]|[\u2600-\u26FF]|[\u2700-\u27BF])'] *)
Definition emoji_pattern : regex :=
  Grp 1 (Alt (Cls false [Range 0x1F300 0x1F9FF])
        (Alt (Cls false [Range 0x2600 0x26FF])
             (Cls false [Range 0x2700 0x27BF]))).

(** The cells of a table line: [[c.strip() for c in line.split('|')[1:-1]]]. *)
Definition cells (line : str) : list str :=
  map strip (slice_1_m1 (split 124%N line)).

Definition tagged (tag : string) (body : str) : str :=
  lit "<" ++ lit tag ++ lit ">" ++ body ++ lit "</" ++ lit tag ++ lit ">".

(** One table row: [<tr>], a cell markup per cell, [</tr>] and a newline. *)
Definition table_row (tag : string) (line : str) : str :=
  lit "<tr>" ++ concat (map (tagged tag) (cells line)) ++ lit "</tr>" ++ [NL].

Definition is_empty (s : str) : bool :=
  match s with
  | [] => true
  | _ :: _ => false
  end.

(** The local function [convert_table]. *)
Definition convert_table (mo : match_obj) : str :=
  let lines := split NL (group0 mo) in
  if length lines <? 3 then group0 mo
  else
    lit "<table>" ++ [NL]
    ++ table_row "th" (hd [] lines)
    ++ concat (map (fun line =>
                      if negb (is_empty (strip line)) then table_row "td" line else [])
                   (drop 2 lines))
    ++ lit "</table>".

Definition block_open : list str :=
  [lit "<h"; lit "<pre>"; lit "<ul>"; lit "<ol>"; lit "<table>"; lit "<hr>"; lit "<li>"].

Definition block_close : list str :=
  [lit "</pre>"; lit "</ul>"; lit "</ol>"; lit "</table>"].

(** The paragraph loop: [in_block] is the flag of the source, the result is
    the list [result] it builds. *)
Fixpoint paragraphs (in_block : bool) (lines : list str) : list str :=
  match lines with
  | [] => []
  | line :: rest =>
      let stripped := strip line in
      if startswith_any stripped block_open then line :: paragraphs true rest
      else if startswith_any stripped block_close then line :: paragraphs false rest
      else if is_empty stripped then line :: paragraphs in_block rest
      else if negb in_block && negb (is_empty stripped) && negb (startswith stripped (lit "<"))
      then (lit "<p>" ++ line ++ lit "</p>") :: paragraphs in_block rest
      else line :: paragraphs in_block rest
  end.

Definition wrap_paragraphs (html : str) : str :=
  join [NL] (paragraphs false (split NL html)).

Definition link_template : list titem :=
  [t "<a href="; TLit [QUOTE]; TRef 2; TLit [QUOTE]; t ">"; TRef 1; t "</a>"].

Definition emoji_template : list titem :=
  [t "<span class="; TLit [QUOTE]; t "emoji"; TLit [QUOTE]; t ">"; TRef 1; t "</span>"].

Definition convert_markdown_to_html (markdown_text : str) : result str :=
  let html := markdown_text in
  (* Headers *)
  html <- re_sub re_MULTILINE (re_header "#") [t "<h1>"; TRef 1; t "</h1>"] html ;;
  html <- re_sub re_MULTILINE (re_header "##") [t "<h2>"; TRef 1; t "</h2>"] html ;;
  html <- re_sub re_MULTILINE (re_header "###") [t "<h3>"; TRef 1; t "</h3>"] html ;;
  html <- re_sub re_MULTILINE (re_header "####") [t "<h4>"; TRef 1; t "</h4>"] html ;;
  (* Code blocks *)
  html <- re_sub re_DOTALL re_code_block [t "<pre><code>"; TRef 2; t "</code></pre>"] html ;;
  (* Inline code *)
  html <- re_sub no_flags re_inline_code [t "<code>"; TRef 1; t "</code>"] html ;;
  (* Bold *)
  html <- re_sub no_flags re_bold [t "<strong>"; TRef 1; t "</strong>"] html ;;
  (* Italic *)
  html <- re_sub no_flags re_italic [t "<em>"; TRef 1; t "</em>"] html ;;
  (* Links *)
  html <- re_sub no_flags re_link link_template html ;;
  (* Horizontal rules *)
  html <- re_sub re_MULTILINE re_hr [t "<hr>"] html ;;
  (* Lists (simple) *)
  html <- re_sub re_MULTILINE re_bullet [t "<li>"; TRef 1; t "</li>"] html ;;
  html <- re_sub re_DOTALL re_items [t "<ul>"; TRef 1; t "</ul>"] html ;;
  (* Numbered lists *)
  html <- re_sub re_MULTILINE re_numbered [t "<li>"; TRef 1; t "</li>"] html ;;
  (* Tables (basic) *)
  let html := re_sub_fn no_flags re_table convert_table html in
  (* Paragraphs *)
  let html := wrap_paragraphs html in
  (* Convert emojis to spans *)
  re_sub no_flags emoji_pattern emoji_template html.

(** ** The page assembler *)

(** [tpl.format] with keyword arguments, for the format strings of the script: [{{] and
    [}}] stand for braces and [{name}] for the keyword argument [name].
    (Conversions, format specifications and attribute lookups do not occur
    in [HTML_TEMPLATE] and are not modelled.) *)
Inductive fmode :=
| FText                 (* in literal text *)
| FOpen                 (* after a [{] *)
| FClose                (* after a [}] *)
| FField (name : str).  (* inside [{...] *)

Fixpoint format_go (kwargs : gmap (list N) (list N)) (mode : fmode) (s : str)
    : result str :=
  match s with
  | [] =>
      match mode with
      | FText => Ok []
      | FOpen => Raise (ValueError "Single '{' encountered in format string")
      | FClose => Raise (ValueError "Single '}' encountered in format string")
      | FField _ => Raise (ValueError "expected '}' before end of string")
      end
  | c :: rest =>
      match mode with
      | FText =>
          if N.eqb c 123 then format_go kwargs FOpen rest
          else if N.eqb c 125 then format_go kwargs FClose rest
          else out <- format_go kwargs FText rest ;; Ok (c :: out)
      | FOpen =>
          if N.eqb c 123 then out <- format_go kwargs FText rest ;; Ok (c :: out)
          else if N.eqb c 125
          then Raise (IndexError "Replacement index 0 out of range for positional args tuple")
          else format_go kwargs (FField [c]) rest
      | FClose =>
          if N.eqb c 125 then out <- format_go kwargs FText rest ;; Ok (c :: out)
          else Raise (ValueError "Single '}' encountered in format string")
      | FField name =>
          if N.eqb c 125
          then match kwargs !! name with
               | Some v => out <- format_go kwargs FText rest ;; Ok (v ++ out)
               | None => Raise (KeyError name)
               end
          else format_go kwargs (FField (name ++ [c])) rest
      end
  end.

Definition format (tpl : str) (kwargs : gmap (list N) (list N)) : result str :=
  format_go kwargs FText tpl.

Definition Q : str := [QUOTE].

(** The page template, a format string with the fields [title], [content] and one [active_...] field per navigation entry. *)
Definition HTML_TEMPLATE : str :=
  lit "<!DOCTYPE html>
<html lang=" ++ Q ++ lit "en" ++ Q ++ lit ">
<head>
    <meta charset=" ++ Q ++ lit "UTF-8" ++ Q ++ lit ">
    <meta name=" ++ Q ++ lit "viewport" ++ Q ++ lit " content=" ++ Q ++
  lit "width=device-width, initial-scale=1.0" ++ Q ++ lit ">
    <title>{title} - FP-ASM Library</title>
    <style>
        * {{
            margin: 0;
            padding: 0;
            box-sizing: border-box;
        }}

        body {{
            font-family: -apple-system, BlinkMacSystemFont, 'Segoe UI', Roboto, Oxygen, Ubuntu, Cantarell, sans-serif;
            line-height: 1.6;
            color: #333;
            background: #f5f5f5;
        }}

        .container {{
            display: flex;
            max-width: 1400px;
            margin: 0 auto;
            background: white;
            min-height: 100vh;
        }}

        /* Sidebar Navigation */
        .sidebar {{
            width: 280px;
            background: #2c3e50;
            color: white;
            padding: 20px;
            position: sticky;
            top: 0;
            height: 100vh;
            overflow-y: auto;
        }}

        .sidebar h2 {{
            color: #3498db;
            margin-bottom: 20px;
            font-size: 1.4em;
            border-bottom: 2px solid #3498db;
            padding-bottom: 10px;
        }}

        .sidebar nav ul {{
            list-style: none;
        }}

        .sidebar nav li {{
            margin: 8px 0;
        }}

        .sidebar nav a {{
            color: #ecf0f1;
            text-decoration: none;
            display: block;
            padding: 8px 12px;
            border-radius: 4px;
            transition: all 0.3s;
        }}

        .sidebar nav a:hover {{
            background: #34495e;
            color: #3498db;
            transform: translateX(5px);
        }}

        .sidebar nav a.active {{
            background: #3498db;
            color: white;
        }}

        .sidebar .badge {{
            display: inline-block;
            background: #27ae60;
            color: white;
            font-size: 0.7em;
            padding: 2px 6px;
            border-radius: 3px;
            margin-left: 8px;
        }}

        /* Main Content */
        .content {{
            flex: 1;
            padding: 40px 60px;
            overflow-y: auto;
        }}

        .content h1 {{
            color: #2c3e50;
            font-size: 2.5em;
            margin-bottom: 20px;
            border-bottom: 3px solid #3498db;
            padding-bottom: 10px;
        }}

        .content h2 {{
            color: #34495e;
            font-size: 2em;
            margin-top: 40px;
            margin-bottom: 15px;
            border-left: 4px solid #3498db;
            padding-left: 15px;
        }}

        .content h3 {{
            color: #34495e;
            font-size: 1.5em;
            margin-top: 30px;
            margin-bottom: 10px;
        }}

        .content h4 {{
            color: #7f8c8d;
            font-size: 1.2em;
            margin-top: 20px;
            margin-bottom: 10px;
        }}

        .content p {{
            margin: 15px 0;
            line-height: 1.8;
        }}

        .content ul, .content ol {{
            margin: 15px 0 15px 30px;
        }}

        .content li {{
            margin: 8px 0;
        }}

        /* Code Blocks */
        .content pre {{
            background: #2c3e50;
            color: #ecf0f1;
            padding: 20px;
            border-radius: 6px;
            overflow-x: auto;
            margin: 20px 0;
            border-left: 4px solid #3498db;
        }}

        .content code {{
            background: #ecf0f1;
            padding: 2px 6px;
            border-radius: 3px;
            font-family: 'Courier New', monospace;
            font-size: 0.9em;
            color: #c7254e;
        }}

        .content pre code {{
            background: transparent;
            padding: 0;
            color: #ecf0f1;
        }}

        /* Tables */
        .content table {{
            width: 100%;
            border-collapse: collapse;
            margin: 20px 0;
            box-shadow: 0 2px 4px rgba(0,0,0,0.1);
        }}

        .content th {{
            background: #3498db;
            color: white;
            padding: 12px;
            text-align: left;
            font-weight: bold;
        }}

        .content td {{
            padding: 12px;
            border-bottom: 1px solid #ecf0f1;
        }}

        .content tr:hover {{
            background: #f8f9fa;
        }}

        /* Badges */
        .badge-green {{
            background: #27ae60;
            color: white;
            padding: 4px 10px;
            border-radius: 4px;
            font-size: 0.85em;
            font-weight: bold;
        }}

        .badge-blue {{
            background: #3498db;
            color: white;
            padding: 4px 10px;
            border-radius: 4px;
            font-size: 0.85em;
            font-weight: bold;
        }}

        .badge-orange {{
            background: #e67e22;
            color: white;
            padding: 4px 10px;
            border-radius: 4px;
            font-size: 0.85em;
            font-weight: bold;
        }}

        /* Blockquotes */
        .content blockquote {{
            border-left: 4px solid #3498db;
            padding: 15px 20px;
            background: #ecf0f1;
            margin: 20px 0;
            font-style: italic;
        }}

        /* Links */
        .content a {{
            color: #3498db;
            text-decoration: none;
            border-bottom: 1px solid transparent;
            transition: border-color 0.3s;
        }}

        .content a:hover {{
            border-bottom-color: #3498db;
        }}

        /* Horizontal Rules */
        .content hr {{
            border: none;
            border-top: 2px solid #ecf0f1;
            margin: 40px 0;
        }}

        /* Emoji support */
        .emoji {{
            font-size: 1.2em;
        }}

        /* Top banner */
        .banner {{
            background: linear-gradient(135deg, #667eea 0%, #764ba2 100%);
            color: white;
            padding: 20px 60px;
            box-shadow: 0 2px 10px rgba(0,0,0,0.1);
        }}

        .banner h1 {{
            color: white;
            border: none;
            margin: 0;
            font-size: 1.8em;
        }}

        .banner p {{
            margin: 5px 0 0 0;
            opacity: 0.9;
        }}

        /* Function signature boxes */
        .signature {{
            background: #f8f9fa;
            border: 2px solid #3498db;
            border-radius: 6px;
            padding: 15px;
            margin: 20px 0;
            font-family: 'Courier New', monospace;
        }}

        /* Performance badges */
        .perf-badge {{
            display: inline-block;
            padding: 6px 12px;
            border-radius: 20px;
            font-size: 0.85em;
            font-weight: bold;
            margin: 5px 5px 5px 0;
        }}

        .perf-excellent {{ background: #27ae60; color: white; }}
        .perf-good {{ background: #2ecc71; color: white; }}
        .perf-okay {{ background: #f39c12; color: white; }}
        .perf-competitive {{ background: #3498db; color: white; }}

        /* Scrollbar styling */
        ::-webkit-scrollbar {{
            width: 10px;
        }}

        ::-webkit-scrollbar-track {{
            background: #f1f1f1;
        }}

        ::-webkit-scrollbar-thumb {{
            background: #888;
            border-radius: 5px;
        }}

        ::-webkit-scrollbar-thumb:hover {{
            background: #555;
        }}

        @media (max-width: 768px) {{
            .container {{
                flex-direction: column;
            }}

            .sidebar {{
                width: 100%;
                height: auto;
                position: relative;
            }}

            .content {{
                padding: 20px;
            }}

            .banner {{
                padding: 15px 20px;
            }}
        }}
    </style>
</head>
<body>
    <div class=" ++ Q ++ lit "banner" ++ Q ++ lit ">
        <h1>" ++ [128640%N] ++ lit " FP-ASM Library Documentation</h1>
        <p>Complete Functional Programming Toolkit for C " ++ [8226%N] ++
  lit " 100% FP Coverage " ++ [8226%N] ++ lit " 36 Functions " ++ [8226%N] ++
  lit " Production Ready</p>
    </div>
    <div class=" ++ Q ++ lit "container" ++ Q ++ lit ">
        <aside class=" ++ Q ++ lit "sidebar" ++ Q ++ lit ">
            <h2>" ++ [128218%N] ++ lit " Documentation</h2>
            <nav>
                <ul>
                    <li><a href=" ++ Q ++ lit "index.html" ++ Q ++ lit " class=" ++ Q ++
  lit "{active_index}" ++ Q ++ lit ">" ++ [127968%N] ++ lit " Home</a></li>
                    <li><a href=" ++ Q ++ lit "README.html" ++ Q ++ lit " class=" ++ Q ++
  lit "{active_readme}" ++ Q ++ lit ">" ++ [128214%N] ++ lit " Overview</a></li>
                    <li><a href=" ++ Q ++ lit "QUICK_START.html" ++ Q ++ lit " class=" ++ Q ++
  lit "{active_quick}" ++ Q ++ lit ">" ++ [128640%N] ++ lit " Quick Start</a></li>
                    <li><a href=" ++ Q ++ lit "API_REFERENCE.html" ++ Q ++ lit " class=" ++
  Q ++ lit "{active_api}" ++ Q ++ lit ">" ++ [128216%N] ++ lit " API Reference <span class=" ++
  Q ++ lit "badge" ++ Q ++ lit ">36 funcs</span></a></li>
                    <li><a href=" ++ Q ++ lit "COMPLETE_LIBRARY_REPORT.html" ++ Q ++
  lit " class=" ++ Q ++ lit "{active_complete}" ++ Q ++ lit ">" ++ [127881%N] ++
  lit " Journey Report</a></li>
                    <li><a href=" ++ Q ++ lit "TIER1_COMPLETENESS_REPORT.html" ++ Q ++
  lit " class=" ++ Q ++ lit "{active_tier1}" ++ Q ++ lit ">" ++ [128202%N] ++
  lit " TIER 1 Report</a></li>
                    <li><a href=" ++ Q ++ lit "TIER2_COMPLETENESS_REPORT.html" ++ Q ++
  lit " class=" ++ Q ++ lit "{active_tier2}" ++ Q ++ lit ">" ++ [128202%N] ++
  lit " TIER 2 Report</a></li>
                    <li><a href=" ++ Q ++ lit "TIER3_COMPLETENESS_REPORT.html" ++ Q ++
  lit " class=" ++ Q ++ lit "{active_tier3}" ++ Q ++ lit ">" ++ [128202%N] ++
  lit " TIER 3 Report</a></li>
                    <li><a href=" ++ Q ++ lit "ACHIEVEMENT_SUMMARY.html" ++ Q ++
  lit " class=" ++ Q ++ lit "{active_achievement}" ++ Q ++ lit ">" ++ [127942%N] ++
  lit " Achievement</a></li>
                </ul>
            </nav>
        </aside>
        <main class=" ++ Q ++ lit "content" ++ Q ++ lit ">
            {content}
        </main>
    </div>
</body>
</html>
".

(** The hand-written fragment of the landing page, as [create_index_page] returns it. *)
Definition index_content : str :=
  lit "
<h1>Welcome to FP-ASM Library Documentation</h1>

<p>A complete, production-ready functional programming toolkit for C with hand-optimized x64 assembly and AVX2 SIMD acceleration.</p>

<h2>" ++ [127919%N] ++ lit " Quick Navigation</h2>

<div style=" ++ Q ++
  lit "display: grid; grid-template-columns: repeat(auto-fit, minmax(300px, 1fr)); gap: 20px; margin: 30px 0;" ++
  Q ++ lit ">
    <div style=" ++ Q ++
  lit "padding: 20px; background: #ecf0f1; border-radius: 8px; border-left: 4px solid #3498db;" ++
  Q ++ lit ">
        <h3>" ++ [128214%N] ++ lit " Getting Started</h3>
        <p>New to FP-ASM? Start here!</p>
        <a href=" ++ Q ++ lit "README.html" ++ Q ++ lit ">Read the Overview</a> " ++
  [8226%N] ++ lit "
        <a href=" ++ Q ++ lit "QUICK_START.html" ++ Q ++ lit ">Quick Start Tutorial</a>
    </div>

    <div style=" ++ Q ++
  lit "padding: 20px; background: #ecf0f1; border-radius: 8px; border-left: 4px solid #27ae60;" ++
  Q ++ lit ">
        <h3>" ++ [128216%N] ++ lit " API Documentation</h3>
        <p>Complete reference for all 36 functions</p>
        <a href=" ++ Q ++ lit "API_REFERENCE.html" ++ Q ++ lit ">Browse API Reference</a>
    </div>

    <div style=" ++ Q ++
  lit "padding: 20px; background: #ecf0f1; border-radius: 8px; border-left: 4px solid #e67e22;" ++
  Q ++ lit ">
        <h3>" ++ [127881%N] ++ lit " Achievement Reports</h3>
        <p>See the journey to 100% completion</p>
        <a href=" ++ Q ++ lit "COMPLETE_LIBRARY_REPORT.html" ++ Q ++
  lit ">Journey Report</a> " ++ [8226%N] ++ lit "
        <a href=" ++ Q ++ lit "ACHIEVEMENT_SUMMARY.html" ++ Q ++ lit ">Final Summary</a>
    </div>
</div>

<h2>" ++ [128202%N] ++ lit " Library Statistics</h2>

<table>
    <tr>
        <th>Metric</th>
        <th>Value</th>
    </tr>
    <tr>
        <td><strong>Total Functions</strong></td>
        <td><span class=" ++ Q ++ lit "badge-green" ++ Q ++ lit ">36</span></td>
    </tr>
    <tr>
        <td><strong>Assembly Modules</strong></td>
        <td><span class=" ++ Q ++ lit "badge-blue" ++ Q ++ lit ">10</span></td>
    </tr>
    <tr>
        <td><strong>FP Completeness</strong></td>
        <td><span class=" ++ Q ++ lit "badge-green" ++ Q ++ lit ">100%</span></td>
    </tr>
    <tr>
        <td><strong>Performance Range</strong></td>
        <td><span class=" ++ Q ++ lit "badge-orange" ++ Q ++
  lit ">1.0-4.0x vs GCC -O3</span></td>
    </tr>
    <tr>
        <td><strong>Platform</strong></td>
        <td>Windows x64 " ++ [8226%N] ++ lit " AVX2</td>
    </tr>
    <tr>
        <td><strong>Status</strong></td>
        <td><span class=" ++ Q ++ lit "badge-green" ++ Q ++ lit ">Production Ready</span></td>
    </tr>
</table>

<h2>" ++ [128640%N] ++ lit " Quick Example</h2>

<pre><code>#include &lt;stdio.h&gt;
#include " ++ Q ++ lit "fp_core.h" ++ Q ++ lit "

int main() {
    // Sum an array (1.5-1.8x faster than C)
    int64_t numbers[] = {1, 2, 3, 4, 5};
    int64_t sum = fp_reduce_add_i64(numbers, 5);
    printf(" ++ Q ++ lit "Sum: %lld\n" ++ Q ++ lit ", sum);  // Output: 15

    // Find median
    double data[] = {25.3, 19.2, 28.5, 21.8};
    fp_sort_f64(data, 4);
    printf(" ++ Q ++ lit "Median: %.1f\n" ++ Q ++ lit ", data[2]);

    return 0;
}
</code></pre>

<p><strong>Compile:</strong> <code>gcc your_program.c fp_core_*.o -o your_program.exe</code></p>

<h2>" ++ [127891%N] ++ lit " What Makes FP-ASM Special?</h2>

<ul>
    <li><strong>" ++ [9989%N] ++
  lit " 100% Complete</strong> - All standard FP operations from Haskell/ML/Lisp</li>
    <li><strong>" ++ [9889%N] ++
  lit " High Performance</strong> - 1.0-4.0x faster than GCC -O3</li>
    <li><strong>" ++ [128295%N] ++
  lit " Production Ready</strong> - Tested, documented, ABI-compliant</li>
    <li><strong>" ++ [128230%N] ++ lit " Zero Dependencies</strong> - Just include and link</li>
    <li><strong>" ++ [127919%N] ++ lit " Type Safe</strong> - Separate i64 and f64 variants</li>
    <li><strong>" ++ [128218%N] ++
  lit " Well Documented</strong> - 170+ KB of guides and references</li>
</ul>

<h2>" ++ [128214%N] ++ lit " Documentation Overview</h2>

<ul>
    <li><strong><a href=" ++ Q ++ lit "README.html" ++ Q ++
  lit ">README</a></strong> - Main overview and quick examples</li>
    <li><strong><a href=" ++ Q ++ lit "QUICK_START.html" ++ Q ++
  lit ">Quick Start</a></strong> - Tutorial from basics to advanced</li>
    <li><strong><a href=" ++ Q ++ lit "API_REFERENCE.html" ++ Q ++
  lit ">API Reference</a></strong> - Complete docs for all 36 functions</li>
    <li><strong><a href=" ++ Q ++ lit "COMPLETE_LIBRARY_REPORT.html" ++ Q ++
  lit ">Journey Report</a></strong> - 40% " ++ [8594%N] ++ lit " 100% story</li>
    <li><strong><a href=" ++ Q ++ lit "TIER1_COMPLETENESS_REPORT.html" ++ Q ++
  lit ">TIER 1 Report</a></strong> - List operations (scans, filter, partition)</li>
    <li><strong><a href=" ++ Q ++ lit "TIER2_COMPLETENESS_REPORT.html" ++ Q ++
  lit ">TIER 2 Report</a></strong> - Sorting & sets details</li>
    <li><strong><a href=" ++ Q ++ lit "TIER3_COMPLETENESS_REPORT.html" ++ Q ++
  lit ">TIER 3 Report</a></strong> - Grouping, unfold, boolean operations</li>
    <li><strong><a href=" ++ Q ++ lit "ACHIEVEMENT_SUMMARY.html" ++ Q ++
  lit ">Achievement Summary</a></strong> - Final celebration</li>
</ul>

<hr>

<p style=" ++ Q ++ lit "text-align: center; color: #7f8c8d; margin-top: 40px;" ++ Q ++ lit ">
    <em>Bringing Haskell's elegance to C's performance. One assembly instruction at a time.</em> " ++
  [128153%N] ++ [9889%N] ++ lit "
</p>
".

(** [r'<h1>(.+?)</h1>'] *)
Definition re_h1 : regex :=
  cats [text (lit "<h1>"); Grp 1 (lazy_plus Any); text (lit "</h1>")].

(** [r'<[^>]+>'] *)
Definition re_tag : regex :=
  cats [text (lit "<"); plus (none_of (lit ">")); text (lit ">")].

(** The title of a page: the first [h1] of the fragment, its tags removed. *)
Definition page_title (html_content : str) : result str :=
  let title :=
    match re_search no_flags re_h1 html_content with
    | Some title_match => group title_match 1
    | None => lit "FP-ASM"
    end in
  re_sub no_flags re_tag [] title.

(** The navigation flags: all empty, then the one of the page set. *)
Definition no_active_flags : gmap (list N) (list N) :=
  list_to_map
    [(lit "active_index", []); (lit "active_readme", []); (lit "active_quick", []);
     (lit "active_api", []); (lit "active_complete", []); (lit "active_tier1", []);
     (lit "active_tier2", []); (lit "active_tier3", []); (lit "active_achievement", [])].

Definition set_active (key : string) (active_flags : gmap (list N) (list N))
    : gmap (list N) (list N) :=
  <[lit key := lit "active"]> active_flags.

Definition active_flags_of (md_file : str) : gmap (list N) (list N) :=
  let active_flags := no_active_flags in
  if str_eqb md_file (lit "README.md") then set_active "active_readme" active_flags
  else if str_eqb md_file (lit "QUICK_START.md") then set_active "active_quick" active_flags
  else if str_eqb md_file (lit "API_REFERENCE.md") then set_active "active_api" active_flags
  else if str_eqb md_file (lit "COMPLETE_LIBRARY_REPORT.md")
  then set_active "active_complete" active_flags
  else if str_eqb md_file (lit "TIER1_COMPLETENESS_REPORT.md")
  then set_active "active_tier1" active_flags
  else if str_eqb md_file (lit "TIER2_COMPLETENESS_REPORT.md")
  then set_active "active_tier2" active_flags
  else if str_eqb md_file (lit "TIER3_COMPLETENESS_REPORT.md")
  then set_active "active_tier3" active_flags
  else if str_eqb md_file (lit "ACHIEVEMENT_SUMMARY.md")
  then set_active "active_achievement" active_flags
  else active_flags.

(** [HTML_TEMPLATE.format(title=title, content=html_content, **active_flags)] *)
Definition fill_template (title content : str) (active_flags : gmap (list N) (list N))
    : result str :=
  format HTML_TEMPLATE (<[lit "title" := title]> (<[lit "content" := content]> active_flags)).

(** The fix-up of markdown links: [final_html.replace('.md"', '.html"')]. *)
Definition fix_md_links (final_html : str) : str :=
  replace (lit ".md" ++ Q) (lit ".html" ++ Q) final_html.

(** The body of the loop of [generate_html_docs] between reading the
    markdown file and writing the page. *)
Definition render_page (md_file markdown_content : str) : result str :=
  html_content <- convert_markdown_to_html markdown_content ;;
  let active_flags := active_flags_of md_file in
  title <- page_title html_content ;;
  final_html <- fill_template title html_content active_flags ;;
  Ok (fix_md_links final_html).

(** ** The orchestrator *)

Definition md_files : list str :=
  [lit "README.md"; lit "QUICK_START.md"; lit "API_REFERENCE.md";
   lit "COMPLETE_LIBRARY_REPORT.md"; lit "TIER1_COMPLETENESS_REPORT.md";
   lit "TIER2_COMPLETENESS_REPORT.md"; lit "TIER3_COMPLETENESS_REPORT.md";
   lit "ACHIEVEMENT_SUMMARY.md"].

Fixpoint rfind (c : char) (s : str) : option nat :=
  match s with
  | [] => None
  | x :: rest =>
      match rfind c rest with
      | Some i => Some (S i)
      | None => if N.eqb x c then Some 0 else None
      end
  end.

(** [Path(path).name]: the last component of the path.  The components are
    the pieces between the [/] characters without the empty pieces and the
    pieces [.], which pathlib drops when it builds the path ([a//b/./] is
    [a/b]); a path without components (the empty path, [.], [/]) has the
    empty name. *)
Definition path_name (path : str) : str :=
  List.last (List.filter (fun part => negb (is_empty part) && negb (str_eqb part (lit ".")))
          (split 47%N path)) [].

(** The name of [Path(path).with_suffix(suffix)] for a path of name [name]:
    the suffix of a name starts at its last dot, unless that dot is its
    first or its last character. *)
Definition with_suffix (name suffix : str) : str :=
  match rfind 46%N name with
  | Some i =>
      if (0 <? i) && (i <? length name - 1) then take i name ++ suffix
      else name ++ suffix
  | None => name ++ suffix
  end.

Definition output_dir : str := lit "docs_html".

(** [output_dir / md_path.with_suffix('.html').name], rendered with [/]:
    the page goes by the file name alone, whatever directory the markdown
    file is in.  [with_suffix] raises [ValueError] (its message shows the
    path) for a path with the empty name. *)
Definition html_path (md_file : str) : result str :=
  let md_name := path_name md_file in
  if is_empty md_name then Raise (ValueError "path has an empty name")
  else Ok (output_dir ++ lit "/" ++ with_suffix md_name (lit ".html")).

(** The world the script acts on: the regular files it can read and write,
    by path relative to the working directory, and what it printed (one
    entry per [print]).  Directories, permissions and encodings are not
    modelled: every file of [files] is readable text and every write
    succeeds. *)
Record world := {
  files : gmap (list N) (list N);
  console : list str
}.

(** [print(s, end=e)] *)
Definition print (s e : str) (w : world) : world :=
  {| files := files w; console := console w ++ [s ++ e] |}.

Definition write_file (path content : str) (w : world) : world :=
  {| files := <[path := content]> (files w); console := console w |}.

Definition warn_line (md_file : str) : str :=
  lit "[WARN] Skipping " ++ md_file ++ lit " (not found)".

Definition success_line (pages : nat) : str :=
  lit "[SUCCESS] Generated " ++ str_of_nat pages ++ lit " HTML pages!".

(** The [for md_file in md_files] loop; [converted] is the counter of the
    source. *)
Fixpoint convert_files (todo : list str) (converted : nat) (w : world)
    : result (nat * world) :=
  match todo with
  | [] => Ok (converted, w)
  | md_file :: rest =>
      match files w !! md_file with
      | None =>
          (* not md_path.exists(): warn and continue *)
          convert_files rest converted (print (warn_line md_file) [NL] w)
      | Some markdown_content =>
          let w := print (lit "[*] Converting " ++ md_file ++ lit "...") (lit " ") w in
          final_html <- render_page md_file markdown_content ;;
          path <- html_path md_file ;;
          let w := write_file path final_html w in
          let w := print (lit "[OK] -> " ++ path) [NL] w in
          convert_files rest (converted + 1) w
      end
  end.

Definition rule_line : str := concat (repeat (lit "=") 60).

(** [generate_html_docs()].  [abs_dir] is the rendering of
    [output_dir.absolute()], which depends on the working directory. *)
Definition generate_html_docs (abs_dir : str) (w : world) : result (nat * world) :=
  let w := print (lit "[*] FP-ASM HTML Documentation Generator") [NL] w in
  let w := print rule_line [NL] w in
  let w := print (lit "[OK] Created output directory: " ++ output_dir) [NL] w in
  done <- convert_files md_files 0 w ;;
  let converted := fst done in
  let w := snd done in
  (* Create index.html *)
  let w := print (lit "[*] Creating index.html...") (lit " ") w in
  index_html <- fill_template (lit "Home") index_content
                  (set_active "active_index" no_active_flags) ;;
  let w := write_file (output_dir ++ lit "/index.html") index_html w in
  let w := print (lit "[OK]") [NL] w in
  let w := print ([NL] ++ rule_line) [NL] w in
  let w := print (success_line (converted + 1)) [NL] w in
  let w := print (lit "[DIR] Output directory: " ++ abs_dir) [NL] w in
  let w := print ([NL] ++ lit "[BROWSER] Open: file:///" ++ abs_dir ++ lit "/index.html") [NL] w in
  let w := print rule_line [NL] w in
  Ok (converted, w).

(** ** Auxiliary definitions used to state the properties *)

(** The character before the position reached after reading [w]. *)
Definition prev_after (prev : option char) (w : str) : option char :=
  match last w with
  | Some c => Some c
  | None => prev
  end.

(** The state reached from [st] by reading [w], with [rest] still ahead. *)
Definition after (st : mstate) (w rest : str) : mstate :=
  {| m_prev := prev_after (m_prev st) w; m_rest := rest; m_caps := m_caps st |}.

(** The repetition loop of [matches], by name. *)
Section rep_go.
Variables (fl : flags) (r1 : regex) (greedy : bool) (k : mstate -> option mstate).

Fixpoint rep_go (fuel lo : nat) (st : mstate) {struct fuel} : option mstate :=
  match fuel with
  | O => None
  | S fuel' =>
      let again st1 :=
        if length (m_rest st1) <? length (m_rest st)
        then rep_go fuel' (pred lo) st1 else None in
      match lo with
      | S _ => matches fl r1 st again
      | O =>
          if greedy
          then orelse (matches fl r1 st again) (k st)
          else match k st with
               | Some a => Some a
               | None => matches fl r1 st again
               end
      end
  end.
End rep_go.

(** Patterns that match without reading anything and leave the state as it is. *)
Definition zero_width (r : regex) : bool :=
  match r with
  | Eps | Bol | Eol => true
  | _ => false
  end.

(** A necessary condition for [r] to match at a position, read off the
    pattern's first element. *)
Fixpoint can_start (fl : flags) (r : regex) (prev : option char) (s : str) : bool :=
  let st := {| m_prev := prev; m_rest := s; m_caps := [] |} in
  match r with
  | Eps => true
  | Chr c => match s with x :: _ => N.eqb x c | [] => false end
  | Cls neg items => match s with x :: _ => cls_mem neg items x | [] => false end
  | Any => match s with x :: _ => DOTALL fl || negb (N.eqb x NL) | [] => false end
  | Bol => at_bol fl st
  | Eol => at_eol fl st
  | Cat r1 r2 => can_start fl r1 prev s && (negb (zero_width r1) || can_start fl r2 prev s)
  | Alt r1 r2 => can_start fl r1 prev s || can_start fl r2 prev s
  | Rep _ lo r1 => match lo with O => true | S _ => can_start fl r1 prev s end
  | Opt _ => true
  | Grp _ r1 => can_start fl r1 prev s
  end.

(** [quiet fl r prev s]: at no position of [s] can [r] start to match. *)
Fixpoint quiet (fl : flags) (r : regex) (prev : option char) (s : str) : bool :=
  negb (can_start fl r prev s) &&
  match s with
  | [] => true
  | c :: rest => quiet fl r (Some c) rest
  end.

(** The least number of characters a match of [r] reads. *)
Fixpoint min_len (r : regex) : nat :=
  match r with
  | Chr _ | Cls _ _ | Any => 1
  | Cat r1 r2 => min_len r1 + min_len r2
  | Alt r1 r2 => Nat.min (min_len r1) (min_len r2)
  | Rep _ lo r1 => lo * min_len r1
  | Grp _ r1 => min_len r1
  | _ => 0
  end.

(** [needle] occurs in [s]. *)
Fixpoint contains (s needle : str) : bool :=
  startswith s needle ||
  match s with
  | [] => false
  | _ :: rest => contains rest needle
  end.

(** No proper suffix of [p] is a prefix of [p]: occurrences of [p] cannot overlap. *)
Definition border_free (p : str) : bool :=
  forallb (fun k => negb (startswith p (drop k p))) (seq 1 (length p - 1)).

(** [quiet_to fl r prev pre s]: in the text [pre ++ s], [r] cannot start to
    match at any position inside [pre]. *)
Fixpoint quiet_to (fl : flags) (r : regex) (prev : option char) (pre s : str) : bool :=
  match pre with
  | [] => true
  | c :: pre' => negb (can_start fl r prev (pre ++ s)) && quiet_to fl r (Some c) pre' s
  end.

(** One-character patterns and the characters they accept. *)
Definition atom_mem (fl : flags) (r : regex) (c : char) : bool :=
  match r with
  | Chr x => N.eqb c x
  | Cls neg items => cls_mem neg items c
  | Any => DOTALL fl || negb (N.eqb c NL)
  | _ => false
  end.

Definition is_atom (r : regex) : bool :=
  match r with
  | Chr _ | Cls _ _ | Any => true
  | _ => false
  end.

(** The next character, if any, is not accepted by the one-character pattern [r]. *)
Definition stops (fl : flags) (r : regex) (rest : str) : bool :=
  match rest with
  | [] => true
  | c :: _ => negb (atom_mem fl r c)
  end.

(** [unmatched fl r prev pre s]: in the text [pre ++ s], [r] matches at no
    position inside [pre]. *)
Fixpoint unmatched (fl : flags) (r : regex) (prev : option char) (pre s : str) : Prop :=
  match pre with
  | [] => True
  | c :: pre' => match_at fl r prev (pre ++ s) = None /\ unmatched fl r (Some c) pre' s
  end.

(** The passes of [convert_markdown_to_html], by name. *)
Definition pass_h1 : str -> result str :=
  re_sub re_MULTILINE (re_header "#") [t "<h1>"; TRef 1; t "</h1>"].
Definition pass_h2 : str -> result str :=
  re_sub re_MULTILINE (re_header "##") [t "<h2>"; TRef 1; t "</h2>"].
Definition pass_h3 : str -> result str :=
  re_sub re_MULTILINE (re_header "###") [t "<h3>"; TRef 1; t "</h3>"].
Definition pass_h4 : str -> result str :=
  re_sub re_MULTILINE (re_header "####") [t "<h4>"; TRef 1; t "</h4>"].
Definition pass_code_block : str -> result str :=
  re_sub re_DOTALL re_code_block [t "<pre><code>"; TRef 2; t "</code></pre>"].
Definition pass_inline_code : str -> result str :=
  re_sub no_flags re_inline_code [t "<code>"; TRef 1; t "</code>"].
Definition pass_bold : str -> result str :=
  re_sub no_flags re_bold [t "<strong>"; TRef 1; t "</strong>"].
Definition pass_italic : str -> result str :=
  re_sub no_flags re_italic [t "<em>"; TRef 1; t "</em>"].
Definition pass_link : str -> result str :=
  re_sub no_flags re_link link_template.
Definition pass_hr : str -> result str :=
  re_sub re_MULTILINE re_hr [t "<hr>"].
Definition pass_bullet : str -> result str :=
  re_sub re_MULTILINE re_bullet [t "<li>"; TRef 1; t "</li>"].
Definition pass_items : str -> result str :=
  re_sub re_DOTALL re_items [t "<ul>"; TRef 1; t "</ul>"].
Definition pass_numbered : str -> result str :=
  re_sub re_MULTILINE re_numbered [t "<li>"; TRef 1; t "</li>"].
Definition pass_table : str -> str :=
  re_sub_fn no_flags re_table convert_table.
Definition pass_emoji : str -> result str :=
  re_sub no_flags emoji_pattern emoji_template.

(** The text of a page around its title and its content, read off
    [HTML_TEMPLATE] by filling it with two marker characters. *)
Fixpoint split_at (marker : char) (s : str) : str * str :=
  match s with
  | [] => ([], [])
  | c :: rest =>
      if N.eqb c marker then ([], rest)
      else let r := split_at marker rest in (c :: fst r, snd r)
  end.

Definition page_parts (active_flags : gmap (list N) (list N)) : str * str * str :=
  match fill_template [0%N] [1%N] active_flags with
  | Ok doc =>
      let ar := split_at 0%N doc in
      let bc := split_at 1%N (snd ar) in
      (fst ar, fst bc, snd bc)
  | Raise _ => ([], [], [])
  end.

(** [md_path.exists()] *)
Definition file_exists (w : world) (f : str) : bool :=
  match files w !! f with
  | Some _ => true
  | None => false
  end.

(** [HTML_TEMPLATE] filled with the flags [active_flags] is the text
    [page_parts] reads off it, around the title and the content. *)
Definition parts_ok (active_flags : gmap (list N) (list N)) : Prop :=
  forall title content,
    fill_template title content active_flags
    = Ok (fst (fst (page_parts active_flags)) ++ title
          ++ snd (fst (page_parts active_flags)) ++ content
          ++ snd (page_parts active_flags)).

(** A working directory that holds one of the configured files only. *)
Definition example_world : world :=
  {| files := {[ lit "README.md" := lit "# hi" ]}; console := [] |}.

(** [re.sub(r'<[^>]+>', '', title)] *)
Definition strip_tags (title : str) : str :=
  re_sub_fn no_flags re_tag (expand []) title.

(** *** The heading that gives the title, read off the text

    The text of [s] up to the first [</h1>] on its first line, when that
    line has one. *)
Fixpoint until_close (s : str) : option str :=
  if startswith s (lit "</h1>") then Some []
  else match s with
       | [] => None
       | c :: rest =>
           if N.eqb c NL then None
           else match until_close rest with
                | Some t => Some (c :: t)
                | None => None
                end
       end.

(** The heading that starts at the beginning of [s]: [<h1>], one character
    of the same line, and the text up to the first [</h1>] of that line
    that comes after this character.  Its text is all that is between
    [<h1>] and that [</h1>]. *)
Definition heading_here (s : str) : option str :=
  if startswith s (lit "<h1>") then
    match drop 4 s with
    | [] => None
    | c :: rest =>
        if N.eqb c NL then None
        else match until_close rest with
             | Some t => Some (c :: t)
             | None => None
             end
    end
  else None.

(** The text of the leftmost heading of [s]. *)
Fixpoint first_heading (s : str) : option str :=
  match heading_here s with
  | Some t => Some t
  | None =>
      match s with
      | [] => None
      | _ :: rest => first_heading rest
      end
  end.

(** The title before its tags are removed: the text of the leftmost
    heading, [FP-ASM] if there is none. *)
Definition title_text (html : str) : str :=
  match first_heading html with
  | Some t => t
  | None => lit "FP-ASM"
  end.

(** [c] does not occur in [s]. *)
Definition lacks (c : char) (s : str) : bool :=
  forallb (fun x => negb (N.eqb x c)) s.

(** Patterns without [^]: whether they match does not depend on the
    character before the position. *)
Fixpoint anchor_free (r : regex) : bool :=
  match r with
  | Bol => false
  | Cat r1 r2 | Alt r1 r2 => anchor_free r1 && anchor_free r2
  | Rep _ _ r1 | Opt r1 | Grp _ r1 => anchor_free r1
  | _ => true
  end.

(** Two states, or two results, that differ at most in the character before. *)
Definition same_text (a b : mstate) : Prop :=
  m_rest a = m_rest b /\ m_caps a = m_caps b.

Definition same_result (x y : option mstate) : Prop :=
  match x, y with
  | Some a, Some b => same_text a b
  | None, None => True
  | _, _ => False
  end.

(** *** Well-formed tables *)

(** The line of a table row with the given cells: [|c1|c2|...|cn|]. *)
Definition row_text (cells : list str) : str :=
  lit "|" ++ concat (map (fun c => c ++ lit "|") cells).




(** The data lines of a table, each with its newline. *)
Definition rows_text (rows : list (list str)) : str :=
  concat (map (fun r => row_text r ++ [NL]) rows).

(** The text of a table: header line, separator line, data lines, each
    ended by a newline. *)
Definition table_text (header : list str) (dashes : str) (rows : list (list str)) : str :=
  row_text header ++ [NL] ++ (lit "|" ++ dashes ++ lit "|") ++ [NL] ++ rows_text rows.



(** *** Text the passes leave alone *)

(** The characters [emoji_pattern] accepts. *)
Definition is_emoji (c : char) : bool :=
  (N.leb 0x1F300 c && N.leb c 0x1F9FF) || (N.leb 0x2600 c && N.leb c 0x26FF)
  || (N.leb 0x2700 c && N.leb c 0x27BF).

(** Characters that can begin markdown or markup wherever they stand:
    the backtick, [*], [[], [|], [<] and the emoji. *)
Definition markup_char (c : char) : bool :=
  N.eqb c 96 || N.eqb c 42 || N.eqb c 91 || N.eqb c 124 || N.eqb c 60 || is_emoji c.

(** Characters that can begin markdown at the start of a line: [#], [-]
    and the digits. *)
Definition line_start_char (c : char) : bool :=
  N.eqb c 35 || N.eqb c 45 || is_digit c.

(** Is the position after the character [prev] the start of a line? *)
Definition bol_of (prev : option char) : bool :=
  match prev with
  | None => true
  | Some c => N.eqb c NL
  end.

(** No line of [s] starts with a character of [f]; [bol] says whether [s]
    itself starts a line. *)
Fixpoint heads_ok (f : char -> bool) (bol : bool) (s : str) : bool :=
  match s with
  | [] => true
  | c :: rest => negb (bol && f c) && heads_ok f (N.eqb c NL) rest
  end.

(** Inert text: no markup character, and no line that starts like a
    heading, a rule, a list item or a numbered item. *)
Definition inert (bol : bool) (s : str) : bool :=
  forallb (fun c => negb (markup_char c)) s && heads_ok line_start_char bol s.

(** A pattern that can only start at a character of [f]. *)
Definition starts_at (fl : flags) (r : regex) (f : char -> bool) : Prop :=
  (forall p c t, f c = false -> can_start fl r p (c :: t) = false)
  /\ (forall p, can_start fl r p [] = false).

(** A pattern that can only start at a character of [f] at the start of a line. *)
Definition starts_line_at (fl : flags) (r : regex) (f : char -> bool) : Prop :=
  (forall p c t, bol_of p && f c = false -> can_start fl r p (c :: t) = false)
  /\ (forall p, can_start fl r p [] = false).

(** What the paragraph loop may do to a line: keep it or wrap it. *)
Definition kept_or_wrapped (line line' : str) : Prop :=
  line' = line \/ line' = lit "<p>" ++ line ++ lit "</p>".


(** *** Output without markdown in it *)

(** The markdown-special characters: the backtick, [*], [[] and [|]. *)
Definition markdown_char (c : char) : bool :=
  N.eqb c 96 || N.eqb c 42 || N.eqb c 91 || N.eqb c 124.

(** Text with no markdown-special character and no emoji in it, no line
    that starts with [#], [-] or a digit, and no list-item markup. *)
Definition markdown_free (h : str) : bool :=
  forallb (fun c => negb (markdown_char c || is_emoji c)) h
  && heads_ok line_start_char true h
  && negb (contains h (lit "<li>")).

(** *** Lines *)

(** The text [post] is at the end of a line: nothing follows, or a newline. *)
Definition line_end (post : str) : bool :=
  match post with
  | [] => true
  | c :: _ => N.eqb c NL
  end.

(** The text [pre] ends a line: it is empty or ends with a newline. *)
Definition line_start (pre : str) : bool := bol_of (prev_after None pre).

(** What the emoji pass writes for one character. *)
Definition wrap_emoji (c : char) : str :=
  if is_emoji c
  then lit "<span class=" ++ [QUOTE] ++ lit "emoji" ++ [QUOTE] ++ lit ">" ++ [c] ++ lit "</span>"
  else [c].

(** What the paragraph loop writes for a line outside a block that does
    not start with [<]. *)
Definition wrap_line (line : str) : str :=
  if is_empty (strip line) then line else lit "<p>" ++ line ++ lit "</p>".

(** *** The fields of the template *)

(** The names [HTML_TEMPLATE] is filled with: the title, the content and
    the nine navigation flags. *)
Definition template_fields : list str :=
  [lit "title"; lit "content"; lit "active_index"; lit "active_readme"; lit "active_quick";
   lit "active_api"; lit "active_complete"; lit "active_tier1"; lit "active_tier2";
   lit "active_tier3"; lit "active_achievement"].

(** Keyword arguments that give every field of the template a value. *)
Definition fields_map (vals : str -> str) : gmap (list N) (list N) :=
  list_to_map (map (fun k => (k, vals k)) template_fields).

(** The number of navigation flags that are set to [active]. *)
Definition active_count (active_flags : gmap (list N) (list N)) : nat :=
  length (List.filter (fun kv => str_eqb (snd kv) (lit "active")) (map_to_list active_flags)).

(** The path of the page of a markdown file that has a name. *)
Definition page_path (md_file : str) : str :=
  output_dir ++ lit "/" ++ with_suffix (path_name md_file) (lit ".html").

(** The path of the landing page. *)
Definition index_path : str := output_dir ++ lit "/index.html".

(** The landing page: the template around the title [Home] and the text of
    [create_index_page], with the flag of the landing page set. *)
Definition index_page : str :=
  let flags := set_active "active_index" no_active_flags in
  fst (fst (page_parts flags)) ++ lit "Home" ++ snd (fst (page_parts flags))
  ++ index_content ++ snd (page_parts flags).

(** *** Text without markdown, piece by piece *)

(** Text that has no markdown-special character and no emoji, no line
    that starts like a heading or a list item ([bol]: the text starts a
    line), and that adds no list-item markup to what follows it. *)
Definition tame (bol : bool) (s : str) : Prop :=
  forallb (fun c => negb (markdown_char c || is_emoji c)) s = true
  /\ heads_ok line_start_char bol s = true
  /\ forall r, contains (s ++ r) (lit "<li>") = contains r (lit "<li>").

(** A tag written by a pass: tame text on one line that is not empty. *)
Definition tag_piece (A : str) : Prop :=
  A <> [] /\ lacks NL A = true /\ forall b, tame b A.

(** *** Bullet lists *)

(** The markdown of a list: one line [- item] per item. *)
Definition bullet_lines (items : list str) : str :=
  join [NL] (map (fun a => lit "- " ++ a) items).

(** The markup of its items: one line [<li>item</li>] per item. *)
Definition item_lines (items : list str) : str :=
  join [NL] (map (fun a => lit "<li>" ++ a ++ lit "</li>") items).

(** An item of inert text on one line. *)
Definition plain_item (a : str) : bool :=
  negb (is_empty a) && lacks NL a && inert false a.
(** * Properties *)

(** ** Strings *)

Lemma startswith_app (p r : str) : startswith (p ++ r) p = true.
Proof.
  induction p as [|c p IH]; simpl; [done|].
  by rewrite N.eqb_refl, IH.
Qed.

Lemma startswith_split (s p : str) :
  startswith s p = true -> s = p ++ drop (length p) s.
Proof.
  revert s; induction p as [|c p IH]; intros [|x s]; simpl; try done.
  intros [Hx Hs]%andb_true_iff. apply N.eqb_eq in Hx as ->.
  by rewrite <- (IH s Hs).
Qed.

Lemma startswith_iff (s p : str) :
  startswith s p = true <-> exists r, s = p ++ r.
Proof.
  split.
  - intros H. eexists. by apply startswith_split.
  - intros [r ->]. apply startswith_app.
Qed.

Lemma startswith_length (s p : str) :
  startswith s p = true -> length p <= length s.
Proof.
  intros [r ->]%startswith_iff. rewrite length_app. lia.
Qed.

Lemma startswith_app_l (s r p : str) :
  startswith s p = true -> startswith (s ++ r) p = true.
Proof.
  intros [q ->]%startswith_iff. rewrite <- app_assoc. apply startswith_app.
Qed.

Lemma startswith_app_inv (s r p : str) :
  length p <= length s -> startswith (s ++ r) p = true -> startswith s p = true.
Proof.
  revert s; induction p as [|c p IH]; intros [|x s]; simpl; try done; try lia.
  intros Hl [Hx Hs]%andb_true_iff. rewrite Hx. simpl. apply IH; [lia|done].
Qed.

Lemma startswith_lookup (s p : str) (j : nat) (c : N) :
  startswith s p = true -> p !! j = Some c -> s !! j = Some c.
Proof.
  intros [r ->]%startswith_iff Hj. by apply lookup_app_l_Some.
Qed.

Lemma contains_false_drop (s old : str) (i : nat) :
  contains s old = false -> startswith (drop i s) old = false.
Proof.
  revert i; induction s as [|c s IH]; intros i; simpl.
  - rewrite orb_false_r. by rewrite drop_nil.
  - intros [H1 H2]%orb_false_iff. destruct i as [|i]; simpl; [done|]. by apply IH.
Qed.

Lemma contains_false_intro (s old : str) :
  (forall i, startswith (drop i s) old = false) -> contains s old = false.
Proof.
  induction s as [|c s IH]; intros H; simpl.
  - rewrite orb_false_r. apply (H 0).
  - apply orb_false_iff; split; [apply (H 0)|]. apply IH. intros i. apply (H (S i)).
Qed.

(** ** [str.replace] *)

Lemma replace_go_skip (old new w v : str) :
  replace_go old new (length w) (w ++ v) = replace_go old new 0 v.
Proof.
  induction w as [|c w IH]; simpl; [|done].
  destruct v; done.
Qed.

Lemma replace_go_none (old new s : str) :
  contains s old = false -> replace_go old new 0 s = s.
Proof.
  induction s as [|c s IH]; simpl; [done|].
  intros [H1 H2]%orb_false_iff. rewrite H1. by rewrite IH.
Qed.

Lemma border_free_spec (p : str) (k : nat) :
  border_free p = true -> 0 < k < length p -> startswith p (drop k p) = false.
Proof.
  unfold border_free. rewrite forallb_forall. intros H Hk.
  apply negb_true_iff, H, in_seq. lia.
Qed.

(** A match of [old] that starts inside [u] and runs over the end of [u],
    right before an occurrence of [old], would make [old] overlap itself. *)
Lemma startswith_straddle (old u v : str) :
  border_free old = true ->
  u <> [] -> length u < length old ->
  startswith (u ++ old ++ v) old = false.
Proof.
  intros Hb Hu Hl. destruct (startswith (u ++ old ++ v) old) eqn:E; [|done].
  exfalso.
  assert (Hk : 0 < length u < length old) by (destruct u; simpl in *; [done|lia]).
  pose proof (border_free_spec _ _ Hb Hk) as Hf.
  apply startswith_iff in E as [r E].
  assert (Htake : take (length u) old = u).
  { apply (f_equal (take (length u))) in E.
    rewrite take_app_length in E. rewrite take_app_le in E by lia. done. }
  assert (Hd : drop (length u) old ++ r = old ++ v).
  { apply (f_equal (drop (length u))) in E.
    rewrite drop_app_length in E. rewrite drop_app_le in E by lia. done. }
  assert (Hs : startswith old (drop (length u) old) = true).
  { apply (startswith_app_inv _ v).
    - rewrite length_drop. lia.
    - rewrite <- Hd. apply startswith_app. }
  congruence.
Qed.

Lemma replace_go_occurrence (old new : str) :
  border_free old = true -> old <> [] ->
  forall (u v : str) (n : nat), n <= length u ->
  replace_go old new n (u ++ old ++ v)
  = replace_go old new n u ++ new ++ replace_go old new 0 v.
Proof.
  intros Hb Hne u v. induction u as [|c u IH]; intros n Hn.
  - assert (n = 0) as -> by (simpl in Hn; lia).
    destruct old as [|o old]; [done|]. simpl.
    rewrite N.eqb_refl, startswith_app. simpl.
    rewrite Nat.sub_0_r. by rewrite replace_go_skip.
  - simpl. destruct n as [|n].
    + destruct (startswith (c :: u) old) eqn:E.
      * pose proof (startswith_app_l (c :: u) (old ++ v) old E) as E2.
        simpl in E2. rewrite E2.
        pose proof (startswith_length _ _ E) as Hl. simpl in Hl.
        rewrite IH by lia. by rewrite <- app_assoc.
      * destruct (startswith (c :: u ++ old ++ v) old) eqn:E'.
        -- destruct (decide (length old <= length (c :: u))) as [Hl|Hl].
           ++ apply (startswith_app_inv (c :: u)) in E'; [congruence|done].
           ++ pose proof (startswith_straddle old (c :: u) v Hb) as E2.
              simpl in E2, Hl. rewrite E2 in E'; [done|done|lia].
        -- by rewrite IH by lia.
    + apply IH. simpl in Hn. lia.
Qed.

(** Text appended after [X] stays as it is when no occurrence of [old] ends in it. *)
Lemma replace_go_tail (old new : str) :
  old <> [] ->
  forall (X t : str) (n : nat), n <= length X ->
  (forall i, startswith (drop i (X ++ t)) old = true -> i + length old <= length X) ->
  replace_go old new n (X ++ t) = replace_go old new n X ++ t.
Proof.
  intros Hne X t. induction X as [|c X IH]; intros n Hn H.
  - assert (n = 0) as -> by (simpl in Hn; lia). simpl.
    rewrite replace_go_none.
    + by destruct t.
    + apply contains_false_intro. intros i.
      destruct (startswith (drop i t) old) eqn:E; [|done].
      apply H in E. destruct old; [done|simpl in E; lia].
  - simpl. destruct n as [|n].
    + destruct (startswith (c :: X ++ t) old) eqn:E.
      * pose proof (H 0 E) as Hl. simpl in Hl.
        rewrite (startswith_app_inv (c :: X) t old Hl E).
        rewrite IH; [by rewrite <- app_assoc| |].
        -- destruct old; [done|]. simpl in *. lia.
        -- intros i Hi. specialize (H (S i) Hi). simpl in H. lia.
      * destruct (startswith (c :: X) old) eqn:E'.
        -- apply (startswith_app_l _ t) in E'. simpl in E'. congruence.
        -- rewrite IH; [done|lia|].
           intros i Hi. specialize (H (S i) Hi). simpl in H. lia.
    + apply IH; [simpl in Hn; lia|].
      intros i Hi. specialize (H (S i) Hi). simpl in H. lia.
Qed.

(** ** The matcher *)

Abbreviation St := Build_mstate.

Lemma prev_after_nil (p : option N) : prev_after p [] = p.
Proof. done. Qed.

Lemma prev_after_cons (p : option N) (c : N) (w : str) :
  prev_after p (c :: w) = prev_after (Some c) w.
Proof.
  unfold prev_after. destruct w as [|x w]; [done|].
  change (last (c :: x :: w)) with (last (x :: w)).
  by destruct (last (x :: w)) eqn:E; [|apply last_None in E].
Qed.

Lemma prev_after_app (p : option N) (u v : str) :
  prev_after p (u ++ v) = prev_after (prev_after p u) v.
Proof.
  revert p; induction u as [|c u IH]; intros p; [done|].
  simpl. rewrite !prev_after_cons. apply IH.
Qed.

Lemma prev_after_snoc (p : option N) (u : str) (c : N) :
  prev_after p (u ++ [c]) = Some c.
Proof. by rewrite prev_after_app. Qed.

Lemma take_consumed (w rest : str) :
  take (length (w ++ rest) - length rest) (w ++ rest) = w.
Proof.
  rewrite length_app, Nat.add_sub. apply take_app_length.
Qed.

Lemma matches_cat fl r1 r2 st k :
  matches fl (Cat r1 r2) st k = matches fl r1 st (fun st1 => matches fl r2 st1 k).
Proof. done. Qed.

Lemma matches_cats_cons fl r rs st k :
  matches fl (cats (r :: rs)) st k = matches fl r st (fun st1 => matches fl (cats rs) st1 k).
Proof. done. Qed.

Lemma matches_cats_nil fl st k : matches fl (cats []) st k = k st.
Proof. done. Qed.

Lemma matches_grp fl n r1 st k :
  matches fl (Grp n r1) st k = matches fl r1 st (fun st1 => k (set_cap n st st1)).
Proof. done. Qed.

Lemma matches_opt fl r1 st k :
  matches fl (Opt r1) st k = orelse (matches fl r1 st k) (k st).
Proof. done. Qed.

Lemma matches_alt fl r1 r2 st k :
  matches fl (Alt r1 r2) st k = orelse (matches fl r1 st k) (matches fl r2 st k).
Proof. done. Qed.

Lemma matches_rep fl g lo r1 st k :
  matches fl (Rep g lo r1) st k = rep_go fl r1 g k (S (length (m_rest st))) lo st.
Proof. done. Qed.

Lemma matches_chr fl c p x s cs k :
  matches fl (Chr c) (St p (x :: s) cs) k
  = if N.eqb x c then k (St (Some x) s cs) else None.
Proof. done. Qed.

Lemma matches_chr_eq fl c p s cs k :
  matches fl (Chr c) (St p (c :: s) cs) k = k (St (Some c) s cs).
Proof. simpl. by rewrite N.eqb_refl. Qed.

Lemma matches_bol fl p s cs k :
  matches fl Bol (St p s cs) k
  = if at_bol fl (St p s cs) then k (St p s cs) else None.
Proof. done. Qed.

Lemma matches_eol fl p s cs k :
  matches fl Eol (St p s cs) k
  = if at_eol fl (St p s cs) then k (St p s cs) else None.
Proof. done. Qed.

Lemma matches_atom fl r p s cs k :
  is_atom r = true ->
  matches fl r (St p s cs) k
  = match s with
    | x :: t => if atom_mem fl r x then k (St (Some x) t cs) else None
    | [] => None
    end.
Proof. by destruct r. Qed.

Lemma set_cap_St n p s cs p' w cs' :
  set_cap n (St p (w ++ s) cs) (St p' s cs') = St p' s ((n, w) :: cs').
Proof.
  unfold set_cap. simpl. by rewrite take_consumed.
Qed.

(** A literal text matches exactly when the input starts with it. *)
Lemma matches_text fl (w : str) : forall p rest cs k,
  matches fl (text w) (St p (w ++ rest) cs) k = k (St (prev_after p w) rest cs).
Proof.
  induction w as [|c w IH]; intros p rest cs k; [done|].
  simpl text. rewrite matches_cat. simpl app. rewrite matches_chr_eq.
  rewrite IH. by rewrite prev_after_cons.
Qed.

Lemma matches_text_fail fl (w : str) : forall p s cs k,
  startswith s w = false -> matches fl (text w) (St p s cs) k = None.
Proof.
  induction w as [|c w IH]; intros p s cs k; [done|].
  destruct s as [|x s]; [done|]. simpl startswith. simpl text.
  rewrite matches_cat, matches_chr.
  destruct (N.eqb x c); [|done]. simpl. apply IH.
Qed.

(** A pattern that cannot start does not match. *)
Lemma can_start_sound fl (r : regex) : forall p s cs k,
  can_start fl r p s = false -> matches fl r (St p s cs) k = None.
Proof.
  induction r as [| c | neg items | | | | r1 IH1 r2 IH2 | r1 IH1 r2 IH2
                 | g lo r1 IH1 | r1 IH1 | n r1 IH1]; intros p s cs k; simpl can_start;
    try done.
  - destruct s as [|x s]; [done|]. simpl. by intros ->.
  - destruct s as [|x s]; [done|]. simpl. by intros ->.
  - destruct s as [|x s]; [done|]. simpl. by intros ->.
  - simpl. unfold at_bol. simpl. by intros ->.
  - simpl. unfold at_eol. simpl. by intros ->.
  - intros H. rewrite matches_cat.
    destruct (can_start fl r1 p s) eqn:E1; [|by apply IH1].
    simpl in H. apply orb_false_iff in H as [Hz H2]. apply negb_false_iff in Hz.
    destruct r1; try done; simpl.
    + by apply IH2.
    + rewrite IH2 by done. by case_match.
    + rewrite IH2 by done. by case_match.
  - intros [H1 H2]%orb_false_iff. rewrite matches_alt.
    by rewrite IH1, IH2.
  - destruct lo as [|lo]; [done|]. intros H.
    rewrite matches_rep. simpl. by apply IH1.
  - intros H. rewrite matches_grp. by apply IH1.
Qed.

(** *** Repetition of a one-character pattern *)

Section rep_atom.
Context (fl : flags) (r : regex) (Hatom : is_atom r = true).
Context (k : mstate -> option mstate).

Lemma rep_go_atom_step g fuel lo p c s cs :
  atom_mem fl r c = true ->
  matches fl r (St p (c :: s) cs)
    (fun st1 => if length (m_rest st1) <? length (c :: s)
                then rep_go fl r g k fuel lo st1 else None)
  = rep_go fl r g k fuel lo (St (Some c) s cs).
Proof.
  intros Hc. rewrite matches_atom by done. rewrite Hc. simpl m_rest.
  assert ((length s <? length (c :: s)) = true) as ->; [|done].
  apply Nat.ltb_lt. simpl. lia.
Qed.

Lemma rep_go_atom_stop g fuel lo p s cs :
  stops fl r s = true ->
  matches fl r (St p s cs)
    (fun st1 => if length (m_rest st1) <? length s
                then rep_go fl r g k fuel lo st1 else None)
  = None.
Proof.
  intros Hs. rewrite matches_atom by done. destruct s as [|c s]; [done|].
  simpl in Hs. apply negb_true_iff in Hs. by rewrite Hs.
Qed.

(** Greedy: no prefix is accepted by the continuation. *)
Lemma rep_greedy_none : forall (v rest : str) p cs fuel lo,
  forallb (atom_mem fl r) v = true ->
  stops fl r rest = true ->
  (forall v1 v2, v = v1 ++ v2 -> k (St (prev_after p v1) (v2 ++ rest) cs) = None) ->
  rep_go fl r true k fuel lo (St p (v ++ rest) cs) = None.
Proof.
  induction v as [|c v IH]; intros rest p cs fuel lo Hv Hstop Hk.
  - destruct fuel as [|fuel]; [done|]. simpl rep_go; simpl m_rest. simpl app.
    rewrite rep_go_atom_stop by done.
    destruct lo; [|done]. simpl. apply (Hk [] []). done.
  - destruct fuel as [|fuel]; [done|]. simpl in Hv. apply andb_true_iff in Hv as [Hc Hv].
    simpl rep_go; simpl m_rest. simpl app. rewrite rep_go_atom_step by done.
    rewrite IH; [| done | done |].
    + destruct lo; [|done]. simpl. apply (Hk [] (c :: v)). done.
    + intros v1 v2 ->. rewrite <- (prev_after_cons p). by apply (Hk (c :: v1) v2).
Qed.

(** Greedy: the longest prefix the continuation accepts is taken. *)
Lemma rep_greedy_atom x : forall (u v rest : str) p cs fuel lo,
  forallb (atom_mem fl r) (u ++ v) = true ->
  stops fl r rest = true ->
  lo <= length u ->
  length (u ++ v ++ rest) < fuel ->
  k (St (prev_after p u) (v ++ rest) cs) = Some x ->
  (forall v1 v2, v = v1 ++ v2 -> v1 <> [] ->
     k (St (prev_after p (u ++ v1)) (v2 ++ rest) cs) = None) ->
  rep_go fl r true k fuel lo (St p (u ++ v ++ rest) cs) = Some x.
Proof.
  induction u as [|c u IH]; intros v rest p cs fuel lo Hall Hstop Hlo Hfuel Hk Hnone.
  - simpl in Hlo. assert (lo = 0) as -> by lia.
    destruct fuel as [|fuel]; [lia|]. simpl rep_go; simpl m_rest. simpl app in *.
    destruct v as [|c v].
    + simpl app. rewrite rep_go_atom_stop by done. done.
    + simpl in Hall. apply andb_true_iff in Hall as [Hc Hall].
      simpl app. rewrite rep_go_atom_step by done. simpl pred.
      rewrite rep_greedy_none; [done | done | done |].
      intros v1 v2 ->. rewrite <- (prev_after_cons p). by apply (Hnone (c :: v1) v2).
  - destruct fuel as [|fuel]; [lia|].
    simpl in Hall. apply andb_true_iff in Hall as [Hc Hall].
    simpl rep_go; simpl m_rest. simpl app. rewrite rep_go_atom_step by done.
    rewrite (IH v rest (Some c) cs fuel (pred lo)); try done.
    + by destruct lo.
    + simpl in Hlo. lia.
    + simpl in Hfuel. lia.
    + by rewrite <- (prev_after_cons p).
    + intros v1 v2 E Hne. rewrite <- (prev_after_cons p). by apply Hnone.
Qed.

(** Lazy: the shortest prefix the continuation accepts is taken. *)
Lemma rep_lazy_atom x : forall (u rest : str) p cs fuel lo,
  forallb (atom_mem fl r) u = true ->
  lo <= length u ->
  length (u ++ rest) < fuel ->
  k (St (prev_after p u) rest cs) = Some x ->
  (forall u1 u2, u = u1 ++ u2 -> u2 <> [] -> lo <= length u1 ->
     k (St (prev_after p u1) (u2 ++ rest) cs) = None) ->
  rep_go fl r false k fuel lo (St p (u ++ rest) cs) = Some x.
Proof.
  induction u as [|c u IH]; intros rest p cs fuel lo Hall Hlo Hfuel Hk Hnone.
  - simpl in Hlo. assert (lo = 0) as -> by lia.
    destruct fuel as [|fuel]; [lia|]. simpl rep_go; simpl m_rest. simpl app in *.
    rewrite prev_after_nil in Hk. by rewrite Hk.
  - destruct fuel as [|fuel]; [lia|].
    simpl in Hall. apply andb_true_iff in Hall as [Hc Hall].
    simpl rep_go; simpl m_rest. simpl app. rewrite rep_go_atom_step by done.
    assert (Hrec : rep_go fl r false k fuel (pred lo) (St (Some c) (u ++ rest) cs) = Some x).
    { apply IH; try done.
      - simpl in Hlo. lia.
      - simpl in Hfuel. lia.
      - by rewrite <- (prev_after_cons p).
      - intros u1 u2 E Hne Hl. rewrite <- (prev_after_cons p).
        apply (Hnone (c :: u1) u2); [by rewrite E | done | simpl; lia]. }
    destruct lo as [|lo]; [|done].
    pose proof (Hnone [] (c :: u) eq_refl) as Hn. simpl in Hn.
    rewrite prev_after_nil in Hn. rewrite Hn; [done | done | lia].
Qed.
End rep_atom.

(** *** What a match consumes *)

Lemma matches_consumes fl (r : regex) : forall st k st',
  matches fl r st k = Some st' ->
  exists st1, k st1 = Some st' /\ length (m_rest st1) + min_len r <= length (m_rest st).
Proof.
  induction r as [| c | neg items | | | | r1 IH1 r2 IH2 | r1 IH1 r2 IH2
                 | g lo r1 IH1 | r1 IH1 | n r1 IH1]; intros st k st'; simpl min_len.
  - simpl. intros H. exists st. split; [done|lia].
  - simpl. destruct (m_rest st) as [|x t] eqn:E; [done|].
    destruct (N.eqb x c); [|done]. intros H. eexists. split; [exact H|]. simpl. lia.
  - simpl. destruct (m_rest st) as [|x t] eqn:E; [done|].
    destruct (cls_mem neg items x); [|done]. intros H. eexists. split; [exact H|]. simpl. lia.
  - simpl. destruct (m_rest st) as [|x t] eqn:E; [done|].
    destruct (DOTALL fl || negb (N.eqb x NL)); [|done].
    intros H. eexists. split; [exact H|]. simpl. lia.
  - simpl. destruct (at_bol fl st); [|done]. intros H. exists st. split; [done|lia].
  - simpl. destruct (at_eol fl st); [|done]. intros H. exists st. split; [done|lia].
  - rewrite matches_cat. intros H.
    apply IH1 in H as (st1 & H & Hl1). apply IH2 in H as (st2 & H & Hl2).
    exists st2. split; [done|lia].
  - rewrite matches_alt. intros H.
    destruct (matches fl r1 st k) eqn:E1; simpl in H.
    + inversion H; subst. apply IH1 in E1 as (st1 & H1 & Hl). exists st1. split; [done|lia].
    + apply IH2 in H as (st1 & H1 & Hl). exists st1. split; [done|lia].
  - rewrite matches_rep. generalize (S (length (m_rest st))) as fuel. intros fuel.
    revert lo st. induction fuel as [|fuel IHf]; intros lo st; [done|].
    simpl rep_go.
    assert (Hagain : forall l,
      matches fl r1 st
        (fun st1 => if length (m_rest st1) <? length (m_rest st)
                    then rep_go fl r1 g k fuel l st1 else None) = Some st' ->
      exists st1, k st1 = Some st' /\
        length (m_rest st1) + (l * min_len r1 + min_len r1) <= length (m_rest st)).
    { intros l H. apply IH1 in H as (sta & H & Hl).
      destruct (length (m_rest sta) <? length (m_rest st)); [|done].
      apply IHf in H as (st1 & H & Hl1). exists st1. split; [done|lia]. }
    destruct lo as [|lo].
    + destruct g.
      * destruct (matches fl r1 st _) eqn:E; simpl.
        -- intros H. inversion H; subst. apply (Hagain 0) in E as (st1 & H1 & Hl).
           exists st1. split; [done|simpl; lia].
        -- intros H. exists st. split; [done|simpl; lia].
      * destruct (k st) eqn:E.
        -- intros H. inversion H; subst. exists st. split; [done|simpl; lia].
        -- intros H. apply (Hagain 0) in H as (st1 & H1 & Hl).
           exists st1. split; [done|simpl; lia].
    + intros H. apply (Hagain lo) in H as (st1 & H1 & Hl).
      exists st1. split; [done|simpl; lia].
  - rewrite matches_opt. intros H.
    destruct (matches fl r1 st k) eqn:E1; simpl in H.
    + inversion H; subst. apply IH1 in E1 as (st1 & H1 & Hl). exists st1. split; [done|lia].
    + exists st. split; [done|lia].
  - rewrite matches_grp. intros H. apply IH1 in H as (st1 & H & Hl).
    eexists. split; [exact H|]. simpl. lia.
Qed.

Lemma match_at_consumes fl r p s n mo :
  match_at fl r p s = Some (n, mo) -> min_len r <= n <= length s.
Proof.
  unfold match_at. destruct (matches fl r _ Some) as [st|] eqn:E; [|done].
  intros H. inversion H; subst. apply matches_consumes in E as (st1 & H1 & Hl).
  inversion H1; subst. simpl in Hl. lia.
Qed.

(** Every pattern the script substitutes or searches reads at least one
    character, so [sub_go] never meets an empty match. *)
Lemma sub_patterns_consume :
  Forall (fun r => 1 <= min_len r)
    [re_header "#"; re_header "##"; re_header "###"; re_header "####";
     re_code_block; re_inline_code; re_bold; re_italic; re_link; re_hr;
     re_bullet; re_items; re_numbered; re_table; emoji_pattern; re_h1; re_tag].
Proof.
  repeat constructor; vm_compute; lia.
Qed.

(** *** [re.sub] and [re.search] *)

Lemma match_at_intro fl r p (w s : str) p' cs :
  matches fl r (St p (w ++ s) []) Some = Some (St p' s cs) ->
  match_at fl r p (w ++ s) = Some (length w, {| group0 := w; mo_caps := cs |}).
Proof.
  unfold match_at. intros ->. simpl.
  rewrite length_app, Nat.add_sub. by rewrite take_app_length.
Qed.

Lemma match_at_cannot_start fl r p s :
  can_start fl r p s = false -> match_at fl r p s = None.
Proof.
  intros H. unfold match_at. by rewrite can_start_sound.
Qed.

Lemma sub_go_skip fl r f (w : str) : forall p s,
  sub_go fl r f (length w) p (w ++ s) = sub_go fl r f 0 (prev_after p w) s.
Proof.
  induction w as [|c w IH]; intros p s; [done|].
  simpl. rewrite IH. by rewrite prev_after_cons.
Qed.

(** Where the pattern matches [w], the replacement is written and the scan
    goes on behind [w]. *)
Lemma sub_go_match fl r f p (w s : str) mo :
  w <> [] ->
  match_at fl r p (w ++ s) = Some (length w, mo) ->
  sub_go fl r f 0 p (w ++ s) = f mo ++ sub_go fl r f 0 (prev_after p w) s.
Proof.
  intros Hw H. destruct w as [|c w]; [done|].
  simpl. simpl in H. rewrite H. rewrite sub_go_skip. by rewrite prev_after_cons.
Qed.

(** Text in which the pattern does not match is copied. *)
Lemma sub_go_unmatched fl r f (pre : str) : forall p s,
  unmatched fl r p pre s ->
  sub_go fl r f 0 p (pre ++ s) = pre ++ sub_go fl r f 0 (prev_after p pre) s.
Proof.
  induction pre as [|c pre IH]; intros p s; [done|].
  intros [H1 H2]. simpl in *. rewrite H1. rewrite IH by done.
  by rewrite prev_after_cons.
Qed.

Lemma sub_go_end fl r f p :
  match_at fl r p [] = None -> sub_go fl r f 0 p [] = [].
Proof. simpl. by intros ->. Qed.

Lemma search_go_unmatched fl r (pre : str) : forall p s,
  unmatched fl r p pre s ->
  search_go fl r p (pre ++ s) = search_go fl r (prev_after p pre) s.
Proof.
  induction pre as [|c pre IH]; intros p s; [done|].
  intros [H1 H2]. simpl app. 
  change (search_go fl r p (c :: pre ++ s))
    with (match match_at fl r p (c :: pre ++ s) with
          | Some (_, mo) => Some mo
          | None => search_go fl r (Some c) (pre ++ s)
          end).
  simpl in H1. rewrite H1. rewrite IH by done. by rewrite prev_after_cons.
Qed.

Lemma quiet_to_unmatched fl r (pre : str) : forall p s,
  quiet_to fl r p pre s = true -> unmatched fl r p pre s.
Proof.
  induction pre as [|c pre IH]; intros p s; [done|].
  simpl. intros [H1 H2]%andb_true_iff. apply negb_true_iff in H1.
  split; [by apply match_at_cannot_start|by apply IH].
Qed.

Lemma quiet_quiet_to fl r (s : str) : forall p,
  quiet fl r p s = true -> quiet_to fl r p s [] = true.
Proof.
  induction s as [|c s IH]; intros p; [done|].
  simpl. rewrite app_nil_r. intros [H1 H2]%andb_true_iff. rewrite H1. simpl. by apply IH.
Qed.

Lemma quiet_end fl r (s : str) : forall p,
  quiet fl r p s = true -> can_start fl r (prev_after p s) [] = false.
Proof.
  induction s as [|c s IH]; intros p.
  - simpl. rewrite andb_true_r. by intros ?%negb_true_iff.
  - simpl. intros [H1 H2]%andb_true_iff. rewrite prev_after_cons. by apply IH.
Qed.

(** A pattern that can start nowhere in [s] leaves [s] as it is. *)
Lemma sub_go_quiet fl r f p (s : str) :
  quiet fl r p s = true -> sub_go fl r f 0 p s = s.
Proof.
  intros H. rewrite <- (app_nil_r s) at 1.
  rewrite sub_go_unmatched by (by apply quiet_to_unmatched, quiet_quiet_to).
  rewrite sub_go_end; [by rewrite app_nil_r|].
  by apply match_at_cannot_start, quiet_end.
Qed.

Lemma search_go_quiet fl r p (s : str) :
  quiet fl r p s = true -> search_go fl r p s = None.
Proof.
  intros H. rewrite <- (app_nil_r s).
  rewrite search_go_unmatched by (by apply quiet_to_unmatched, quiet_quiet_to).
  simpl. rewrite match_at_cannot_start; [done|]. by apply quiet_end.
Qed.

Lemma re_sub_ok fl r tpl s :
  template_ok r tpl = true -> re_sub fl r tpl s = Ok (re_sub_fn fl r (expand tpl) s).
Proof. unfold re_sub. by intros ->. Qed.

(** ** The converter never raises *)

Lemma convert_passes (md : str) :
  convert_markdown_to_html md =
  (h <- pass_h1 md ;; h <- pass_h2 h ;; h <- pass_h3 h ;; h <- pass_h4 h ;;
   h <- pass_code_block h ;; h <- pass_inline_code h ;; h <- pass_bold h ;;
   h <- pass_italic h ;; h <- pass_link h ;; h <- pass_hr h ;; h <- pass_bullet h ;;
   h <- pass_items h ;; h <- pass_numbered h ;;
   pass_emoji (wrap_paragraphs (pass_table h))).
Proof. done. Qed.

Lemma convert_total (md : str) : exists html, convert_markdown_to_html md = Ok html.
Proof.
  unfold convert_markdown_to_html.
  repeat (rewrite re_sub_ok by done; cbn [bind]).
  by eexists.
Qed.

Lemma page_title_total (html : str) : exists title, page_title html = Ok title.
Proof.
  unfold page_title. rewrite re_sub_ok by done. by eexists.
Qed.

(** ** The page template *)

Lemma parts_ok_none : parts_ok no_active_flags.
Proof. intros title content. vm_compute. reflexivity. Qed.

Lemma parts_ok_active (key : string) :
  In key ["active_readme"; "active_quick"; "active_api"; "active_complete"; "active_tier1";
          "active_tier2"; "active_tier3"; "active_achievement"; "active_index"]%string ->
  parts_ok (set_active key no_active_flags).
Proof.
  intros H. repeat (destruct H as [<-|H]; [intros title content; vm_compute; reflexivity|]).
  destruct H.
Qed.

Lemma fill_template_parts (title content md_file : str) :
  fill_template title content (active_flags_of md_file)
  = Ok (fst (fst (page_parts (active_flags_of md_file))) ++ title
        ++ snd (fst (page_parts (active_flags_of md_file))) ++ content
        ++ snd (page_parts (active_flags_of md_file))).
Proof.
  assert (parts_ok (active_flags_of md_file)) as H; [|apply H].
  unfold active_flags_of.
  repeat (match goal with |- context [str_eqb ?a ?b] => destruct (str_eqb a b) end;
          [apply parts_ok_active; simpl; tauto|]).
  apply parts_ok_none.
Qed.

Lemma bind_Ok {A B} (a : A) (f : A -> result B) : bind (Ok a) f = f a.
Proof. done. Qed.

(** A page is the fix-up of the filled template. *)
Lemma render_page_eq (md_file markdown html title : str) :
  convert_markdown_to_html markdown = Ok html ->
  page_title html = Ok title ->
  render_page md_file markdown
  = Ok (fix_md_links
          (fst (fst (page_parts (active_flags_of md_file))) ++ title
           ++ snd (fst (page_parts (active_flags_of md_file))) ++ html
           ++ snd (page_parts (active_flags_of md_file)))).
Proof.
  intros Hc Ht. unfold render_page.
  rewrite Hc, bind_Ok, Ht, bind_Ok, fill_template_parts, bind_Ok. reflexivity.
Qed.

Lemma render_page_total (md_file markdown : str) :
  exists page, render_page md_file markdown = Ok page.
Proof.
  destruct (convert_total markdown) as [html Hc].
  destruct (page_title_total html) as [title Ht].
  eexists. by apply render_page_eq.
Qed.

(** ** The fix-up of [.md] links *)

Lemma fix_md_links_occurrence (a b : str) :
  fix_md_links (a ++ lit ".md" ++ Q ++ b)
  = fix_md_links a ++ lit ".html" ++ Q ++ fix_md_links b.
Proof.
  unfold fix_md_links, replace.
  pose proof (replace_go_occurrence (lit ".md" ++ Q) (lit ".html" ++ Q)) as H.
  specialize (H eq_refl). specialize (H ltac:(done) a b 0 ltac:(lia)).
  rewrite <- !app_assoc in H. exact H.
Qed.

Lemma fix_md_links_none (a : str) :
  contains a (lit ".md" ++ Q) = false -> fix_md_links a = a.
Proof. apply replace_go_none. Qed.

(** An [href] attribute whose target holds no quote is out of reach of the
    fix-up of the text before it. *)
Lemma fix_md_links_href (X foo : str) :
  forallb (fun c => negb (N.eqb c QUOTE)) foo = true ->
  fix_md_links (X ++ lit "href=" ++ Q ++ foo)
  = fix_md_links X ++ lit "href=" ++ Q ++ foo.
Proof.
  intros Hfoo. unfold fix_md_links, replace.
  apply replace_go_tail; [done|lia|].
  intros i Hi.
  destruct (decide (i + length (lit ".md" ++ Q) <= length X)) as [|Hover]; [done|].
  exfalso. change (length (lit ".md" ++ Q)) with 4 in Hover.
  assert (H3 : (X ++ lit "href=" ++ Q ++ foo) !! (i + 3) = Some QUOTE).
  { rewrite <- lookup_drop. by apply (startswith_lookup _ _ _ _ Hi). }
  assert (H2 : (X ++ lit "href=" ++ Q ++ foo) !! (i + 2) = Some 100%N).
  { rewrite <- lookup_drop. by apply (startswith_lookup _ _ _ _ Hi). }
  rewrite lookup_app_r in H3 by lia.
  change (lit "href=" ++ Q ++ foo) with ([104; 114; 101; 102; 61; 34]%N ++ foo) in *.
  destruct (decide (i + 3 - length X < 6)) as [Hlt|Hge].
  - assert (i + 3 - length X = 5) as Hj.
    { remember (i + 3 - length X) as j.
      do 6 (destruct j as [|j]; [try discriminate H3; try done|]). lia. }
    rewrite lookup_app_r in H2 by lia.
    replace (i + 2 - length X) with 4 in H2 by lia. discriminate H2.
  - rewrite lookup_app_r in H3 by (simpl; lia).
    apply list_elem_of_lookup_2 in H3.
    rewrite forallb_forall in Hfoo. apply list_elem_of_In in H3.
    apply Hfoo in H3. by rewrite N.eqb_refl in H3.
Qed.

(** ** The orchestrator *)

Lemma md_paths_apart :
  forallb (fun g => forallb (fun f => negb (str_eqb (page_path g) f)) md_files) md_files = true.
Proof. by vm_compute. Qed.

Lemma md_paths_injective :
  forallb (fun g => forallb (fun f =>
      implb (str_eqb (page_path g) (page_path f)) (str_eqb g f)) md_files) md_files = true.
Proof. by vm_compute. Qed.

Lemma md_paths_not_index :
  forallb (fun g => negb (str_eqb (page_path g) (output_dir ++ lit "/index.html"))) md_files
  = true.
Proof. by vm_compute. Qed.

Lemma md_files_NoDup : List.NoDup md_files.
Proof.
  unfold md_files.
  repeat (apply List.NoDup_cons; [simpl; intuition discriminate|]).
  apply List.NoDup_nil.
Qed.

Lemma str_eqb_true (a b : str) : str_eqb a b = true <-> a = b.
Proof. unfold str_eqb. apply bool_decide_eq_true. Qed.

Lemma str_eqb_false (a b : str) : str_eqb a b = false <-> a <> b.
Proof. unfold str_eqb. apply bool_decide_eq_false. Qed.

Lemma md_names_not_empty :
  forallb (fun g => negb (is_empty (path_name g))) md_files = true.
Proof. by vm_compute. Qed.

Lemma html_path_named (md_file : str) :
  is_empty (path_name md_file) = false -> html_path md_file = Ok (page_path md_file).
Proof. intros H. unfold html_path. cbv zeta. by rewrite H. Qed.

Lemma html_path_configured (g : str) :
  In g md_files -> html_path g = Ok (page_path g).
Proof.
  intros Hg. apply html_path_named. pose proof md_names_not_empty as H.
  rewrite forallb_forall in H. specialize (H g Hg). by apply negb_true_iff in H.
Qed.

Lemma page_path_not_input (g f : str) :
  In g md_files -> In f md_files -> page_path g <> f.
Proof.
  intros Hg Hf. pose proof md_paths_apart as H.
  rewrite forallb_forall in H. specialize (H g Hg).
  rewrite forallb_forall in H. specialize (H f Hf).
  by apply negb_true_iff, str_eqb_false in H.
Qed.

Lemma page_path_inj (g f : str) :
  In g md_files -> In f md_files -> page_path g = page_path f -> g = f.
Proof.
  intros Hg Hf E. pose proof md_paths_injective as H.
  rewrite forallb_forall in H. specialize (H g Hg).
  rewrite forallb_forall in H. specialize (H f Hf).
  apply str_eqb_true in E. rewrite E in H. by apply str_eqb_true in H.
Qed.

Lemma page_path_not_index (g : str) :
  In g md_files -> page_path g <> output_dir ++ lit "/index.html".
Proof.
  intros Hg. pose proof md_paths_not_index as H.
  rewrite forallb_forall in H. specialize (H g Hg).
  by apply negb_true_iff, str_eqb_false in H.
Qed.

Lemma file_exists_false (w : world) (f : str) :
  file_exists w f = false <-> files w !! f = None.
Proof. unfold file_exists. by destruct (files w !! f). Qed.

Lemma file_exists_true (w : world) (f : str) :
  file_exists w f = true <-> exists content, files w !! f = Some content.
Proof.
  unfold file_exists. destruct (files w !! f); split; try done.
  - by eexists.
  - by intros [? ?].
Qed.

Lemma convert_files_cons (md_file : str) (rest : list str) (converted : nat) (w : world) :
  convert_files (md_file :: rest) converted w =
  match files w !! md_file with
  | None => convert_files rest converted (print (warn_line md_file) [NL] w)
  | Some markdown_content =>
      let w := print (lit "[*] Converting " ++ md_file ++ lit "...") (lit " ") w in
      final_html <- render_page md_file markdown_content ;;
      path <- html_path md_file ;;
      let w := write_file path final_html w in
      let w := print (lit "[OK] -> " ++ path) [NL] w in
      convert_files rest (converted + 1) w
  end.
Proof. reflexivity. Qed.

Lemma filter_cons_eq {A} (f : A -> bool) (x : A) (l : list A) :
  List.filter f (x :: l) = if f x then x :: List.filter f l else List.filter f l.
Proof. reflexivity. Qed.

Lemma files_print s e w : files (print s e w) = files w.
Proof. reflexivity. Qed.

Lemma console_print s e w : console (print s e w) = console w ++ [s ++ e].
Proof. reflexivity. Qed.

Lemma files_write p c w : files (write_file p c w) = <[p := c]> (files w).
Proof. reflexivity. Qed.

Lemma console_write p c w : console (write_file p c w) = console w.
Proof. reflexivity. Qed.

(** The loop over the configured files: a missing file adds a warning and
    nothing else; a present file adds its page and counts. *)
Lemma convert_files_spec (todo : list str) : forall (converted : nat) (w : world),
  (forall g, In g todo -> In g md_files) ->
  List.NoDup todo ->
  exists w' more,
    convert_files todo converted w
      = Ok (converted + length (List.filter (file_exists w) todo), w') /\
    console w' = console w ++ more /\
    (forall f, In f todo -> files w !! f = None -> In (warn_line f ++ [NL]) more) /\
    (forall path, (forall g, In g todo -> file_exists w g = true -> path <> page_path g) ->
       files w' !! path = files w !! path) /\
    (forall g content, In g todo -> files w !! g = Some content ->
       exists page, render_page g content = Ok page /\ files w' !! page_path g = Some page).
Proof.
  induction todo as [|md_file rest IH]; intros converted w Hsub Hnd.
  - exists w, []. simpl. rewrite Nat.add_0_r, app_nil_r. repeat split; try done.
  - apply List.NoDup_cons_iff in Hnd as [Hnotin Hnd].
    assert (Hsub' : forall g, In g rest -> In g md_files) by (intros g Hg; apply Hsub; by right).
    assert (Hmd : In md_file md_files) by (apply Hsub; by left).
    rewrite convert_files_cons, filter_cons_eq. unfold file_exists at 1.
    destruct (files w !! md_file) as [markdown_content|] eqn:E.
    + destruct (render_page_total md_file markdown_content) as [page Hpage].
      cbv zeta. rewrite Hpage, bind_Ok, (html_path_configured _ Hmd), bind_Ok.
      set (w3 := print _ _ (write_file _ _ (print _ _ w))).
      assert (Hw3 : forall path, path <> page_path md_file ->
                files w3 !! path = files w !! path).
      { intros path Hne. unfold w3.
        rewrite files_print, files_write, files_print. by rewrite lookup_insert_ne. }
      assert (Hex : forall f, In f rest -> file_exists w3 f = file_exists w f).
      { intros f Hf. unfold file_exists. rewrite Hw3; [done|].
        intros ->. eapply page_path_not_input; [apply Hmd | | reflexivity]. by apply Hsub'. }
      destruct (IH (converted + 1) w3 Hsub' Hnd) as (w' & more & Hrun & Hcon & Hwarn & Hkeep & Hpages).
      exists w', ([lit "[*] Converting " ++ md_file ++ lit "..." ++ lit " "]
                  ++ [(lit "[OK] -> " ++ page_path md_file) ++ [NL]] ++ more).
      split; [|split; [|split; [|split]]].
      * rewrite Hrun. rewrite (List.filter_ext_in _ _ _ Hex).
        cbn [length]. do 2 f_equal. lia.
      * rewrite Hcon. unfold w3.
        rewrite console_print, console_write, console_print. by rewrite <- !app_assoc.
      * intros f [<-|Hf] Hnone; [congruence|].
        apply in_or_app. right. apply in_or_app. right.
        apply Hwarn; [done|]. rewrite Hw3; [done|].
        intros ->. eapply page_path_not_input; [apply Hmd | | reflexivity]. by apply Hsub'.
      * intros path Hpath. rewrite Hkeep.
        -- apply Hw3. apply Hpath; [by left|]. apply file_exists_true. by eexists.
        -- intros g Hg Hx. apply Hpath; [by right|]. by rewrite <- Hex.
      * intros g content [<-|Hg] Hc.
        -- rewrite E in Hc. inversion Hc; subst. exists page. split; [done|].
           rewrite Hkeep.
           ++ unfold w3. rewrite files_print, files_write. by rewrite lookup_insert_eq.
           ++ intros g Hg _ Heq. apply page_path_inj in Heq; [|done|by apply Hsub'].
              by subst.
        -- apply Hpages; [done|]. rewrite Hw3; [done|].
           intros ->. eapply page_path_not_input; [apply Hmd | | reflexivity]. by apply Hsub'.
    + set (w1 := print _ _ w).
      destruct (IH converted w1 Hsub' Hnd) as (w' & more & Hrun & Hcon & Hwarn & Hkeep & Hpages).
      exists w', ([warn_line md_file ++ [NL]] ++ more).
      split; [|split; [|split; [|split]]].
      * rewrite Hrun. done.
      * rewrite Hcon. unfold w1. rewrite console_print. by rewrite <- app_assoc.
      * intros f [<-|Hf] Hnone; [by left|]. right. by apply Hwarn.
      * intros path Hpath. rewrite Hkeep; [done|].
        intros g Hg Hx. apply Hpath; [by right|done].
      * intros g content [<-|Hg] Hc; [congruence|]. by apply Hpages.
Qed.

Lemma filter_length_lt {A} (f : A -> bool) (x : A) (l : list A) :
  In x l -> f x = false -> length (List.filter f l) < length l.
Proof.
  induction l as [|y l IH]; [done|].
  intros [->|Hx] Hf; simpl.
  - rewrite Hf. pose proof (List.filter_length_le f l). lia.
  - specialize (IH Hx Hf). destruct (f y); simpl; lia.
Qed.

Lemma lookup_index_ne (m : gmap (list N) (list N)) (v g : str) :
  In g md_files ->
  (<[output_dir ++ lit "/index.html" := v]> m) !! page_path g = m !! page_path g.
Proof.
  intros Hg. apply lookup_insert_ne. intros E. by apply (page_path_not_index g).
Qed.

Lemma generate_html_docs_eq (abs_dir : str) (w : world) :
  generate_html_docs abs_dir w =
  (let w := print (lit "[*] FP-ASM HTML Documentation Generator") [NL] w in
   let w := print rule_line [NL] w in
   let w := print (lit "[OK] Created output directory: " ++ output_dir) [NL] w in
   done <- convert_files md_files 0 w ;;
   let converted := fst done in
   let w := snd done in
   let w := print (lit "[*] Creating index.html...") (lit " ") w in
   index_html <- fill_template (lit "Home") index_content
                   (set_active "active_index" no_active_flags) ;;
   let w := write_file (output_dir ++ lit "/index.html") index_html w in
   let w := print (lit "[OK]") [NL] w in
   let w := print ([NL] ++ rule_line) [NL] w in
   let w := print (success_line (converted + 1)) [NL] w in
   let w := print (lit "[DIR] Output directory: " ++ abs_dir) [NL] w in
   let w := print ([NL] ++ lit "[BROWSER] Open: file:///" ++ abs_dir ++ lit "/index.html")
              [NL] w in
   let w := print rule_line [NL] w in
   Ok (converted, w)).
Proof. reflexivity. Qed.

Lemma str_of_nat_digit (n : nat) :
  n < 10 -> str_of_nat n = [N.of_nat (48 + n)].
Proof.
  intros Hn. do 10 (destruct n as [|n]; [reflexivity|]). lia.
Qed.

(** C5: a configured markdown file that does not exist is skipped with a
    warning and the run goes on to its end.  The console gets, in this
    order, the line [[WARN] Skipping <file> (not found)] and, fourth from
    the end, the report [[SUCCESS] Generated <k> HTML pages!], where the
    digit [k] is one more than the number of configured files that exist:
    one page per existing file plus the landing page, so at most 8 and the
    missing file is not counted.  The run writes the page of every
    configured file that does exist and leaves the path of the page of the
    missing file as it was.  (Character 48 is the digit 0.) *)
Theorem C5_missing_file_is_skipped (abs_dir : str) (w : world) (md_file : str) :
  In md_file md_files ->
  files w !! md_file = None ->
  exists (converted : nat) (w' : world) (before between : list str),
    generate_html_docs abs_dir w = Ok (converted, w') /\
    console w' =
      console w ++ before
      ++ [(lit "[WARN] Skipping " ++ md_file ++ lit " (not found)") ++ [NL]]
      ++ between
      ++ [(lit "[SUCCESS] Generated " ++ [N.of_nat (48 + (converted + 1))]
            ++ lit " HTML pages!") ++ [NL];
          (lit "[DIR] Output directory: " ++ abs_dir) ++ [NL];
          ([NL] ++ lit "[BROWSER] Open: file:///" ++ abs_dir ++ lit "/index.html") ++ [NL];
          concat (repeat (lit "=") 60) ++ [NL]] /\
    converted = length (List.filter (fun f => bool_decide (is_Some (files w !! f))) md_files) /\
    converted + 1 <= 8 /\
    (forall path, html_path md_file = Ok path -> files w' !! path = files w !! path) /\
    (forall g content, In g md_files -> files w !! g = Some content ->
       exists page path,
         render_page g content = Ok page /\ html_path g = Ok path /\
         files w' !! path = Some page).
Proof.
  intros Hin Hmissing. rewrite generate_html_docs_eq. cbv zeta.
  set (w0 := print _ _ (print _ _ (print _ _ w))).
  assert (Hfiles0 : files w0 = files w) by reflexivity.
  assert (Hex0 : forall f, file_exists w0 f = file_exists w f) by reflexivity.
  destruct (convert_files_spec md_files 0 w0 (fun g H => H) md_files_NoDup)
    as (w1 & more & Hrun & Hcon & Hwarn & Hkeep & Hpages).
  rewrite Hrun, bind_Ok. cbn [fst snd].
  rewrite (parts_ok_active "active_index") by (simpl; tauto). rewrite bind_Ok.
  rewrite (List.filter_ext _ _ Hex0). rewrite Nat.add_0_l.
  assert (Hlt : length (List.filter (file_exists w) md_files) < length md_files).
  { apply (filter_length_lt _ md_file); [done|]. by apply file_exists_false. }
  change (length md_files) with 8 in Hlt.
  assert (Hw : In (warn_line md_file ++ [NL]) more).
  { apply Hwarn; [done|]. by rewrite Hfiles0. }
  apply in_split in Hw as (m1 & m2 & Hmore).
  pose proof (fun v g => lookup_index_ne (files w1) v g) as Hnot.
  eexists _, _,
    ([lit "[*] FP-ASM HTML Documentation Generator" ++ [NL]; rule_line ++ [NL];
      (lit "[OK] Created output directory: " ++ output_dir) ++ [NL]] ++ m1),
    (m2 ++ [lit "[*] Creating index.html..." ++ lit " "; lit "[OK]" ++ [NL];
            ([NL] ++ rule_line) ++ [NL]]).
  split; [reflexivity|].
  repeat rewrite ?console_print, ?console_write, ?files_print, ?files_write.
  split; [|split; [|split; [|split]]].
  - rewrite Hcon, Hmore. unfold w0. rewrite !console_print.
    unfold success_line, warn_line. rewrite str_of_nat_digit by lia.
    fold rule_line. rewrite <- !app_assoc. reflexivity.
  - f_equal. apply List.filter_ext. intros f. unfold file_exists.
    destruct (files w !! f); [by rewrite bool_decide_eq_true_2|].
    rewrite bool_decide_eq_false_2; [done|]. by intros [? ?].
  - lia.
  - intros path Hpath. rewrite (html_path_configured _ Hin) in Hpath.
    assert (path = page_path md_file) as -> by congruence.
    rewrite Hnot by done. rewrite Hkeep; [by rewrite Hfiles0|].
    intros g Hg Hx E. apply page_path_inj in E; [|done|done]. subst g.
    rewrite Hex0 in Hx. apply file_exists_true in Hx as [c Hc]. congruence.
  - intros g content Hg Hc.
    destruct (Hpages g content Hg) as (page & Hp & Hf); [by rewrite Hfiles0|].
    exists page, (page_path g). split; [done|]. split; [by apply html_path_configured|].
    by rewrite Hnot.
Qed.

Lemma C5_missing_file_is_skipped_witness :
  In (lit "QUICK_START.md") md_files /\
  files example_world !! lit "QUICK_START.md" = None /\
  exists (converted : nat) (w' : world) (before between : list str),
    generate_html_docs (lit "/srv/docs_html") example_world = Ok (converted, w') /\
    console w' =
      console example_world ++ before
      ++ [(lit "[WARN] Skipping " ++ lit "QUICK_START.md" ++ lit " (not found)") ++ [NL]]
      ++ between
      ++ [(lit "[SUCCESS] Generated " ++ [N.of_nat (48 + (converted + 1))]
            ++ lit " HTML pages!") ++ [NL];
          (lit "[DIR] Output directory: " ++ lit "/srv/docs_html") ++ [NL];
          ([NL] ++ lit "[BROWSER] Open: file:///" ++ lit "/srv/docs_html"
             ++ lit "/index.html") ++ [NL];
          concat (repeat (lit "=") 60) ++ [NL]] /\
    converted
    = length (List.filter (fun f => bool_decide (is_Some (files example_world !! f)))
                md_files) /\
    converted + 1 <= 8 /\
    (forall path, html_path (lit "QUICK_START.md") = Ok path ->
       files w' !! path = files example_world !! path) /\
    (forall g content, In g md_files -> files example_world !! g = Some content ->
       exists page path,
         render_page g content = Ok page /\ html_path g = Ok path /\
         files w' !! path = Some page).
Proof.
  assert (H1 : In (lit "QUICK_START.md") md_files) by (right; left; reflexivity).
  assert (H2 : files example_world !! lit "QUICK_START.md" = None) by (vm_compute; reflexivity).
  split; [exact H1|]. split; [exact H2|].
  exact (C5_missing_file_is_skipped (lit "/srv/docs_html") example_world
           (lit "QUICK_START.md") H1 H2).
Defined.

(** With one file present, two pages are reported. *)
Example generate_example_world_count :
  match generate_html_docs (lit "/srv/docs_html") example_world with
  | Ok (converted, w') =>
      converted = 1 /\ last (console w') = Some (rule_line ++ [NL]) /\
      In (lit "[SUCCESS] Generated 2 HTML pages!" ++ [NL]) (console w') /\
      In (lit "[WARN] Skipping QUICK_START.md (not found)" ++ [NL]) (console w')
  | Raise _ => False
  end.
Proof. vm_compute. repeat split; tauto. Qed.

(** ** End-to-end scenario 1 *)

(** C1: for the input ["# Title\n\nHello **world**."] the converter returns
    the heading markup, but the line after it is left without paragraph
    markup: the heading line sets [in_block], nothing on that line or after
    it clears the flag, and the paragraph branch asks for [not in_block]. *)
Theorem C1_text_after_heading_not_wrapped :
  convert_markdown_to_html (lit "# Title" ++ [NL; NL] ++ lit "Hello **world**.")
  = Ok (lit "<h1>Title</h1>" ++ [NL; NL] ++ lit "Hello <strong>world</strong>.").
Proof. vm_compute. reflexivity. Qed.

(** The same text without the heading is wrapped. *)
Example paragraph_without_heading :
  convert_markdown_to_html (lit "Hello **world**.")
  = Ok (lit "<p>Hello <strong>world</strong>.</p>").
Proof. vm_compute. reflexivity. Qed.

(** ** The fix-up on pages *)

(** C10: the page that is written is the filled template with every
    occurrence of [.md"] replaced by [.html"], wherever it stands: the
    replacement distributes over any occurrence in any text, and a text
    without occurrence is left as it is. *)
Theorem C10_md_fixup_is_global (md_file markdown : str) :
  exists html title doc,
    convert_markdown_to_html markdown = Ok html /\
    page_title html = Ok title /\
    fill_template title html (active_flags_of md_file) = Ok doc /\
    render_page md_file markdown = Ok (fix_md_links doc) /\
    (forall a b : str,
       fix_md_links (a ++ lit ".md" ++ Q ++ b)
       = fix_md_links a ++ lit ".html" ++ Q ++ fix_md_links b) /\
    (forall a : str, contains a (lit ".md" ++ Q) = false -> fix_md_links a = a).
Proof.
  destruct (convert_total markdown) as [html Hc].
  destruct (page_title_total html) as [title Ht].
  exists html, title. eexists. split; [done|]. split; [done|].
  split; [apply fill_template_parts|].
  split; [by apply render_page_eq|].
  split; [apply fix_md_links_occurrence|apply fix_md_links_none].
Qed.

(** The fix-up reaches a code span and the title as well as a link. *)
Example md_fixup_in_code_span :
  match render_page (lit "README.md")
          (lit "# See " ++ Q ++ lit "a.md" ++ Q ++ [NL] ++ lit "`b.md" ++ Q ++ lit "`") with
  | Ok page =>
      contains page (lit "<title>See " ++ Q ++ lit "a.html" ++ Q ++ lit " - FP-ASM Library</title>")
      && contains page (lit "<code>b.html" ++ Q ++ lit "</code>")
  | Raise _ => false
  end = true.
Proof. vm_compute. reflexivity. Qed.

(** C6: a link target [href="Foo.md"] of the fragment stands in the page as
    [href="Foo.html"]; the text before and after it is the fix-up of the
    template and fragment text around it. *)
Theorem C6_md_href_becomes_html (md_file markdown html a foo b : str) :
  convert_markdown_to_html markdown = Ok html ->
  html = a ++ lit "href=" ++ Q ++ foo ++ lit ".md" ++ Q ++ b ->
  forallb (fun c => negb (N.eqb c QUOTE)) foo = true ->
  exists head title nav foot,
    fill_template title html (active_flags_of md_file)
      = Ok (head ++ title ++ nav ++ html ++ foot) /\
    render_page md_file markdown
    = Ok (fix_md_links (head ++ title ++ nav ++ a)
          ++ lit "href=" ++ Q ++ foo ++ lit ".html" ++ Q
          ++ fix_md_links (b ++ foot)).
Proof.
  intros Hc Hhtml Hfoo.
  destruct (page_title_total html) as [title Ht].
  eexists _, title, _, _. split; [apply fill_template_parts|].
  rewrite (render_page_eq _ _ _ _ Hc Ht). f_equal.
  set (head := fst (fst _)). set (nav := snd (fst _)). set (foot := snd _).
  rewrite Hhtml.
  replace (head ++ title ++ nav ++ (a ++ lit "href=" ++ Q ++ foo ++ lit ".md" ++ Q ++ b) ++ foot)
    with (((head ++ title ++ nav ++ a) ++ lit "href=" ++ Q ++ foo)
            ++ lit ".md" ++ Q ++ (b ++ foot)).
  - rewrite fix_md_links_occurrence, fix_md_links_href by done.
    by rewrite <- !app_assoc.
  - by rewrite <- !app_assoc.
Qed.

Lemma C6_md_href_becomes_html_witness :
  convert_markdown_to_html (lit "[API](API_REFERENCE.md)")
    = Ok (lit "<a " ++ lit "href=" ++ Q ++ lit "API_REFERENCE" ++ lit ".md" ++ Q
          ++ lit ">API</a>") /\
  exists head title nav foot,
    fill_template title
        (lit "<a " ++ lit "href=" ++ Q ++ lit "API_REFERENCE" ++ lit ".md" ++ Q
         ++ lit ">API</a>") (active_flags_of (lit "README.md"))
      = Ok (head ++ title ++ nav
            ++ (lit "<a " ++ lit "href=" ++ Q ++ lit "API_REFERENCE" ++ lit ".md" ++ Q
                ++ lit ">API</a>") ++ foot) /\
    render_page (lit "README.md") (lit "[API](API_REFERENCE.md)")
    = Ok (fix_md_links (head ++ title ++ nav ++ lit "<a ")
          ++ lit "href=" ++ Q ++ lit "API_REFERENCE" ++ lit ".html" ++ Q
          ++ fix_md_links (lit ">API</a>" ++ foot)).
Proof.
  assert (H1 : convert_markdown_to_html (lit "[API](API_REFERENCE.md)")
    = Ok (lit "<a " ++ lit "href=" ++ Q ++ lit "API_REFERENCE" ++ lit ".md" ++ Q
          ++ lit ">API</a>")) by (vm_compute; reflexivity).
  split; [exact H1|].
  exact (C6_md_href_becomes_html (lit "README.md") (lit "[API](API_REFERENCE.md)") _
           (lit "<a ") (lit "API_REFERENCE") (lit ">API</a>")
           H1 eq_refl eq_refl).
Defined.

(** ** Occurrences of a text that cannot overlap itself *)

Lemma startswith_inside (w post : str) (j : nat) :
  border_free w = true -> 0 < j < length w ->
  startswith (drop j w ++ post) w = false.
Proof.
  intros Hb Hj. destruct (startswith (drop j w ++ post) w) eqn:E; [|done].
  exfalso. pose proof (border_free_spec _ _ Hb Hj) as Hf.
  apply startswith_iff in E as [r E].
  assert (Hs : startswith w (drop j w) = true); [|congruence].
  apply startswith_iff. exists (drop (length w - j) w).
  apply (f_equal (take (length w - j))) in E.
  rewrite take_app_length' in E by (rewrite length_drop; lia).
  rewrite take_app_le in E by lia.
  rewrite E. by rewrite take_drop.
Qed.

(** Behind the last occurrence of [w] there is no further one. *)
Lemma no_later_occurrence (w post v1 v2 : str) :
  border_free w = true ->
  contains post w = false ->
  w ++ post = v1 ++ v2 -> v1 <> [] ->
  startswith v2 w = false.
Proof.
  intros Hb Hpost E Hv1.
  assert (Hv2 : v2 = drop (length v1) (w ++ post)).
  { rewrite E. by rewrite drop_app_length. }
  assert (0 < length v1) by (destruct v1; simpl; [done|lia]).
  destruct (decide (length v1 < length w)) as [Hlt|Hge].
  - rewrite Hv2, drop_app_le by lia. apply startswith_inside; [done|lia].
  - rewrite Hv2, drop_app_ge by lia. by apply contains_false_drop.
Qed.

(** Before the first occurrence of [w], a pattern that begins with [w]
    does not match. *)
Lemma unmatched_before_occurrence fl r (w : str) :
  (forall p s, startswith s w = false -> match_at fl r p s = None) ->
  border_free w = true -> w <> [] ->
  forall (pre : str) p v, contains pre w = false -> unmatched fl r p pre (w ++ v).
Proof.
  intros Hr Hb Hw pre. induction pre as [|c pre IH]; intros p v Hpre; [done|].
  simpl in Hpre. apply orb_false_iff in Hpre as [Hhere Hpre].
  split; [|by apply IH].
  apply Hr. destruct (decide (length w <= length (c :: pre))) as [Hl|Hl].
  - destruct (startswith ((c :: pre) ++ w ++ v) w) eqn:E; [|done].
    apply startswith_app_inv in E; [congruence|done].
  - apply startswith_straddle; [done|done|lia].
Qed.

Lemma sub_go_never fl r f (s : str) : forall p,
  (forall i p', match_at fl r p' (drop i s) = None) ->
  sub_go fl r f 0 p s = s.
Proof.
  induction s as [|c s IH]; intros p H.
  - pose proof (H 0 p) as H0. simpl in *. by rewrite H0.
  - simpl. pose proof (H 0 p) as H0. simpl in H0. rewrite H0.
    f_equal. apply IH. intros i p'. apply (H (S i) p').
Qed.

(** ** The list wrapping pass *)

Arguments lit : simpl never.

Lemma expand_wrap (a b : string) (n : nat) (mo : match_obj) :
  expand [t a; TRef n; t b] mo = lit a ++ group mo n ++ lit b.
Proof. unfold expand, t. cbn [map concat]. by rewrite app_nil_r. Qed.

Lemma dotall_any_all (s : str) : forallb (atom_mem re_DOTALL Any) s = true.
Proof. by induction s. Qed.

Lemma set_cap_take n p s cs p' s' cs' :
  set_cap n (St p s cs) (St p' s' cs')
  = St p' s' ((n, take (length s - length s') s) :: cs').
Proof. done. Qed.

Lemma items_needs_open p (s : str) :
  startswith s (lit "<li>") = false -> match_at re_DOTALL re_items p s = None.
Proof.
  intros H. unfold match_at, re_items.
  rewrite matches_grp, matches_cats_cons. by rewrite matches_text_fail.
Qed.

Lemma items_needs_close p (s : str) :
  contains s (lit "</li>") = false -> match_at re_DOTALL re_items p s = None.
Proof.
  intros H. destruct (startswith s (lit "<li>")) eqn:E; [|by apply items_needs_open].
  apply startswith_split in E. set (s' := drop _ s) in E. rewrite E.
  unfold match_at, re_items.
  rewrite matches_grp, matches_cats_cons, matches_text, matches_cats_cons.
  unfold star. rewrite matches_rep.
  rewrite <- (app_nil_r s') at 2.
  rewrite (rep_greedy_none re_DOTALL Any); try done.
  - apply dotall_any_all.
  - intros v1 v2 Hs'. rewrite matches_cats_cons, app_nil_r.
    apply matches_text_fail.
    assert (v2 = drop (length (lit "<li>") + length v1) s) as ->.
    { rewrite E, Hs'. rewrite <- drop_drop, drop_app_length. by rewrite drop_app_length. }
    by apply contains_false_drop.
Qed.

Lemma items_match p (mid post : str) :
  contains post (lit "</li>") = false ->
  match_at re_DOTALL re_items p (lit "<li>" ++ mid ++ lit "</li>" ++ post)
  = Some (length (lit "<li>" ++ mid ++ lit "</li>"),
          {| group0 := lit "<li>" ++ mid ++ lit "</li>";
             mo_caps := [(1, lit "<li>" ++ mid ++ lit "</li>")] |}).
Proof.
  intros Hpost.
  replace (lit "<li>" ++ mid ++ lit "</li>" ++ post)
    with ((lit "<li>" ++ mid ++ lit "</li>") ++ post) by (by rewrite <- !app_assoc).
  apply (match_at_intro _ _ _ _ _ (Some 62%N)).
  unfold re_items. rewrite matches_grp, matches_cats_cons.
  rewrite <- !app_assoc. rewrite matches_text, matches_cats_cons.
  unfold star. rewrite matches_rep.
  rewrite <- (app_nil_r (lit "</li>" ++ post)), <- app_assoc.
  erewrite (rep_greedy_atom re_DOTALL Any eq_refl _ _ mid (lit "</li>" ++ post) []).
  - reflexivity.
  - apply dotall_any_all.
  - done.
  - lia.
  - simpl. lia.
  - rewrite app_nil_r, matches_cats_cons, matches_text, matches_cats_nil.
    rewrite set_cap_take. do 2 f_equal.
    rewrite app_nil_r.
    replace (lit "<li>" ++ mid ++ lit "</li>" ++ post)
      with ((lit "<li>" ++ mid ++ lit "</li>") ++ post) by (by rewrite <- !app_assoc).
    by rewrite take_consumed.
  - intros v1 v2 Hv Hv1. rewrite app_nil_r, matches_cats_cons.
    apply matches_text_fail.
    by apply (no_later_occurrence _ post v1 v2).
Qed.

Lemma pass_items_wraps (pre mid post : str) :
  contains pre (lit "<li>") = false ->
  contains post (lit "</li>") = false ->
  pass_items (pre ++ lit "<li>" ++ mid ++ lit "</li>" ++ post)
  = Ok (pre ++ lit "<ul>" ++ (lit "<li>" ++ mid ++ lit "</li>") ++ lit "</ul>" ++ post).
Proof.
  intros Hpre Hpost. unfold pass_items. rewrite re_sub_ok by done. f_equal.
  unfold re_sub_fn.
  rewrite sub_go_unmatched.
  2: { apply unmatched_before_occurrence; try done. intros p s. apply items_needs_open. }
  f_equal.
  replace (lit "<li>" ++ mid ++ lit "</li>" ++ post)
    with ((lit "<li>" ++ mid ++ lit "</li>") ++ post) by (by rewrite <- !app_assoc).
  erewrite sub_go_match.
  2: done.
  2: { rewrite <- !app_assoc. by apply items_match. }
  rewrite sub_go_never.
  - rewrite expand_wrap. unfold group. cbn [mo_caps assoc Nat.eqb].
    by rewrite <- !app_assoc.
  - intros i p'. apply items_needs_close. 
    apply contains_false_intro. intros j. rewrite drop_drop. by apply contains_false_drop.
Qed.

(** C3: the wrapping pass puts one [<ul>] container around everything from
    the first [<li>] of the text to its last [</li>]; three adjacent bullet
    lines become one list of three items in their order, and two bullet
    lists with other text between them end up in the same container. *)
Theorem C3_items_wrapped_in_one_list :
  (forall pre mid post : str,
     contains pre (lit "<li>") = false ->
     contains post (lit "</li>") = false ->
     pass_items (pre ++ lit "<li>" ++ mid ++ lit "</li>" ++ post)
     = Ok (pre ++ lit "<ul>" ++ (lit "<li>" ++ mid ++ lit "</li>") ++ lit "</ul>" ++ post)) /\
  convert_markdown_to_html (lit "- a" ++ [NL] ++ lit "- b" ++ [NL] ++ lit "- c")
  = Ok (lit "<ul><li>a</li>" ++ [NL] ++ lit "<li>b</li>" ++ [NL] ++ lit "<li>c</li></ul>") /\
  convert_markdown_to_html
    (lit "- a" ++ [NL] ++ lit "- b" ++ [NL; NL] ++ lit "Some text." ++ [NL; NL]
     ++ lit "- c" ++ [NL] ++ lit "- d")
  = Ok (lit "<ul><li>a</li>" ++ [NL] ++ lit "<li>b</li>" ++ [NL; NL] ++ lit "Some text."
        ++ [NL; NL] ++ lit "<li>c</li>" ++ [NL] ++ lit "<li>d</li></ul>").
Proof.
  split; [apply pass_items_wraps|].
  split; vm_compute; reflexivity.
Qed.

Lemma C3_items_wrapped_in_one_list_witness :
  pass_items (lit "<h2>To do</h2>" ++ lit "<li>" ++ lit "a</li><p>and</p><li>b" ++ lit "</li>"
              ++ lit "<p>end</p>")
  = Ok (lit "<h2>To do</h2>" ++ lit "<ul>"
        ++ (lit "<li>" ++ lit "a</li><p>and</p><li>b" ++ lit "</li>")
        ++ lit "</ul>" ++ lit "<p>end</p>").
Proof.
  exact (proj1 C3_items_wrapped_in_one_list (lit "<h2>To do</h2>")
           (lit "a</li><p>and</p><li>b") (lit "<p>end</p>") eq_refl eq_refl).
Defined.

(** ** Patterns without anchor *)

Lemma same_result_orelse (x x' y y' : option mstate) :
  same_result x x' -> same_result y y' -> same_result (orelse x y) (orelse x' y').
Proof. by destruct x, x'. Qed.

Lemma matches_prev_indep fl (r : regex) :
  anchor_free r = true ->
  forall st st' k k',
    same_text st st' ->
    (forall a a', same_text a a' -> same_result (k a) (k' a')) ->
    same_result (matches fl r st k) (matches fl r st' k').
Proof.
  induction r as [| c | neg items | | | | r1 IH1 r2 IH2 | r1 IH1 r2 IH2
                 | g lo r1 IH1 | r1 IH1 | n r1 IH1]; intros Hfree st st' k k' Hst Hk;
    try discriminate Hfree.
  - simpl. by apply Hk.
  - simpl. destruct Hst as [Hr Hc]. rewrite <- Hr.
    destruct (m_rest st) as [|x s]; [done|]. destruct (N.eqb x c); [|done].
    apply Hk. by split.
  - simpl. destruct Hst as [Hr Hc]. rewrite <- Hr.
    destruct (m_rest st) as [|x s]; [done|]. destruct (cls_mem neg items x); [|done].
    apply Hk. by split.
  - simpl. destruct Hst as [Hr Hc]. rewrite <- Hr.
    destruct (m_rest st) as [|x s]; [done|].
    destruct (DOTALL fl || negb (N.eqb x NL)); [|done].
    apply Hk. by split.
  - simpl. unfold at_eol. destruct Hst as [Hr Hc]. rewrite <- Hr.
    destruct (match m_rest st with [] => true | _ => _ end); [|done].
    apply Hk. by split.
  - simpl in Hfree. apply andb_true_iff in Hfree as [H1 H2].
    rewrite !matches_cat. apply IH1; [done|done|].
    intros a a' Ha. by apply IH2.
  - simpl in Hfree. apply andb_true_iff in Hfree as [H1 H2].
    rewrite !matches_alt. apply same_result_orelse; [by apply IH1|by apply IH2].
  - simpl in Hfree. rewrite !matches_rep.
    destruct Hst as [Hr Hc]. rewrite <- Hr.
    assert (Hst : same_text st st') by done. clear Hc.
    generalize (S (length (m_rest st))) as fuel. intros fuel.
    revert lo st st' Hst Hr. induction fuel as [|fuel IHf]; intros lo st st' Hst Hr; [done|].
    simpl rep_go.
    assert (Hagain : forall l,
      same_result
        (matches fl r1 st (fun st1 => if length (m_rest st1) <? length (m_rest st)
                                      then rep_go fl r1 g k fuel l st1 else None))
        (matches fl r1 st' (fun st1 => if length (m_rest st1) <? length (m_rest st')
                                       then rep_go fl r1 g k' fuel l st1 else None))).
    { intros l. apply IH1; [done|done|].
      intros a a' Ha. rewrite <- Hr. destruct Ha as [Har Hac]. rewrite <- Har.
      destruct (length (m_rest a) <? length (m_rest st)); [|done].
      by apply IHf. }
    destruct lo as [|lo]; [|apply Hagain].
    destruct g.
    + apply same_result_orelse; [apply Hagain|by apply Hk].
    + pose proof (Hk st st' Hst) as Hk0.
      destruct (k st), (k' st'); try done.
  - simpl in Hfree. rewrite !matches_opt.
    apply same_result_orelse; [by apply IH1|by apply Hk].
  - simpl in Hfree. rewrite !matches_grp. apply IH1; [done|done|].
    intros a a' [Har Hac]. apply Hk. destruct Hst as [Hr Hc].
    unfold set_cap, same_text. simpl. by rewrite Har, Hac, Hr.
Qed.

Lemma match_at_prev_indep fl r p p' (s : str) :
  anchor_free r = true -> match_at fl r p s = match_at fl r p' s.
Proof.
  intros Hfree. unfold match_at.
  pose proof (matches_prev_indep fl r Hfree
                (St p s []) (St p' s []) Some Some) as H.
  assert (Hs : same_result (matches fl r (St p s []) Some) (matches fl r (St p' s []) Some)).
  { apply H; [done|]. by intros a a' Ha. }
  destruct (matches fl r (St p s []) Some), (matches fl r (St p' s []) Some); try done.
  destruct Hs as [-> ->]. done.
Qed.

Lemma sub_go_prev_indep fl r f (s : str) :
  anchor_free r = true -> forall n p p', sub_go fl r f n p s = sub_go fl r f n p' s.
Proof.
  intros Hfree. induction s as [|c s IH]; intros n p p'.
  - destruct n; simpl; [|done]. by rewrite (match_at_prev_indep fl r p p').
  - destruct n; simpl; [|done]. by rewrite (match_at_prev_indep fl r p p').
Qed.

(** ** The title of a page *)

Lemma search_go_here fl r p (s : str) n mo :
  match_at fl r p s = Some (n, mo) -> search_go fl r p s = Some mo.
Proof. intros H. destruct s; simpl; by rewrite H. Qed.

Lemma search_go_never fl r (s : str) : forall p,
  (forall i p', match_at fl r p' (drop i s) = None) ->
  search_go fl r p s = None.
Proof.
  induction s as [|c s IH]; intros p H.
  - pose proof (H 0 p) as H0. simpl in *. by rewrite H0.
  - pose proof (H 0 p) as H0. simpl in *. rewrite H0.
    apply IH. intros i p'. apply (H (S i) p').
Qed.

(** Before the end of a text without [w], a [w] that follows is not yet reached. *)
Lemma no_earlier_occurrence (w txt u1 u2 post : str) :
  border_free w = true ->
  contains txt w = false ->
  txt = u1 ++ u2 -> u2 <> [] ->
  startswith (u2 ++ w ++ post) w = false.
Proof.
  intros Hb Htxt E Hu2.
  destruct (decide (length w <= length u2)) as [Hl|Hl].
  - destruct (startswith (u2 ++ w ++ post) w) eqn:E'; [|done].
    apply startswith_app_inv in E'; [|done].
    pose proof (contains_false_drop txt w (length u1) Htxt) as Hd.
    rewrite E, drop_app_length in Hd. congruence.
  - apply startswith_straddle; [done|done|lia].
Qed.

Lemma lacks_elem (c : N) (s : str) : lacks c s = true -> ~ In c s.
Proof.
  unfold lacks. rewrite forallb_forall. intros H Hin.
  apply H in Hin. by rewrite N.eqb_refl in Hin.
Qed.

Lemma lacks_app (c : N) (a b : str) : lacks c (a ++ b) = lacks c a && lacks c b.
Proof. apply forallb_app. Qed.

Lemma h1_needs_open p (s : str) :
  startswith s (lit "<h1>") = false -> match_at no_flags re_h1 p s = None.
Proof.
  intros H. unfold match_at, re_h1.
  rewrite matches_cats_cons. by rewrite matches_text_fail.
Qed.

Lemma any_line_chars (txt : str) :
  lacks NL txt = true -> forallb (atom_mem no_flags Any) txt = true.
Proof. done. Qed.

Lemma h1_match p (txt post : str) :
  txt <> [] -> lacks NL txt = true -> contains txt (lit "</h1>") = false ->
  match_at no_flags re_h1 p (lit "<h1>" ++ txt ++ lit "</h1>" ++ post)
  = Some (length (lit "<h1>" ++ txt ++ lit "</h1>"),
          {| group0 := lit "<h1>" ++ txt ++ lit "</h1>"; mo_caps := [(1, txt)] |}).
Proof.
  intros Hne Hnl Hclose.
  replace (lit "<h1>" ++ txt ++ lit "</h1>" ++ post)
    with ((lit "<h1>" ++ txt ++ lit "</h1>") ++ post) by (by rewrite <- !app_assoc).
  apply (match_at_intro _ _ _ _ _ (Some 62%N)).
  unfold re_h1. rewrite matches_cats_cons.
  rewrite <- !app_assoc. rewrite matches_text, matches_cats_cons, matches_grp.
  unfold lazy_plus. rewrite matches_rep.
  erewrite (rep_lazy_atom no_flags Any eq_refl _ _ txt (lit "</h1>" ++ post)).
  - reflexivity.
  - by apply any_line_chars.
  - destruct txt; simpl; [done|lia].
  - simpl. lia.
  - rewrite set_cap_take, matches_cats_cons, matches_text, matches_cats_nil.
    do 3 f_equal. by rewrite take_consumed.
  - intros u1 u2 E Hu2 _. rewrite set_cap_take, matches_cats_cons.
    apply matches_text_fail. by apply (no_earlier_occurrence _ txt u1 u2).
Qed.

Lemma page_title_of_match (html : str) (mo : match_obj) :
  re_search no_flags re_h1 html = Some mo ->
  page_title html = Ok (strip_tags (group mo 1)).
Proof. unfold page_title. intros ->. by rewrite re_sub_ok. Qed.

Lemma page_title_first_h1 (pre txt post : str) :
  contains pre (lit "<h1>") = false ->
  txt <> [] -> lacks NL txt = true -> contains txt (lit "</h1>") = false ->
  page_title (pre ++ lit "<h1>" ++ txt ++ lit "</h1>" ++ post) = Ok (strip_tags txt).
Proof.
  intros Hpre Hne Hnl Hclose.
  rewrite (page_title_of_match _
             {| group0 := lit "<h1>" ++ txt ++ lit "</h1>"; mo_caps := [(1, txt)] |});
    [done|].
  unfold re_search. rewrite search_go_unmatched.
  2: { apply unmatched_before_occurrence; try done. intros p s. apply h1_needs_open. }
  erewrite search_go_here; [reflexivity|]. by apply h1_match.
Qed.

Lemma page_title_fallback (html : str) :
  contains html (lit "<h1>") = false -> page_title html = Ok (lit "FP-ASM").
Proof.
  intros H. unfold page_title, re_search. rewrite search_go_never.
  - vm_compute. reflexivity.
  - intros i p'. apply h1_needs_open. by apply contains_false_drop.
Qed.

(** *** The leftmost heading, character by character *)

(** Lazy: no prefix of at least [lo] characters is accepted by the
    continuation. *)
Lemma rep_lazy_none fl r (k : mstate -> option mstate) :
  is_atom r = true ->
  forall (v rest : str) p cs fuel lo,
    forallb (atom_mem fl r) v = true ->
    stops fl r rest = true ->
    (forall v1 v2, v = v1 ++ v2 -> lo <= length v1 ->
       k (St (prev_after p v1) (v2 ++ rest) cs) = None) ->
    rep_go fl r false k fuel lo (St p (v ++ rest) cs) = None.
Proof.
  intros Hatom. induction v as [|c v IH]; intros rest p cs fuel lo Hv Hstop Hk.
  - destruct fuel as [|fuel]; [done|]. simpl rep_go; simpl m_rest. simpl app.
    rewrite (rep_go_atom_stop fl r Hatom k) by done.
    destruct lo; [|done].
    pose proof (Hk [] [] eq_refl) as H0. simpl in H0. rewrite prev_after_nil in H0.
    rewrite H0 by lia. done.
  - destruct fuel as [|fuel]; [done|]. simpl in Hv. apply andb_true_iff in Hv as [Hc Hv].
    simpl rep_go; simpl m_rest. simpl app.
    rewrite (rep_go_atom_step fl r Hatom k) by done.
    rewrite IH; [| done | done |].
    + destruct lo; [|done].
      pose proof (Hk [] (c :: v) eq_refl) as H0. simpl in H0. rewrite prev_after_nil in H0.
      rewrite H0 by lia. done.
    + intros v1 v2 -> Hl. rewrite <- (prev_after_cons p).
      apply (Hk (c :: v1) v2); [done|]. simpl. lia.
Qed.

(** A text is the rest of its first line and what comes after it. *)
Lemma line_run (s : str) :
  exists v rest, s = v ++ rest /\ lacks NL v = true /\ stops no_flags Any rest = true.
Proof.
  induction s as [|c s (v & rest & -> & Hv & Hstop)]; [by exists [], []|].
  destruct (N.eqb c NL) eqn:E.
  - exists [], (c :: v ++ rest). repeat split. simpl. by rewrite E.
  - exists (c :: v), rest. repeat split; [|done]. simpl. by rewrite E.
Qed.

Lemma until_close_eq (s : str) :
  until_close s
  = if startswith s (lit "</h1>") then Some []
    else match s with
         | [] => None
         | c :: rest =>
             if N.eqb c NL then None
             else match until_close rest with
                  | Some t => Some (c :: t)
                  | None => None
                  end
         end.
Proof. by destruct s. Qed.

Lemma until_close_some (s : str) : forall t,
  until_close s = Some t ->
  exists post,
    s = t ++ lit "</h1>" ++ post /\ lacks NL t = true /\
    forall u1 u2, t = u1 ++ u2 -> u2 <> [] ->
      startswith (u2 ++ lit "</h1>" ++ post) (lit "</h1>") = false.
Proof.
  induction s as [|c s IH]; intros t; rewrite until_close_eq.
  - done.
  - destruct (startswith (c :: s) (lit "</h1>")) eqn:E.
    + intros [= <-]. apply startswith_split in E.
      exists (drop (length (lit "</h1>")) (c :: s)).
      split; [exact E|]. split; [done|]. intros u1 u2 Hu Hne.
      by destruct u1, u2.
    + destruct (N.eqb c NL) eqn:Ec; [done|].
      destruct (until_close s) as [t'|] eqn:Eu; [|done].
      intros [= <-]. destruct (IH t' eq_refl) as (post & -> & Hl & Hsplit).
      exists post. split; [done|]. split; [simpl; by rewrite Ec|].
      intros u1 u2 Hu Hne. destruct u1 as [|y u1].
      * cbn [app] in Hu. subst u2. exact E.
      * cbn [app] in Hu. inversion Hu; subst. by apply (Hsplit u1 u2).
Qed.

Lemma until_close_none (s : str) :
  until_close s = None ->
  forall v1 v2, s = v1 ++ v2 -> lacks NL v1 = true ->
    startswith v2 (lit "</h1>") = false.
Proof.
  induction s as [|c s IH]; rewrite until_close_eq; intros H v1 v2 Hs Hl.
  - by destruct v1, v2.
  - destruct (startswith (c :: s) (lit "</h1>")) eqn:E; [done|].
    destruct v1 as [|y v1].
    + cbn [app] in Hs. by subst v2.
    + cbn [app] in Hs. inversion Hs; subst.
      simpl in Hl. apply andb_true_iff in Hl as [Hy Hl]. apply negb_true_iff in Hy.
      rewrite Hy in H. destruct (until_close (v1 ++ v2)) eqn:Eu; [done|].
      by apply (IH eq_refl v1 v2).
Qed.

(** The pattern takes the shortest text it can. *)
Lemma h1_match_shortest p (txt post : str) :
  txt <> [] -> lacks NL txt = true ->
  (forall u1 u2, txt = u1 ++ u2 -> u1 <> [] -> u2 <> [] ->
     startswith (u2 ++ lit "</h1>" ++ post) (lit "</h1>") = false) ->
  match_at no_flags re_h1 p (lit "<h1>" ++ txt ++ lit "</h1>" ++ post)
  = Some (length (lit "<h1>" ++ txt ++ lit "</h1>"),
          {| group0 := lit "<h1>" ++ txt ++ lit "</h1>"; mo_caps := [(1, txt)] |}).
Proof.
  intros Hne Hnl Hclose.
  replace (lit "<h1>" ++ txt ++ lit "</h1>" ++ post)
    with ((lit "<h1>" ++ txt ++ lit "</h1>") ++ post) by (by rewrite <- !app_assoc).
  apply (match_at_intro _ _ _ _ _ (Some 62%N)).
  unfold re_h1. rewrite matches_cats_cons.
  rewrite <- !app_assoc. rewrite matches_text, matches_cats_cons, matches_grp.
  unfold lazy_plus. rewrite matches_rep.
  erewrite (rep_lazy_atom no_flags Any eq_refl _ _ txt (lit "</h1>" ++ post)).
  - reflexivity.
  - by apply any_line_chars.
  - destruct txt; simpl; [done|lia].
  - simpl. lia.
  - rewrite set_cap_take, matches_cats_cons, matches_text, matches_cats_nil.
    do 3 f_equal. by rewrite take_consumed.
  - intros u1 u2 E Hu2 Hl. rewrite set_cap_take, matches_cats_cons.
    apply matches_text_fail. apply (Hclose u1 u2 E); [|done].
    destruct u1; [simpl in Hl; lia|done].
Qed.

(** Without a [</h1>] on the line, one character or more after [<h1>],
    the pattern does not match. *)
Lemma h1_none p (x : str) :
  (forall v1 v2, x = v1 ++ v2 -> v1 <> [] -> lacks NL v1 = true ->
     startswith v2 (lit "</h1>") = false) ->
  match_at no_flags re_h1 p (lit "<h1>" ++ x) = None.
Proof.
  intros Hx. unfold match_at, re_h1.
  rewrite matches_cats_cons, matches_text, matches_cats_cons, matches_grp.
  unfold lazy_plus. rewrite matches_rep.
  destruct (line_run x) as (v & rest & -> & Hv & Hstop).
  rewrite (rep_lazy_none no_flags Any _ eq_refl v rest); [done| |done|].
  - by apply any_line_chars.
  - intros v1 v2 -> Hl. rewrite set_cap_take, matches_cats_cons.
    apply matches_text_fail. apply (Hx v1 (v2 ++ rest)).
    + by rewrite <- app_assoc.
    + destruct v1; [simpl in Hl; lia|done].
    + rewrite lacks_app in Hv. by apply andb_true_iff in Hv as [Hv _].
Qed.

Lemma heading_here_open (x : str) :
  heading_here (lit "<h1>" ++ x)
  = match x with
    | [] => None
    | c :: rest =>
        if N.eqb c NL then None
        else match until_close rest with
             | Some t => Some (c :: t)
             | None => None
             end
    end.
Proof. reflexivity. Qed.

(** The pattern matches at a position exactly when a heading starts
    there, and its group is the text of that heading. *)
Lemma h1_at p (s : str) :
  match_at no_flags re_h1 p s
  = match heading_here s with
    | Some t => Some (length (lit "<h1>" ++ t ++ lit "</h1>"),
                      {| group0 := lit "<h1>" ++ t ++ lit "</h1>"; mo_caps := [(1, t)] |})
    | None => None
    end.
Proof.
  destruct (startswith s (lit "<h1>")) eqn:E.
  2: { rewrite h1_needs_open by done. unfold heading_here. by rewrite E. }
  apply startswith_split in E. remember (drop (length (lit "<h1>")) s) as x eqn:Hx.
  clear Hx. subst s. rewrite heading_here_open.
  destruct x as [|c rest].
  - apply h1_none. intros v1 v2 Hx Hne. by destruct v1.
  - destruct (N.eqb c NL) eqn:Ec.
    + apply h1_none. intros v1 v2 Hx Hne Hl. destruct v1 as [|y v1]; [done|].
      cbn [app] in Hx. inversion Hx; subst. simpl in Hl. by rewrite Ec in Hl.
    + destruct (until_close rest) as [t|] eqn:Eu.
      * apply until_close_some in Eu as (post & -> & Hl & Hsplit).
        apply (h1_match_shortest p (c :: t) post); [done|simpl; by rewrite Ec|].
        intros u1 u2 Hu Hne1 Hne2. destruct u1 as [|y u1]; [done|].
        cbn [app] in Hu. inversion Hu; subst. by apply (Hsplit u1 u2).
      * apply h1_none. intros v1 v2 Hx Hne Hl. destruct v1 as [|y v1]; [done|].
        cbn [app] in Hx. inversion Hx; subst.
        simpl in Hl. apply andb_true_iff in Hl as [_ Hl].
        by apply (until_close_none _ Eu v1 v2).
Qed.

(** [re.search] finds the leftmost heading. *)
Lemma search_h1 (s : str) : forall p,
  search_go no_flags re_h1 p s
  = match first_heading s with
    | Some t => Some {| group0 := lit "<h1>" ++ t ++ lit "</h1>"; mo_caps := [(1, t)] |}
    | None => None
    end.
Proof.
  induction s as [|c s IH]; intros p; cbn [search_go first_heading]; rewrite h1_at.
  - by destruct (heading_here []).
  - destruct (heading_here (c :: s)); [done|]. apply IH.
Qed.

Lemma page_title_spec (html : str) :
  page_title html = Ok (strip_tags (title_text html)).
Proof.
  unfold page_title, re_search, title_text. rewrite search_h1, re_sub_ok by done.
  by destruct (first_heading html).
Qed.

(** *** Removing tags *)

Lemma tag_needs_open p (s : str) :
  startswith s (lit "<") = false -> match_at no_flags re_tag p s = None.
Proof.
  intros H. unfold match_at, re_tag.
  rewrite matches_cats_cons. by rewrite matches_text_fail.
Qed.

Lemma lacks_startswith (c : N) (s w : str) :
  lacks c s = true -> startswith s (c :: w) = false.
Proof.
  destruct s as [|x s]; [done|]. simpl. intros [H _]%andb_true_iff.
  apply negb_true_iff in H. by rewrite H.
Qed.

Lemma lacks_drop (c : N) (s : str) (i : nat) : lacks c s = true -> lacks c (drop i s) = true.
Proof.
  intros H. rewrite <- (take_drop i s) in H. rewrite lacks_app in H.
  by apply andb_true_iff in H as [_ H].
Qed.

Lemma strip_tags_plain (s : str) : lacks 60%N s = true -> strip_tags s = s.
Proof.
  intros H. unfold strip_tags, re_sub_fn. apply sub_go_never.
  intros i p'. apply tag_needs_open. apply (lacks_startswith 60%N _ []).
  by apply lacks_drop.
Qed.

Lemma none_of_mem fl (c x : N) : atom_mem fl (none_of [c]) x = negb (N.eqb x c).
Proof. unfold none_of. simpl. unfold cls_mem. simpl. by destruct (N.eqb x c). Qed.

Lemma tag_match p (g b : str) :
  g <> [] -> lacks 62%N g = true ->
  match_at no_flags re_tag p (lit "<" ++ g ++ lit ">" ++ b)
  = Some (length (lit "<" ++ g ++ lit ">"),
          {| group0 := lit "<" ++ g ++ lit ">"; mo_caps := [] |}).
Proof.
  intros Hne Hg.
  replace (lit "<" ++ g ++ lit ">" ++ b)
    with ((lit "<" ++ g ++ lit ">") ++ b) by (by rewrite <- !app_assoc).
  apply (match_at_intro _ _ _ _ _ (Some 62%N)).
  unfold re_tag. rewrite matches_cats_cons.
  rewrite <- !app_assoc. rewrite matches_text, matches_cats_cons.
  unfold plus. rewrite matches_rep.
  rewrite <- (app_nil_l (lit ">" ++ b)).
  erewrite (rep_greedy_atom no_flags (none_of (lit ">")) eq_refl _ _ g [] (lit ">" ++ b)).
  - reflexivity.
  - rewrite app_nil_r. change (lit ">") with [62%N].
    unfold lacks in Hg. rewrite forallb_forall in Hg. apply forallb_forall.
    intros x Hx. rewrite none_of_mem. by apply Hg.
  - done.
  - destruct g; simpl; [done|lia].
  - simpl. rewrite !length_app. simpl. lia.
  - by rewrite app_nil_l, matches_cats_cons, matches_text, matches_cats_nil.
  - intros v1 v2 Hv Hv1. by destruct v1.
Qed.

Lemma tag_can_start p (c : N) (s : str) :
  can_start no_flags re_tag p (c :: s) = N.eqb c 60.
Proof. unfold re_tag. change (lit "<") with [60%N]. cbn. by rewrite !andb_true_r. Qed.

Lemma strip_tags_tag (a g b : str) :
  lacks 60%N a = true -> g <> [] -> lacks 62%N g = true ->
  strip_tags (a ++ lit "<" ++ g ++ lit ">" ++ b) = a ++ strip_tags b.
Proof.
  intros Ha Hne Hg. unfold strip_tags, re_sub_fn.
  rewrite sub_go_unmatched.
  2: { apply quiet_to_unmatched. clear -Ha. generalize (@None N).
       induction a as [|c a IH]; intros p; [done|].
       simpl in Ha. apply andb_true_iff in Ha as [Hc Ha].
       cbn [quiet_to app]. rewrite IH by done. rewrite andb_true_r.
       rewrite tag_can_start. apply negb_true_iff in Hc. by rewrite Hc. }
  f_equal.
  replace (lit "<" ++ g ++ lit ">" ++ b)
    with ((lit "<" ++ g ++ lit ">") ++ b) by (by rewrite <- !app_assoc).
  erewrite sub_go_match.
  2: by destruct g.
  2: { rewrite <- !app_assoc. by apply tag_match. }
  rewrite (sub_go_prev_indep no_flags re_tag _ b eq_refl 0 _ None).
  unfold expand. by cbn [map concat app].
Qed.

Lemma page_parts_title (md_file : str) :
  exists head nav,
    fst (fst (page_parts (active_flags_of md_file))) = head ++ lit "<title>" /\
    snd (fst (page_parts (active_flags_of md_file))) = lit " - FP-ASM Library</title>" ++ nav.
Proof.
  exists (take (length (fst (fst (page_parts (active_flags_of md_file)))) - 7)
            (fst (fst (page_parts (active_flags_of md_file))))),
         (drop 25 (snd (fst (page_parts (active_flags_of md_file))))).
  unfold active_flags_of.
  repeat (match goal with |- context [str_eqb ?a ?b] => destruct (str_eqb a b) end;
          [split; vm_compute; reflexivity|]).
  split; vm_compute; reflexivity.
Qed.

(** C8, as the code has it: the title handed to the template is the text
    of the leftmost heading of the fragment with its tags removed, and
    [FP-ASM] when the fragment has no heading.  A heading is [<h1>]
    followed on the same line by one character or more and then [</h1>];
    its text runs from [<h1>] to the first [</h1>] that starts one
    character or more after it ([first_heading] reads it off the text
    character by character).  An [<h1>] that is not followed this way is
    passed over.  Removing the tags leaves text without [<] as it is, and
    drops a tag, that is [<], one or more characters other than [>], and
    [>], where it follows text without [<].  The title stands in the
    [<title>] element of the filled template, which the link fix-up then
    goes over like the rest of the page. *)
Theorem C8_title_from_first_h1 :
  (forall html : str, page_title html = Ok (strip_tags (title_text html))) /\
  (forall s : str, lacks 60%N s = true -> strip_tags s = s) /\
  (forall a g b : str,
     lacks 60%N a = true -> g <> [] -> lacks 62%N g = true ->
     strip_tags (a ++ lit "<" ++ g ++ lit ">" ++ b) = a ++ strip_tags b) /\
  (forall md_file markdown html title : str,
     convert_markdown_to_html markdown = Ok html ->
     page_title html = Ok title ->
     exists head foot,
       render_page md_file markdown
       = Ok (fix_md_links (head ++ lit "<title>" ++ title
                           ++ lit " - FP-ASM Library</title>" ++ foot))).
Proof.
  split; [apply page_title_spec|].
  split; [apply strip_tags_plain|].
  split; [apply strip_tags_tag|].
  intros md_file markdown html title Hc Ht.
  destruct (page_parts_title md_file) as (head & nav & Hh & Hn).
  exists head, (nav ++ html ++ snd (page_parts (active_flags_of md_file))).
  rewrite (render_page_eq _ _ _ _ Hc Ht). rewrite Hh, Hn.
  by rewrite <- !app_assoc.
Qed.

Lemma C8_title_from_first_h1_witness :
  page_title (lit "<h1>" ++ [NL] ++ lit "<h1><em>Quick</em> start</h1><h1>Later</h1>")
  = Ok (lit "Quick start")
  /\ strip_tags (lit "Quick" ++ lit "<" ++ lit "/em" ++ lit ">" ++ lit " start")
     = lit "Quick" ++ strip_tags (lit " start").
Proof.
  split.
  - exact (proj1 C8_title_from_first_h1
             (lit "<h1>" ++ [NL] ++ lit "<h1><em>Quick</em> start</h1><h1>Later</h1>")).
  - apply (proj1 (proj2 (proj2 C8_title_from_first_h1)) (lit "Quick") (lit "/em")
             (lit " start")); [reflexivity | discriminate | reflexivity].
Defined.

(** Headings the pattern passes over, and one it takes whole. *)
Example title_text_examples :
  title_text (lit "<p>a</p><h1>T</h1><h1>U</h1>") = lit "T"
  /\ title_text (lit "<h1>" ++ [NL] ++ lit "<h1>T</h1>") = lit "T"
  /\ title_text (lit "<h1></h1>" ++ [NL] ++ lit "<h1>T</h1>") = lit "T"
  /\ title_text (lit "<h1></h1><h1></h1>") = lit "</h1><h1>"
  /\ page_title (lit "<h1></h1><h1></h1>") = Ok []
  /\ title_text (lit "<h1></h1>T</h1>") = lit "</h1>T"
  /\ title_text (lit "<h1>T" ++ [NL] ++ lit "</h1>") = lit "FP-ASM"
  /\ title_text (lit "<p>no heading</p>") = lit "FP-ASM".
Proof. repeat split; vm_compute; reflexivity. Qed.

Example strip_tags_example :
  strip_tags (lit "<em>Quick</em> start") = lit "Quick start".
Proof. vm_compute. reflexivity. Qed.

(** C8, as the claim states it, fails for a heading without text: the
    fragment [<h1></h1>] comes out of the converter, its first [h1] has the
    empty text, and the title is the fallback. *)
Lemma C8_empty_heading_gets_fallback :
  convert_markdown_to_html (lit "<h1></h1>") = Ok (lit "<h1></h1>") /\
  contains (lit "<h1></h1>") (lit "<h1>") = true /\
  page_title (lit "<h1></h1>") = Ok (lit "FP-ASM").
Proof. repeat split; vm_compute; reflexivity. Qed.

(** ** Tables *)

(** *** Matching the lines of a table *)








Arguments is_space : simpl never.
Arguments is_word : simpl never.
Arguments is_digit : simpl never.






(** *** Splitting and trimming *)

Lemma split_lacks (c : N) (l : str) : lacks c l = true -> split c l = [l].
Proof.
  induction l as [|x l IH]; [done|].
  simpl. intros [Hx Hl]%andb_true_iff. apply negb_true_iff in Hx.
  rewrite Hx, IH by done. done.
Qed.

Lemma split_app (c : N) (l r : str) :
  lacks c l = true -> split c (l ++ c :: r) = l :: split c r.
Proof.
  induction l as [|x l IH]; simpl.
  - intros _. by rewrite N.eqb_refl.
  - intros [Hx Hl]%andb_true_iff. apply negb_true_iff in Hx.
    rewrite Hx, IH by done. done.
Qed.

Lemma lstrip_nonspace (c : N) (s : str) : is_space c = false -> lstrip (c :: s) = c :: s.
Proof. simpl. by intros ->. Qed.

Lemma lstrip_spec (s : str) :
  exists l, s = l ++ lstrip s /\ forallb is_space l = true.
Proof.
  induction s as [|c s (l & Hl & Hsp)]; [by exists []|].
  simpl. destruct (is_space c) eqn:E.
  - exists (c :: l). simpl. rewrite E, Hsp. by rewrite <- Hl.
  - by exists [].
Qed.

Lemma lstrip_head (s : str) (c : N) (rest : str) :
  lstrip s = c :: rest -> is_space c = false.
Proof.
  induction s as [|x s IH]; [done|].
  simpl. destruct (is_space x) eqn:E; [done|]. intros H. by inversion H; subst.
Qed.

Lemma lstrip_idemp (s : str) : lstrip (lstrip s) = lstrip s.
Proof.
  destruct (lstrip s) as [|c rest] eqn:E; [done|].
  apply lstrip_nonspace. by apply (lstrip_head s c rest).
Qed.

Lemma rstrip_spec (s : str) :
  exists r, s = rstrip s ++ r /\ forallb is_space r = true.
Proof.
  unfold rstrip. destruct (lstrip_spec (rev s)) as (l & Hl & Hsp).
  exists (rev l). split.
  - rewrite <- rev_app_distr, <- Hl. by rewrite rev_involutive.
  - rewrite forallb_forall in *. intros x Hx. apply Hsp. by apply in_rev.
Qed.

(** [strip] removes whitespace at both ends, and nothing else. *)
Lemma strip_spec (s : str) :
  exists l r, s = l ++ strip s ++ r
              /\ forallb is_space l = true /\ forallb is_space r = true
              /\ lstrip (strip s) = strip s /\ rstrip (strip s) = strip s.
Proof.
  destruct (lstrip_spec s) as (l & Hl & Hlsp).
  destruct (rstrip_spec (lstrip s)) as (r & Hr & Hrsp).
  exists l, r. fold (strip s) in Hr.
  split; [by rewrite <- Hr|]. split; [done|]. split; [done|]. split.
  - destruct (strip s) as [|c rest] eqn:E; [done|].
    apply lstrip_nonspace. apply (lstrip_head (lstrip s) c (rest ++ r)).
    rewrite lstrip_idemp. by rewrite Hr.
  - unfold strip, rstrip. rewrite rev_involutive. by rewrite lstrip_idemp.
Qed.


(** *** What [convert_table] makes of a well-formed table *)


















(** The same table through the whole converter. *)
Example table_through_converter :
  convert_markdown_to_html
    (table_text [lit " n "; lit " bytes "] (lit "---|--:")
       [[lit " 1 "; lit "  8 "]; [lit "2"; lit "16"]])
  = Ok (lit "<table>" ++ [NL]
        ++ lit "<tr><th>n</th><th>bytes</th></tr>" ++ [NL]
        ++ lit "<tr><td>1</td><td>8</td></tr>" ++ [NL]
        ++ lit "<tr><td>2</td><td>16</td></tr>" ++ [NL]
        ++ lit "</table>").
Proof. vm_compute. reflexivity. Qed.

(** ** Text in which a pattern cannot start *)

Arguments is_emoji : simpl never.

Lemma quiet_app fl r (a b : str) : forall p,
  quiet_to fl r p a b = true -> quiet fl r (prev_after p a) b = true ->
  quiet fl r p (a ++ b) = true.
Proof.
  induction a as [|c a IH]; intros p; [done|].
  cbn [quiet_to quiet app]. intros [H1 H2]%andb_true_iff Hb.
  rewrite prev_after_cons in Hb.
  rewrite H1. cbn [andb]. by apply IH.
Qed.

Lemma quiet_to_app fl r (a b s : str) : forall p,
  quiet_to fl r p a (b ++ s) = true -> quiet_to fl r (prev_after p a) b s = true ->
  quiet_to fl r p (a ++ b) s = true.
Proof.
  induction a as [|c a IH]; intros p; [done|].
  cbn [quiet_to app]. rewrite <- app_assoc. intros [H1 H2]%andb_true_iff Hb.
  rewrite prev_after_cons in Hb.
  cbn [app] in H1. rewrite H1. cbn [andb]. by apply IH.
Qed.

Lemma bol_of_after (p : option N) (a : str) (c : N) :
  bol_of (prev_after p (a ++ [c])) = N.eqb c NL.
Proof. by rewrite prev_after_snoc. Qed.

Section starts_at.
Context (fl : flags) (r : regex) (f : N -> bool) (Hr : starts_at fl r f).

Lemma quiet_to_avoid (pre s : str) : forall p,
  forallb (fun c => negb (f c)) pre = true -> quiet_to fl r p pre s = true.
Proof.
  destruct Hr as [Hc _]. induction pre as [|c pre IH]; intros p; [done|].
  cbn [forallb quiet_to app]. intros [H1 H2]%andb_true_iff.
  apply negb_true_iff in H1. rewrite Hc, IH by done. done.
Qed.

Lemma quiet_avoid (s : str) : forall p,
  forallb (fun c => negb (f c)) s = true -> quiet fl r p s = true.
Proof.
  destruct Hr as [Hc He]. induction s as [|c s IH]; intros p.
  - intros _. cbn. by rewrite He.
  - cbn [forallb quiet]. intros [H1 H2]%andb_true_iff.
    apply negb_true_iff in H1. rewrite Hc, IH by done. done.
Qed.
End starts_at.

Section starts_line_at.
Context (fl : flags) (r : regex) (f : N -> bool) (Hr : starts_line_at fl r f).

Lemma quiet_to_heads (pre s : str) : forall p,
  heads_ok f (bol_of p) pre = true -> quiet_to fl r p pre s = true.
Proof.
  destruct Hr as [Hc _]. induction pre as [|c pre IH]; intros p; [done|].
  cbn [heads_ok quiet_to app]. intros [H1 H2]%andb_true_iff.
  apply negb_true_iff in H1. rewrite Hc by done. cbn [negb andb]. by apply IH.
Qed.

Lemma quiet_heads (s : str) : forall p,
  heads_ok f (bol_of p) s = true -> quiet fl r p s = true.
Proof.
  destruct Hr as [Hc He]. induction s as [|c s IH]; intros p.
  - intros _. cbn. by rewrite He.
  - cbn [heads_ok quiet]. intros [H1 H2]%andb_true_iff.
    apply negb_true_iff in H1. rewrite Hc by done. cbn [negb andb]. by apply IH.
Qed.
End starts_line_at.

Lemma heads_ok_weaken (f g : N -> bool) (s : str) :
  (forall c, f c = true -> g c = true) ->
  forall b b' : bool, (b = true -> b' = true) ->
  heads_ok g b' s = true -> heads_ok f b s = true.
Proof.
  intros Hfg. induction s as [|c s IH]; intros b b' Hb; [done|].
  cbn [heads_ok]. intros [H1 H2]%andb_true_iff.
  apply andb_true_iff. split; [|by apply (IH _ (N.eqb c NL))].
  apply negb_true_iff. apply negb_true_iff in H1.
  destruct b; [|done]. rewrite Hb in H1 by done. simpl in *.
  destruct (f c) eqn:E; [|done]. apply Hfg in E. congruence.
Qed.

Lemma heads_ok_app (f : N -> bool) (a s : str) : forall b,
  heads_ok f b (a ++ s)
  = heads_ok f b a && heads_ok f (match last a with Some c => N.eqb c NL | None => b end) s.
Proof.
  induction a as [|c a IH]; intros b; [done|].
  cbn [heads_ok app]. rewrite IH, andb_assoc. do 2 f_equal.
  destruct a as [|x a]; [done|]. 
  change (last (c :: x :: a)) with (last (x :: a)).
  by destruct (last (x :: a)) eqn:E; [|apply last_None in E].
Qed.

Lemma heads_ok_avoid (f : N -> bool) (s : str) (b : bool) :
  forallb (fun c => negb (f c)) s = true -> heads_ok f b s = true.
Proof.
  revert b. induction s as [|c s IH]; intros b; [done|].
  cbn [forallb heads_ok]. intros [H1 H2]%andb_true_iff.
  apply negb_true_iff in H1. rewrite H1, andb_false_r. by apply IH.
Qed.

Lemma forallb_weaken (f g : N -> bool) (s : str) :
  (forall c, f c = true -> g c = true) ->
  forallb (fun c => negb (g c)) s = true -> forallb (fun c => negb (f c)) s = true.
Proof.
  intros Hfg. rewrite !forallb_forall. intros H x Hx. specialize (H x Hx).
  apply negb_true_iff. apply negb_true_iff in H.
  destruct (f x) eqn:E; [|done]. apply Hfg in E. congruence.
Qed.

(** *** Where each pattern can start *)

Ltac starts_at_tac :=
  split;
  [ intros p c t H; cbn; cbn in H; rewrite ?H, ?andb_false_r; try done
  | intros p; cbn; rewrite ?andb_false_r; done ].

Lemma inline_code_starts : starts_at no_flags re_inline_code (fun c => N.eqb c 96).
Proof. unfold re_inline_code. change (lit "`") with [96%N]. starts_at_tac. Qed.

Lemma bold_starts : starts_at no_flags re_bold (fun c => N.eqb c 42).
Proof. unfold re_bold. change (lit "**") with [42; 42]%N. starts_at_tac. Qed.

Lemma italic_starts : starts_at no_flags re_italic (fun c => N.eqb c 42).
Proof. unfold re_italic. change (lit "*") with [42%N]. starts_at_tac. Qed.

Lemma link_starts : starts_at no_flags re_link (fun c => N.eqb c 91).
Proof. unfold re_link. change (lit "[") with [91%N]. starts_at_tac. Qed.

Lemma code_block_starts : starts_at re_DOTALL re_code_block (fun c => N.eqb c 96).
Proof. unfold re_code_block. change (lit "```") with [96; 96; 96]%N. starts_at_tac. Qed.

Lemma items_starts : starts_at re_DOTALL re_items (fun c => N.eqb c 60).
Proof. unfold re_items. change (lit "<li>") with [60; 108; 105; 62]%N. starts_at_tac. Qed.

Lemma table_starts : starts_at no_flags re_table (fun c => N.eqb c 124).
Proof. unfold re_table, re_row. change (lit "|") with [124%N]. starts_at_tac. Qed.

Lemma emoji_starts : starts_at no_flags emoji_pattern is_emoji.
Proof.
  unfold emoji_pattern. split.
  - intros p c t H. cbn. unfold cls_mem. cbn. unfold is_emoji in H.
    rewrite !orb_false_r. by rewrite orb_assoc.
  - done.
Qed.

Ltac starts_line_tac :=
  split;
  [ intros [x|] c t H; cbn; cbn in H;
    [ destruct (N.eqb x NL); cbn in *; [|done] | ];
    rewrite ?H, ?andb_false_r; try done
  | intros [x|]; cbn; rewrite ?andb_false_r; done ].

Lemma header_starts (hashes : string) :
  In hashes ["#"; "##"; "###"; "####"]%string ->
  starts_line_at re_MULTILINE (re_header hashes) (fun c => N.eqb c 35).
Proof.
  intros H. unfold re_header.
  repeat (destruct H as [<-|H];
          [match goal with |- context [lit ?s] =>
             let v := eval vm_compute in (lit s) in change (lit s) with v end;
           starts_line_tac|]).
  destruct H.
Qed.

Lemma hr_starts : starts_line_at re_MULTILINE re_hr (fun c => N.eqb c 45).
Proof. unfold re_hr. change (lit "--") with [45; 45]%N. starts_line_tac. Qed.

Lemma bullet_starts : starts_line_at re_MULTILINE re_bullet (fun c => N.eqb c 45).
Proof. unfold re_bullet. change (lit "- ") with [45; 32]%N. starts_line_tac. Qed.

Lemma numbered_starts : starts_line_at re_MULTILINE re_numbered is_digit.
Proof.
  unfold re_numbered. change (lit ". ") with [46; 32]%N.
  split.
  - intros [x|] c t H; cbn; cbn in H; unfold cls_mem; cbn.
    + destruct (N.eqb x NL); cbn in *; [|done]. by rewrite H.
    + by rewrite H.
  - intros [x|]; cbn; by rewrite ?andb_false_r.
Qed.

(** ** Passes on text they do not match *)

Lemma re_sub_never fl r tpl (s : str) :
  template_ok r tpl = true ->
  (forall i p, match_at fl r p (drop i s) = None) ->
  re_sub fl r tpl s = Ok s.
Proof.
  intros Ht H. rewrite re_sub_ok by done. unfold re_sub_fn. by rewrite sub_go_never.
Qed.

Lemma re_sub_quiet fl r tpl (s : str) :
  template_ok r tpl = true -> quiet fl r None s = true -> re_sub fl r tpl s = Ok s.
Proof.
  intros Ht H. rewrite re_sub_ok by done. unfold re_sub_fn. by rewrite sub_go_quiet.
Qed.

Lemma markup_char_false (c : N) :
  markup_char c = false ->
  N.eqb c 96 = false /\ N.eqb c 42 = false /\ N.eqb c 91 = false
  /\ N.eqb c 124 = false /\ N.eqb c 60 = false /\ is_emoji c = false.
Proof.
  unfold markup_char. intros H.
  repeat (apply orb_false_iff in H as [H ?]). done.
Qed.

Lemma line_start_char_false (c : N) :
  line_start_char c = false ->
  N.eqb c 35 = false /\ N.eqb c 45 = false /\ is_digit c = false.
Proof.
  unfold line_start_char. intros H.
  repeat (apply orb_false_iff in H as [H ?]). done.
Qed.

Lemma inert_chars (b : bool) (s : str) :
  inert b s = true -> forallb (fun c => negb (markup_char c)) s = true.
Proof. unfold inert. by intros [H _]%andb_true_iff. Qed.

Lemma inert_heads (b : bool) (s : str) :
  inert b s = true -> heads_ok line_start_char b s = true.
Proof. unfold inert. by intros [_ H]%andb_true_iff. Qed.

(** Inert text avoids every character [f] picks among the markup characters. *)
Lemma inert_avoids (f : N -> bool) (b : bool) (s : str) :
  (forall c, markup_char c = false -> f c = false) ->
  inert b s = true -> forallb (fun c => negb (f c)) s = true.
Proof.
  intros Hf H. apply inert_chars in H. rewrite forallb_forall in *.
  intros x Hx. specialize (H x Hx). apply negb_true_iff in H.
  by rewrite Hf.
Qed.

Lemma inert_line_heads (f : N -> bool) (b b' : bool) (s : str) :
  (forall c, line_start_char c = false -> f c = false) ->
  (b' = true -> b = true) ->
  inert b s = true -> heads_ok f b' s = true.
Proof.
  intros Hf Hb H. apply inert_heads in H.
  apply (heads_ok_weaken f line_start_char s) with (b' := b); [|done|done].
  intros c Hc. destruct (line_start_char c) eqn:E; [done|]. apply Hf in E. congruence.
Qed.

Lemma inert_lacks (c0 : N) (b : bool) (s : str) :
  markup_char c0 = true -> inert b s = true -> lacks c0 s = true.
Proof.
  intros Hc H. unfold lacks. apply (inert_avoids (fun c => N.eqb c c0) b); [|done].
  intros c Hm. destruct (N.eqb_spec c c0) as [->|]; [congruence|done].
Qed.

(** ** The paragraph loop *)

Lemma join_split (s : str) : join [NL] (split NL s) = s.
Proof.
  induction s as [|c s IH]; [done|].
  cbn [split]. destruct (N.eqb_spec c NL) as [->|Hc].
  - destruct (split NL s) as [|l ls] eqn:E; [by destruct s; simpl in E; try case_match|].
    cbn [join]. cbn [join] in IH. by rewrite IH.
  - destruct (split NL s) as [|l ls] eqn:E; [by destruct s; simpl in E; try case_match|].
    destruct ls as [|l' ls]; cbn [join] in *; by rewrite <- IH.
Qed.

Lemma paragraphs_kept_or_wrapped (lines : list str) : forall in_block,
  Forall2 kept_or_wrapped lines (paragraphs in_block lines).
Proof.
  induction lines as [|line rest IH]; intros in_block; [constructor|].
  cbn [paragraphs].
  repeat case_match; constructor; try apply IH; (by left) || (by right).
Qed.

Lemma lacks_strip (c : N) (s : str) : lacks c s = true -> lacks c (strip s) = true.
Proof.
  intros H. destruct (strip_spec s) as (l & r & Hs & _).
  rewrite Hs in H. rewrite !lacks_app in H.
  by apply andb_true_iff in H as [_ [H _]%andb_true_iff].
Qed.

Lemma startswith_any_lacks (s : str) (c : N) (ps : list str) :
  lacks c s = true ->
  Forall (fun p => exists w, p = c :: w) ps ->
  startswith_any s ps = false.
Proof.
  intros Hs Hps. unfold startswith_any. induction Hps as [|p ps [w ->] _ IH]; [done|].
  cbn [existsb]. rewrite lacks_startswith by done. done.
Qed.

Lemma block_open_tags : Forall (fun p : str => exists w, p = 60%N :: w) block_open.
Proof. unfold block_open. repeat constructor; by eexists. Qed.

Lemma block_close_tags : Forall (fun p : str => exists w, p = 60%N :: w) block_close.
Proof. unfold block_close. repeat constructor; by eexists. Qed.

(** A single line without [<] becomes a paragraph, unless it is blank. *)
Lemma wrap_paragraphs_plain_line (md : str) :
  lacks NL md = true -> lacks 60%N md = true ->
  wrap_paragraphs md
  = if is_empty (strip md) then md else lit "<p>" ++ md ++ lit "</p>".
Proof.
  intros Hnl Hlt. unfold wrap_paragraphs. rewrite split_lacks by done.
  cbn [paragraphs].
  pose proof (lacks_strip _ _ Hlt) as Hs.
  rewrite (startswith_any_lacks _ 60%N block_open Hs block_open_tags).
  rewrite (startswith_any_lacks _ 60%N block_close Hs block_close_tags).
  change (lit "<") with [60%N]. rewrite (lacks_startswith 60%N _ []) by done.
  destruct (is_empty (strip md)); done.
Qed.

(** ** Inert text through the passes *)

Lemma quiet_inert_at fl r (f : N -> bool) (s : str) :
  starts_at fl r f ->
  (forall c, markup_char c = false -> f c = false) ->
  inert true s = true -> quiet fl r None s = true.
Proof.
  intros Hr Hf H. apply (quiet_avoid fl r f Hr). by apply (inert_avoids f true).
Qed.

Lemma quiet_inert_line fl r (f : N -> bool) (s : str) :
  starts_line_at fl r f ->
  (forall c, line_start_char c = false -> f c = false) ->
  inert true s = true -> quiet fl r None s = true.
Proof.
  intros Hr Hf H. apply (quiet_heads fl r f Hr). by apply (inert_line_heads f true).
Qed.

Ltac markup_side :=
  let c := fresh "c" in let Hc := fresh "Hc" in
  intros c Hc;
  first [ by destruct (markup_char_false c Hc) as (?&?&?&?&?&?)
        | by destruct (line_start_char_false c Hc) as (?&?&?) ].

Lemma header_quiet_inert (hashes : string) (s : str) :
  In hashes ["#"; "##"; "###"; "####"]%string ->
  inert true s = true -> quiet re_MULTILINE (re_header hashes) None s = true.
Proof.
  intros Hh H. apply (quiet_inert_line _ _ (fun c => N.eqb c 35)); [|markup_side|done].
  by apply header_starts.
Qed.

(** Every substitution pass returns inert text as it is. *)
Lemma passes_inert (s : str) :
  inert true s = true ->
  pass_h1 s = Ok s /\ pass_h2 s = Ok s /\ pass_h3 s = Ok s /\ pass_h4 s = Ok s
  /\ pass_code_block s = Ok s /\ pass_inline_code s = Ok s /\ pass_bold s = Ok s
  /\ pass_italic s = Ok s /\ pass_link s = Ok s /\ pass_hr s = Ok s
  /\ pass_bullet s = Ok s /\ pass_items s = Ok s /\ pass_numbered s = Ok s
  /\ pass_table s = s /\ pass_emoji s = Ok s.
Proof.
  intros H.
  repeat split.
  - apply re_sub_quiet; [done|]. apply header_quiet_inert; [simpl; tauto|done].
  - apply re_sub_quiet; [done|]. apply header_quiet_inert; [simpl; tauto|done].
  - apply re_sub_quiet; [done|]. apply header_quiet_inert; [simpl; tauto|done].
  - apply re_sub_quiet; [done|]. apply header_quiet_inert; [simpl; tauto|done].
  - apply re_sub_quiet; [done|].
    apply (quiet_inert_at _ _ _ _ code_block_starts); [markup_side|done].
  - apply re_sub_quiet; [done|].
    apply (quiet_inert_at _ _ _ _ inline_code_starts); [markup_side|done].
  - apply re_sub_quiet; [done|].
    apply (quiet_inert_at _ _ _ _ bold_starts); [markup_side|done].
  - apply re_sub_quiet; [done|].
    apply (quiet_inert_at _ _ _ _ italic_starts); [markup_side|done].
  - apply re_sub_quiet; [done|].
    apply (quiet_inert_at _ _ _ _ link_starts); [markup_side|done].
  - apply re_sub_quiet; [done|].
    apply (quiet_inert_line _ _ _ _ hr_starts); [markup_side|done].
  - apply re_sub_quiet; [done|].
    apply (quiet_inert_line _ _ _ _ bullet_starts); [markup_side|done].
  - apply re_sub_quiet; [done|].
    apply (quiet_inert_at _ _ _ _ items_starts); [markup_side|done].
  - apply re_sub_quiet; [done|].
    apply (quiet_inert_line _ _ _ _ numbered_starts); [markup_side|done].
  - unfold pass_table, re_sub_fn. apply sub_go_quiet.
    apply (quiet_inert_at _ _ _ _ table_starts); [markup_side|done].
  - apply re_sub_quiet; [done|].
    apply (quiet_inert_at _ _ _ _ emoji_starts); [markup_side|done].
Qed.

Lemma pass_emoji_avoid (s : str) :
  forallb (fun c => negb (is_emoji c)) s = true -> pass_emoji s = Ok s.
Proof.
  intros H. apply re_sub_quiet; [done|]. by apply (quiet_avoid _ _ _ emoji_starts).
Qed.

Lemma convert_inert_line (md : str) :
  inert true md = true -> lacks NL md = true ->
  convert_markdown_to_html md
  = Ok (if is_empty (strip md) then md else lit "<p>" ++ md ++ lit "</p>").
Proof.
  intros Hin Hnl. rewrite convert_passes.
  destruct (passes_inert md Hin)
    as (H1 & H2 & H3 & H4 & H5 & H6 & H7 & H8 & H9 & H10 & H11 & H12 & H13 & Ht & He).
  rewrite H1, bind_Ok, H2, bind_Ok, H3, bind_Ok, H4, bind_Ok, H5, bind_Ok, H6, bind_Ok,
    H7, bind_Ok, H8, bind_Ok, H9, bind_Ok, H10, bind_Ok, H11, bind_Ok, H12, bind_Ok,
    H13, bind_Ok, Ht.
  rewrite wrap_paragraphs_plain_line; [|done|by apply (inert_lacks 60%N true)].
  destruct (is_empty (strip md)); [done|].
  apply pass_emoji_avoid. rewrite !forallb_app.
  rewrite (inert_avoids is_emoji true md); [done| |done].
  intros c Hc. by destruct (markup_char_false c Hc) as (?&?&?&?&?&?).
Qed.

(** C9: the converter returns a fragment for every input, it raises
    nothing; a pass returns a text in which its pattern matches nowhere as
    it is; the paragraph loop keeps every line or wraps it; and a line of
    inert text comes out as it went in, as a paragraph unless it is blank. *)
Theorem C9_converter_total (md : str) :
  (exists html, convert_markdown_to_html md = Ok html) /\
  (forall fl r tpl (s : str),
     template_ok r tpl = true ->
     (forall i p, match_at fl r p (drop i s) = None) ->
     re_sub fl r tpl s = Ok s) /\
  (forall s : str,
     (forall i p, match_at no_flags re_table p (drop i s) = None) -> pass_table s = s) /\
  (forall in_block (lines : list str),
     Forall2 kept_or_wrapped lines (paragraphs in_block lines)) /\
  (inert true md = true -> lacks NL md = true ->
   convert_markdown_to_html md
   = Ok (if is_empty (strip md) then md else lit "<p>" ++ md ++ lit "</p>")).
Proof.
  split; [apply convert_total|].
  split; [apply re_sub_never|].
  split; [intros s H; unfold pass_table, re_sub_fn; by apply sub_go_never|].
  split; [intros in_block lines; apply paragraphs_kept_or_wrapped|].
  apply convert_inert_line.
Qed.

Lemma C9_converter_total_witness :
  convert_markdown_to_html (lit "Plain text, 100% literal.")
  = Ok (if is_empty (strip (lit "Plain text, 100% literal."))
        then lit "Plain text, 100% literal."
        else lit "<p>" ++ lit "Plain text, 100% literal." ++ lit "</p>").
Proof.
  exact (proj2 (proj2 (proj2 (proj2 (C9_converter_total (lit "Plain text, 100% literal.")))))
           eq_refl eq_refl).
Defined.

(** Malformed markdown comes back as text. *)
Example unclosed_markup_stays :
  convert_markdown_to_html (lit "an *unclosed emphasis and a [link](")
  = Ok (lit "<p>an *unclosed emphasis and a [link](</p>").
Proof. vm_compute. reflexivity. Qed.

(** ** Fenced code blocks *)

Lemma lacks_suffix_startswith (c : N) (s u1 u2 t w : str) :
  lacks c s = true -> s = u1 ++ u2 -> u2 <> [] -> startswith (u2 ++ t) (c :: w) = false.
Proof.
  intros Hs -> Hu2. rewrite lacks_app in Hs. apply andb_true_iff in Hs as [_ Hs].
  destruct u2 as [|x u2]; [done|]. simpl in Hs. apply andb_true_iff in Hs as [Hx _].
  apply negb_true_iff in Hx. simpl. by rewrite Hx.
Qed.

(** The body of a block: the newline after the opening fence, the content
    up to the next fence, and that fence. *)
Lemma code_body_match p (content post : str) cs :
  lacks 96%N content = true ->
  matches re_DOTALL (cats [Chr NL; Grp 2 (lazy_star Any); text (lit "```")])
    (St p (NL :: content ++ lit "```" ++ post) cs) Some
  = Some (St (Some 96%N) post ((2, content) :: cs)).
Proof.
  intros Hc. rewrite matches_cats_cons, matches_chr_eq, matches_cats_cons, matches_grp.
  unfold lazy_star. rewrite matches_rep.
  erewrite (rep_lazy_atom re_DOTALL Any eq_refl _ _ content (lit "```" ++ post)).
  - reflexivity.
  - apply dotall_any_all.
  - lia.
  - simpl. lia.
  - rewrite set_cap_take, matches_cats_cons, matches_text, matches_cats_nil.
    do 3 f_equal. by rewrite take_consumed.
  - intros u1 u2 E Hu2 _. rewrite set_cap_take, matches_cats_cons.
    apply matches_text_fail. change (lit "```") with [96; 96; 96]%N.
    by apply (lacks_suffix_startswith 96%N content u1 u2).
Qed.

Lemma word_atoms (lang : str) :
  forallb is_word lang = true ->
  forallb (atom_mem re_DOTALL (Cls false [Word])) lang = true.
Proof.
  rewrite !forallb_forall. intros H x Hx. cbn. unfold cls_mem. cbn.
  by rewrite (H x Hx).
Qed.

Lemma code_block_match p (lang content post : str) :
  forallb is_word lang = true -> lacks 96%N content = true ->
  exists mo,
    match_at re_DOTALL re_code_block p
      ((lit "```" ++ lang ++ [NL] ++ content ++ lit "```") ++ post)
    = Some (length (lit "```" ++ lang ++ [NL] ++ content ++ lit "```"), mo)
    /\ group mo 2 = content.
Proof.
  intros Hlang Hc.
  assert (Hgo : exists cs,
    matches re_DOTALL re_code_block
      (St p ((lit "```" ++ lang ++ [NL] ++ content ++ lit "```") ++ post) []) Some
    = Some (St (Some 96%N) post ((2, content) :: cs))).
  { unfold re_code_block. rewrite <- !app_assoc.
    rewrite matches_cats_cons, matches_text, matches_cats_cons, matches_opt.
    destruct lang as [|l lang].
    - exists []. cbn [app]. rewrite can_start_sound by (by vm_compute).
      cbn [orelse]. by apply code_body_match.
    - exists [(1, l :: lang)].
      rewrite matches_grp. unfold plus. rewrite matches_rep.
      rewrite <- (app_nil_l ([NL] ++ content ++ lit "```" ++ post)).
      erewrite (rep_greedy_atom re_DOTALL (Cls false [Word]) eq_refl _ _
                  (l :: lang) [] ([NL] ++ content ++ lit "```" ++ post)).
      + reflexivity.
      + rewrite app_nil_r. by apply word_atoms.
      + by vm_compute.
      + simpl. lia.
      + simpl. lia.
      + rewrite app_nil_l, set_cap_take. cbn [app].
        rewrite code_body_match by done. do 4 f_equal.
        change (l :: lang ++ NL :: content ++ lit "```" ++ post)
          with ((l :: lang) ++ NL :: content ++ lit "```" ++ post).
        by rewrite take_consumed.
      + intros v1 v2 Hv Hv1. by destruct v1. }
  destruct Hgo as [cs Hgo]. eexists. split.
  - apply (match_at_intro _ _ _ _ _ _ _ Hgo).
  - done.
Qed.

Lemma pass_code_block_fence (pre lang content post : str) :
  lacks 96%N pre = true ->
  forallb is_word lang = true -> lacks 96%N content = true ->
  pass_code_block (pre ++ (lit "```" ++ lang ++ [NL] ++ content ++ lit "```") ++ post)
  = (rest <- pass_code_block post ;;
     Ok (pre ++ lit "<pre><code>" ++ content ++ lit "</code></pre>" ++ rest)).
Proof.
  intros Hpre Hlang Hc. unfold pass_code_block. rewrite !re_sub_ok by done.
  rewrite bind_Ok. f_equal. unfold re_sub_fn.
  rewrite sub_go_unmatched.
  2: { apply quiet_to_unmatched. by apply (quiet_to_avoid _ _ _ code_block_starts). }
  f_equal.
  destruct (code_block_match (prev_after None pre) lang content post Hlang Hc)
    as (mo & Hm & Hg).
  erewrite sub_go_match; [| | exact Hm].
  2: { change (lit "```") with [96; 96; 96]%N. done. }
  rewrite expand_wrap, Hg. rewrite <- !app_assoc. do 3 f_equal.
  apply (sub_go_prev_indep re_DOTALL re_code_block). done.
Qed.

(** *** Inert content between two texts *)

Lemma heads_ok_around (f : N -> bool) (A content B : str) (b0 : bool) :
  forallb (fun c => negb (f c)) A = true ->
  (forall b, heads_ok f b content = true) ->
  forallb (fun c => negb (f c)) B = true ->
  heads_ok f b0 (A ++ content ++ B) = true.
Proof.
  intros HA Hc HB. rewrite !heads_ok_app.
  rewrite (heads_ok_avoid f A) by done. rewrite Hc.
  by rewrite (heads_ok_avoid f B) by done.
Qed.

Lemma quiet_around_at fl r (f : N -> bool) (A content B : str) :
  starts_at fl r f ->
  (forall c, markup_char c = false -> f c = false) ->
  forallb (fun c => negb (f c)) A = true ->
  inert true content = true ->
  forallb (fun c => negb (f c)) B = true ->
  quiet fl r None (A ++ content ++ B) = true.
Proof.
  intros Hr Hf HA Hc HB. apply (quiet_avoid fl r f Hr).
  rewrite !forallb_app, HA, HB. by rewrite (inert_avoids f true content).
Qed.

Lemma quiet_around_line fl r (f : N -> bool) (A content B : str) :
  starts_line_at fl r f ->
  (forall c, line_start_char c = false -> f c = false) ->
  forallb (fun c => negb (f c)) A = true ->
  inert true content = true ->
  forallb (fun c => negb (f c)) B = true ->
  quiet fl r None (A ++ content ++ B) = true.
Proof.
  intros Hr Hf HA Hc HB. apply (quiet_heads fl r f Hr).
  apply heads_ok_around; [done| |done].
  intros b. by apply (inert_line_heads f true b).
Qed.

Lemma word_avoids (f : N -> bool) (lang : str) :
  (forall c, f c = true -> is_word c = false) ->
  forallb is_word lang = true -> forallb (fun c => negb (f c)) lang = true.
Proof.
  intros Hf. rewrite !forallb_forall. intros H x Hx. specialize (H x Hx).
  apply negb_true_iff. destruct (f x) eqn:E; [|done]. apply Hf in E. congruence.
Qed.

Lemma hash_not_word (c : N) : N.eqb c 35 = true -> is_word c = false.
Proof. intros ->%N.eqb_eq. by vm_compute. Qed.

(** The header passes leave a fence with inert content as it is. *)
Lemma header_quiet_fence (hashes : string) (lang content : str) :
  In hashes ["#"; "##"; "###"; "####"]%string ->
  forallb is_word lang = true -> inert true content = true ->
  quiet re_MULTILINE (re_header hashes) None
    ((lit "```" ++ lang ++ [NL]) ++ content ++ lit "```") = true.
Proof.
  intros Hh Hlang Hc.
  apply (quiet_around_line _ _ (fun c => N.eqb c 35)); try done.
  - by apply header_starts.
  - markup_side.
  - rewrite !forallb_app. rewrite (word_avoids _ lang hash_not_word Hlang). done.
Qed.

(** *** The paragraph loop inside a block *)

Lemma split_nonempty (c : N) (s : str) : exists l ls, split c s = l :: ls.
Proof.
  induction s as [|x s (l & ls & IH)]; [by eexists _, _|].
  cbn [split]. rewrite IH. destruct (N.eqb x c); by eexists _, _.
Qed.

Lemma split_prefix (c : N) (a X : str) :
  lacks c a = true ->
  split c (a ++ X) = (a ++ hd [] (split c X)) :: tl (split c X).
Proof.
  induction a as [|x a IH].
  - intros _. cbn [app]. by destruct (split_nonempty c X) as (l & ls & ->).
  - cbn [lacks forallb app split]. intros [Hx Ha]%andb_true_iff.
    apply negb_true_iff in Hx. rewrite Hx. unfold lacks in IH. by rewrite IH.
Qed.

Lemma lstrip_app_nonspace (u v : str) (c : N) :
  is_space c = false -> lstrip (u ++ c :: v) = lstrip u ++ c :: v.
Proof.
  intros Hc. induction u as [|x u IH]; cbn [app lstrip].
  - by rewrite Hc.
  - by destruct (is_space x).
Qed.

Lemma rstrip_app_nonspace (a b : str) (c : N) :
  is_space c = false -> rstrip (a ++ c :: b) = a ++ c :: rstrip b.
Proof.
  intros Hc. unfold rstrip. rewrite rev_app_distr. cbn [rev].
  rewrite <- app_assoc. cbn [app]. rewrite lstrip_app_nonspace by done.
  rewrite rev_app_distr. cbn [rev]. rewrite rev_involutive.
  by rewrite <- app_assoc.
Qed.

Lemma startswith_rstrip (s q : str) :
  startswith s q = false -> startswith (rstrip s) q = false.
Proof.
  intros H. destruct (startswith (rstrip s) q) eqn:E; [|done].
  destruct (rstrip_spec s) as (r & Hs & _).
  apply (startswith_app_l _ r) in E. rewrite <- Hs in E. congruence.
Qed.

(** A line that starts, after blanks, with another character than [<]
    neither opens nor closes a block. *)
Lemma strip_no_tag (l : str) (ps : list str) :
  Forall (fun p : str => exists w, p = 60%N :: w) ps ->
  (forall q, In q ps -> startswith (lstrip l) q = false) ->
  startswith_any (strip l) ps = false.
Proof.
  intros _ H. unfold startswith_any, strip.
  induction ps as [|q ps IH]; [done|].
  cbn [existsb]. rewrite startswith_rstrip by (apply H; by left).
  apply IH. intros q' Hq'. apply H. by right.
Qed.

Lemma lstrip_cons_no_tag (x : N) (l q : str) :
  N.eqb x 60 = false ->
  startswith (lstrip l) (60%N :: q) = false ->
  startswith (lstrip (x :: l)) (60%N :: q) = false.
Proof.
  intros Hx Hl. cbn [lstrip]. destruct (is_space x); [done|].
  cbn [startswith]. by rewrite Hx.
Qed.

(** The lines of inert content, with the closing tags of the block after
    the last, close no block. *)
Lemma block_lines_close_nothing (content : str) :
  lacks 60%N content = true ->
  Forall (fun l => forall q, In q block_close -> startswith (lstrip l) q = false)
    (split NL (content ++ lit "</code></pre>")).
Proof.
  induction content as [|x content IH].
  - intros _. rewrite app_nil_l. rewrite split_lacks by done.
    constructor; [|done]. intros q Hq. unfold block_close in Hq.
    repeat (destruct Hq as [<-|Hq]; [by vm_compute|]). destruct Hq.
  - cbn [lacks forallb app]. intros [Hx Hc]%andb_true_iff. apply negb_true_iff in Hx.
    specialize (IH Hc). cbn [split].
    destruct (split_nonempty NL (content ++ lit "</code></pre>")) as (l & ls & E).
    rewrite E in *. inversion IH as [|? ? Hl Hls]; subst.
    destruct (N.eqb x NL).
    + constructor; [|done]. intros q Hq. unfold block_close in Hq.
      repeat (destruct Hq as [<-|Hq]; [by vm_compute|]). destruct Hq.
    + constructor; [|done]. intros q Hq.
      assert (exists w, q = 60%N :: w) as [w ->].
      { pose proof block_close_tags as Ht. rewrite Forall_forall in Ht.
        apply Ht. by apply list_elem_of_In. }
      apply lstrip_cons_no_tag; [done|]. by apply Hl.
Qed.

Lemma paragraphs_in_block (lines : list str) :
  Forall (fun l => forall q, In q block_close -> startswith (lstrip l) q = false) lines ->
  paragraphs true lines = lines.
Proof.
  induction 1 as [|l lines Hl _ IH]; [done|].
  cbn [paragraphs]. rewrite (strip_no_tag l block_close block_close_tags Hl).
  cbn [negb andb]. rewrite IH. by repeat case_match.
Qed.

Lemma wrap_paragraphs_block (content : str) :
  lacks 60%N content = true ->
  wrap_paragraphs (lit "<pre><code>" ++ content ++ lit "</code></pre>")
  = lit "<pre><code>" ++ content ++ lit "</code></pre>".
Proof.
  intros Hc. unfold wrap_paragraphs.
  rewrite <- (join_split (lit "<pre><code>" ++ content ++ lit "</code></pre>")) at 2.
  f_equal. rewrite split_prefix by done.
  pose proof (block_lines_close_nothing content Hc) as Hlines.
  destruct (split_nonempty NL (content ++ lit "</code></pre>")) as (l & ls & E).
  rewrite E in *. cbn [hd tl]. inversion Hlines as [|? ? Hl Hls]; subst.
  cbn [paragraphs].
  assert (Hopen : startswith_any (strip (lit "<pre><code>" ++ l)) block_open = true).
  { unfold startswith_any. apply existsb_exists. exists (lit "<pre>"). split.
    - unfold block_open. simpl. tauto.
    - unfold strip. change (lit "<pre><code>" ++ l) with (60%N :: (lit "pre><code>" ++ l)).
      rewrite lstrip_nonspace by done.
      change (60%N :: lit "pre><code>" ++ l) with (lit "<pre" ++ 62%N :: (lit "<code>" ++ l)).
      rewrite rstrip_app_nonspace by done.
      change (lit "<pre" ++ 62%N :: ?x) with (lit "<pre>" ++ x). apply startswith_app. }
  rewrite Hopen. f_equal. by apply paragraphs_in_block.
Qed.

(** *** The passes after the code-block pass *)

Ltac compute_lit s :=
  let v := eval vm_compute in (lit s) in change (lit s) with v.

Lemma pass_items_block (content : str) :
  lacks 60%N content = true ->
  pass_items (lit "<pre><code>" ++ content ++ lit "</code></pre>")
  = Ok (lit "<pre><code>" ++ content ++ lit "</code></pre>").
Proof.
  intros Hc. unfold pass_items. rewrite re_sub_ok by done. f_equal. unfold re_sub_fn.
  rewrite sub_go_unmatched.
  2: { compute_lit "<pre><code>"%string. cbn [unmatched app].
       repeat split; apply items_needs_open; reflexivity. }
  f_equal. rewrite sub_go_unmatched.
  2: { apply quiet_to_unmatched. by apply (quiet_to_avoid _ _ _ items_starts). }
  apply (f_equal (app content)). rewrite <- (app_nil_r (lit "</code></pre>")) at 1.
  rewrite sub_go_unmatched.
  2: { compute_lit "</code></pre>"%string. cbn [unmatched app].
       repeat split; apply items_needs_open; reflexivity. }
  rewrite sub_go_end; [by rewrite app_nil_r|].
  apply match_at_cannot_start. apply items_starts.
Qed.

Lemma passes_block (content : str) :
  inert true content = true ->
  let T := lit "<pre><code>" ++ content ++ lit "</code></pre>" in
  pass_inline_code T = Ok T /\ pass_bold T = Ok T /\ pass_italic T = Ok T
  /\ pass_link T = Ok T /\ pass_hr T = Ok T /\ pass_bullet T = Ok T
  /\ pass_items T = Ok T /\ pass_numbered T = Ok T /\ pass_table T = T
  /\ wrap_paragraphs T = T /\ pass_emoji T = Ok T.
Proof.
  intros Hc T. unfold T.
  pose proof (inert_lacks 60%N true content eq_refl Hc) as Hlt.
  repeat split.
  - apply re_sub_quiet; [done|].
    apply (quiet_around_at _ _ _ _ _ _ inline_code_starts); try done. markup_side.
  - apply re_sub_quiet; [done|].
    apply (quiet_around_at _ _ _ _ _ _ bold_starts); try done. markup_side.
  - apply re_sub_quiet; [done|].
    apply (quiet_around_at _ _ _ _ _ _ italic_starts); try done. markup_side.
  - apply re_sub_quiet; [done|].
    apply (quiet_around_at _ _ _ _ _ _ link_starts); try done. markup_side.
  - apply re_sub_quiet; [done|].
    apply (quiet_around_line _ _ _ _ _ _ hr_starts); try done. markup_side.
  - apply re_sub_quiet; [done|].
    apply (quiet_around_line _ _ _ _ _ _ bullet_starts); try done. markup_side.
  - by apply pass_items_block.
  - apply re_sub_quiet; [done|].
    apply (quiet_around_line _ _ _ _ _ _ numbered_starts); try done. markup_side.
  - unfold pass_table, re_sub_fn. apply sub_go_quiet.
    apply (quiet_around_at _ _ _ _ _ _ table_starts); try done. markup_side.
  - by apply wrap_paragraphs_block.
  - apply re_sub_quiet; [done|].
    apply (quiet_around_at _ _ _ _ _ _ emoji_starts); try done. markup_side.
Qed.

Lemma convert_fence (lang content : str) :
  forallb is_word lang = true -> inert true content = true ->
  convert_markdown_to_html (lit "```" ++ lang ++ [NL] ++ content ++ lit "```")
  = Ok (lit "<pre><code>" ++ content ++ lit "</code></pre>").
Proof.
  intros Hlang Hc. rewrite convert_passes.
  assert (Hh : forall hashes tpl,
            In hashes ["#"; "##"; "###"; "####"]%string ->
            template_ok (re_header hashes) tpl = true ->
            re_sub re_MULTILINE (re_header hashes) tpl
              (lit "```" ++ lang ++ [NL] ++ content ++ lit "```")
            = Ok (lit "```" ++ lang ++ [NL] ++ content ++ lit "```")).
  { intros hashes tpl Hin Ht. apply re_sub_quiet; [done|].
    pose proof (header_quiet_fence hashes lang content Hin Hlang Hc) as Hq.
    by rewrite <- !app_assoc in Hq. }
  unfold pass_h1, pass_h2, pass_h3, pass_h4.
  rewrite (Hh "#"%string), bind_Ok by (done || (simpl; tauto)).
  rewrite (Hh "##"%string), bind_Ok by (done || (simpl; tauto)).
  rewrite (Hh "###"%string), bind_Ok by (done || (simpl; tauto)).
  rewrite (Hh "####"%string), bind_Ok by (done || (simpl; tauto)).
  pose proof (pass_code_block_fence [] lang content [] eq_refl Hlang
                (inert_lacks 96%N true content eq_refl Hc)) as Hcode.
  rewrite app_nil_l, app_nil_r in Hcode. rewrite Hcode.
  assert (pass_code_block [] = Ok []) as -> by (by vm_compute).
  rewrite !bind_Ok. rewrite app_nil_l, app_nil_r.
  destruct (passes_block content Hc)
    as (H6 & H7 & H8 & H9 & H10 & H11 & H12 & H13 & Ht & Hp & He).
  rewrite H6, bind_Ok, H7, bind_Ok, H8, bind_Ok, H9, bind_Ok, H10, bind_Ok, H11, bind_Ok,
    H12, bind_Ok, H13, bind_Ok, Ht, Hp. exact He.
Qed.

(** C2, as the code has it: the code-block pass puts the content of a
    fenced block (text without backtick, behind a fence with an optional
    language word) unchanged between [<pre><code>] and [</code></pre>],
    wherever the block stands; the other passes work on that content as on
    any text, so through the whole converter the content of a block is kept
    as it is when it is inert: no backtick, [*], [[], [|], [<] or emoji
    in it, and no line of it starting with [#], [-] or a digit. *)
Theorem C2_code_block_content :
  (forall pre lang content post : str,
     lacks 96%N pre = true ->
     forallb is_word lang = true -> lacks 96%N content = true ->
     pass_code_block (pre ++ (lit "```" ++ lang ++ [NL] ++ content ++ lit "```") ++ post)
     = (rest <- pass_code_block post ;;
        Ok (pre ++ lit "<pre><code>" ++ content ++ lit "</code></pre>" ++ rest))) /\
  (forall lang content : str,
     forallb is_word lang = true -> inert true content = true ->
     convert_markdown_to_html (lit "```" ++ lang ++ [NL] ++ content ++ lit "```")
     = Ok (lit "<pre><code>" ++ content ++ lit "</code></pre>")).
Proof.
  split; [apply pass_code_block_fence|apply convert_fence].
Qed.

Lemma C2_code_block_content_witness :
  convert_markdown_to_html
    (lit "```" ++ lit "c" ++ [NL]
     ++ (lit "int main(void) {" ++ [NL] ++ lit "    return fp_sum(xs, 5) - 15;" ++ [NL]
         ++ lit "}" ++ [NL])
     ++ lit "```")
  = Ok (lit "<pre><code>"
        ++ (lit "int main(void) {" ++ [NL] ++ lit "    return fp_sum(xs, 5) - 15;" ++ [NL]
            ++ lit "}" ++ [NL])
        ++ lit "</code></pre>").
Proof.
  exact (proj2 C2_code_block_content (lit "c")
           (lit "int main(void) {" ++ [NL] ++ lit "    return fp_sum(xs, 5) - 15;" ++ [NL]
            ++ lit "}" ++ [NL]) eq_refl eq_refl).
Defined.

(** C2, as the claim states it, fails: the passes that run after the
    code-block pass rewrite asterisks inside the block. *)
Lemma C2_emphasis_inside_code_block :
  convert_markdown_to_html (lit "```" ++ [NL] ++ lit "a*b*c" ++ [NL] ++ lit "```")
  = Ok (lit "<pre><code>a<em>b</em>c" ++ [NL] ++ lit "</code></pre>").
Proof. vm_compute. reflexivity. Qed.

(** So do the header passes, which run before it, and the link pass. *)
Example comment_and_index_inside_code_block :
  convert_markdown_to_html
    (lit "```py" ++ [NL] ++ lit "# setup" ++ [NL] ++ lit "x = a[0](b)" ++ [NL] ++ lit "```")
  = Ok (lit "<pre><code><h1>setup</h1>" ++ [NL] ++ lit "x = a<a href=" ++ Q ++ lit "b" ++ Q
        ++ lit ">0</a>" ++ [NL] ++ lit "</code></pre>").
Proof. vm_compute. reflexivity. Qed.

(** ** A second run of the converter over its own output *)

(** *** The paragraph loop on lines it has written *)

Lemma strip_wrapped (line : str) :
  strip (lit "<p>" ++ line ++ lit "</p>") = lit "<p>" ++ line ++ lit "</p>".
Proof.
  assert (E : lit "<p>" ++ line ++ lit "</p>"
              = (lit "<p>" ++ line ++ [60%N; 47%N; 112%N]) ++ 62%N :: []).
  { rewrite <- !app_assoc. reflexivity. }
  unfold strip. change (lit "<p>") with ([60%N] ++ [112%N; 62%N]) at 1.
  rewrite <- app_assoc. cbn [app]. rewrite lstrip_nonspace by reflexivity.
  change (60%N :: 112%N :: 62%N :: line ++ lit "</p>") with (lit "<p>" ++ line ++ lit "</p>").
  rewrite E at 1. rewrite rstrip_app_nonspace by reflexivity.
  change (rstrip []) with (@nil N). by rewrite <- E.
Qed.

Lemma wrapped_line_kept (line : str) :
  let W := lit "<p>" ++ line ++ lit "</p>" in
  startswith_any W block_open = false /\ startswith_any W block_close = false
  /\ is_empty W = false /\ startswith W (lit "<") = true.
Proof.
  change (lit "<p>") with [60%N; 112%N; 62%N]. cbn [app].
  repeat split; reflexivity.
Qed.

Lemma paragraphs_idem (lines : list str) : forall in_block,
  paragraphs in_block (paragraphs in_block lines) = paragraphs in_block lines.
Proof.
  induction lines as [|line rest IH]; intros in_block; [done|].
  cbn [paragraphs].
  destruct (startswith_any (strip line) block_open) eqn:E1.
  { cbn [paragraphs]. by rewrite E1, IH. }
  destruct (startswith_any (strip line) block_close) eqn:E2.
  { cbn [paragraphs]. by rewrite E1, E2, IH. }
  destruct (is_empty (strip line)) eqn:E3.
  { cbn [paragraphs]. by rewrite E1, E2, E3, IH. }
  destruct (negb in_block && negb false && negb (startswith (strip line) (lit "<"))) eqn:E4.
  - cbn [paragraphs]. rewrite strip_wrapped.
    destruct (wrapped_line_kept line) as (-> & -> & -> & ->).
    cbn [negb]. rewrite andb_false_r. by rewrite IH.
  - cbn [paragraphs]. by rewrite E1, E2, E3, E4, IH.
Qed.

Lemma split_lines_lack (s : str) : Forall (fun l => lacks NL l = true) (split NL s).
Proof.
  induction s as [|c s IH]; [by repeat constructor|].
  cbn [split]. destruct (N.eqb_spec c NL) as [->|Hc]; [by constructor|].
  assert (Hx : negb (N.eqb c NL) = true) by (by apply negb_true_iff, N.eqb_neq).
  destruct (split NL s) as [|l ls].
  - constructor; [|constructor]. cbn [lacks forallb]. by rewrite Hx.
  - inversion IH; subst. constructor; [|done].
    cbn [lacks forallb]. rewrite Hx. done.
Qed.

Lemma paragraphs_lines_lack (lines : list str) : forall in_block,
  Forall (fun l => lacks NL l = true) lines ->
  Forall (fun l => lacks NL l = true) (paragraphs in_block lines).
Proof.
  induction lines as [|line rest IH]; intros in_block H; [done|].
  inversion H as [|? ? Hl Hrest]; subst. cbn [paragraphs].
  repeat case_match; constructor; try (by apply IH); try done.
  all: unfold lacks; rewrite !forallb_app; fold (lacks NL line); by rewrite Hl.
Qed.

Lemma paragraphs_length (lines : list str) : forall in_block,
  length (paragraphs in_block lines) = length lines.
Proof.
  induction lines as [|line rest IH]; intros in_block; [done|].
  cbn [paragraphs]. repeat case_match; cbn [length]; by rewrite IH.
Qed.

Lemma split_join (lines : list str) :
  lines <> [] -> Forall (fun l => lacks NL l = true) lines ->
  split NL (join [NL] lines) = lines.
Proof.
  induction lines as [|l ls IH]; [done|]. intros _ H.
  inversion H as [|? ? Hl Hls]; subst.
  destruct ls as [|l' ls].
  - cbn [join]. by apply split_lacks.
  - change (join [NL] (l :: l' :: ls)) with (l ++ NL :: join [NL] (l' :: ls)).
    rewrite split_app by done. by rewrite IH.
Qed.

Lemma wrap_paragraphs_idem (y : str) :
  wrap_paragraphs (wrap_paragraphs y) = wrap_paragraphs y.
Proof.
  unfold wrap_paragraphs. rewrite split_join.
  - by rewrite paragraphs_idem.
  - intros E. apply (f_equal length) in E. rewrite paragraphs_length in E.
    destruct (split_nonempty NL y) as (l & ls & El). by rewrite El in E.
  - apply paragraphs_lines_lack, split_lines_lack.
Qed.

(** *** The emoji pass keeps every emoji it wraps *)

Lemma emoji_match p (c : N) (s : str) :
  is_emoji c = true ->
  exists mo, match_at no_flags emoji_pattern p (c :: s) = Some (1, mo) /\ group mo 1 = [c].
Proof.
  unfold is_emoji. intros H. unfold match_at, emoji_pattern.
  cbn. unfold cls_mem. cbn. rewrite !orb_false_r.
  assert (Hn : S (length s) - length s = 1) by lia.
  destruct ((127744 <=? c)%N && (c <=? 129535)%N);
    [|destruct ((9728 <=? c)%N && (c <=? 9983)%N);
      [|destruct ((9984 <=? c)%N && (c <=? 10175)%N); [|done]]].
  all: cbn; rewrite Hn; eexists; split; [reflexivity|]; reflexivity.
Qed.

Lemma emoji_pass_cons p (c : N) (s : str) :
  sub_go no_flags emoji_pattern (expand emoji_template) 0 p (c :: s)
  = if is_emoji c
    then lit "<span class=" ++ [QUOTE] ++ lit "emoji" ++ [QUOTE] ++ lit ">" ++ [c]
         ++ lit "</span>" ++ sub_go no_flags emoji_pattern (expand emoji_template) 0 (Some c) s
    else c :: sub_go no_flags emoji_pattern (expand emoji_template) 0 (Some c) s.
Proof.
  destruct (is_emoji c) eqn:E.
  - destruct (emoji_match p c s E) as (mo & Hm & Hg).
    cbn [sub_go]. rewrite Hm. unfold expand, emoji_template.
    cbn [map concat]. rewrite Hg. unfold t. rewrite app_nil_r.
    by rewrite <- !app_assoc.
  - cbn [sub_go]. rewrite match_at_cannot_start; [done|].
    by apply emoji_starts.
Qed.

Lemma emoji_pass_keeps_emoji (s : str) : forall p,
  forallb (fun c => negb (is_emoji c))
    (sub_go no_flags emoji_pattern (expand emoji_template) 0 p s) = true ->
  forallb (fun c => negb (is_emoji c)) s = true.
Proof.
  induction s as [|c s IH]; intros p; [done|].
  rewrite emoji_pass_cons. destruct (is_emoji c) eqn:E.
  - rewrite !forallb_app. cbn [forallb]. rewrite E. cbn [negb andb].
    rewrite !andb_false_r. done.
  - cbn [forallb]. rewrite E. cbn [negb andb]. apply IH.
Qed.

Lemma pass_emoji_plain_output (s h : str) :
  pass_emoji s = Ok h -> forallb (fun c => negb (is_emoji c)) h = true -> h = s.
Proof.
  intros H Hh. unfold pass_emoji in H. rewrite re_sub_ok in H by done.
  injection H as <-. unfold re_sub_fn in *.
  apply emoji_pass_keeps_emoji in Hh.
  apply sub_go_quiet. by apply (quiet_avoid _ _ _ emoji_starts).
Qed.

(** The converter's result is what the emoji pass makes of the output of
    the paragraph loop. *)
Lemma convert_output (x h : str) :
  convert_markdown_to_html x = Ok h ->
  exists y, pass_emoji (wrap_paragraphs y) = Ok h.
Proof.
  rewrite convert_passes.
  unfold pass_h1, pass_h2, pass_h3, pass_h4, pass_code_block, pass_inline_code, pass_bold,
    pass_italic, pass_link, pass_hr, pass_bullet, pass_items, pass_numbered.
  repeat (rewrite re_sub_ok by done; rewrite bind_Ok).
  intros H. by eexists.
Qed.

(** *** The patterns on output without markdown in it *)

Lemma markdown_free_parts (h : str) :
  markdown_free h = true ->
  forallb (fun c => negb (markdown_char c || is_emoji c)) h = true
  /\ heads_ok line_start_char true h = true
  /\ contains h (lit "<li>") = false.
Proof.
  unfold markdown_free. intros [[H1 H2]%andb_true_iff H3%negb_true_iff]%andb_true_iff.
  done.
Qed.

Lemma markdown_free_avoids (f : N -> bool) (h : str) :
  (forall c, f c = true -> markdown_char c || is_emoji c = true) ->
  markdown_free h = true -> forallb (fun c => negb (f c)) h = true.
Proof.
  intros Hf (H & _ & _)%markdown_free_parts.
  by apply (forallb_weaken f (fun c => markdown_char c || is_emoji c)).
Qed.

Lemma markdown_free_heads (f : N -> bool) (h : str) :
  (forall c, f c = true -> line_start_char c = true) ->
  markdown_free h = true -> heads_ok f true h = true.
Proof.
  intros Hf (_ & H & _)%markdown_free_parts.
  by apply (heads_ok_weaken f line_start_char h Hf true true).
Qed.

Ltac char_side :=
  let c := fresh "c" in let Hc := fresh "Hc" in
  intros c Hc; unfold markdown_char, line_start_char;
  first [ apply N.eqb_eq in Hc; subst c; reflexivity
        | rewrite Hc; by rewrite ?orb_true_r ].

Lemma passes_markdown_free (h : str) :
  markdown_free h = true ->
  pass_h1 h = Ok h /\ pass_h2 h = Ok h /\ pass_h3 h = Ok h /\ pass_h4 h = Ok h
  /\ pass_code_block h = Ok h /\ pass_inline_code h = Ok h /\ pass_bold h = Ok h
  /\ pass_italic h = Ok h /\ pass_link h = Ok h /\ pass_hr h = Ok h
  /\ pass_bullet h = Ok h /\ pass_items h = Ok h /\ pass_numbered h = Ok h
  /\ pass_table h = h /\ pass_emoji h = Ok h.
Proof.
  intros H.
  assert (Hh : forall hashes, In hashes ["#"; "##"; "###"; "####"]%string ->
               quiet re_MULTILINE (re_header hashes) None h = true).
  { intros hashes Hin. apply (quiet_heads _ _ _ (header_starts hashes Hin)).
    apply markdown_free_heads; [char_side|done]. }
  repeat split.
  - apply re_sub_quiet; [done|]. apply Hh. simpl; tauto.
  - apply re_sub_quiet; [done|]. apply Hh. simpl; tauto.
  - apply re_sub_quiet; [done|]. apply Hh. simpl; tauto.
  - apply re_sub_quiet; [done|]. apply Hh. simpl; tauto.
  - apply re_sub_quiet; [done|]. apply (quiet_avoid _ _ _ code_block_starts).
    apply markdown_free_avoids; [char_side|done].
  - apply re_sub_quiet; [done|]. apply (quiet_avoid _ _ _ inline_code_starts).
    apply markdown_free_avoids; [char_side|done].
  - apply re_sub_quiet; [done|]. apply (quiet_avoid _ _ _ bold_starts).
    apply markdown_free_avoids; [char_side|done].
  - apply re_sub_quiet; [done|]. apply (quiet_avoid _ _ _ italic_starts).
    apply markdown_free_avoids; [char_side|done].
  - apply re_sub_quiet; [done|]. apply (quiet_avoid _ _ _ link_starts).
    apply markdown_free_avoids; [char_side|done].
  - apply re_sub_quiet; [done|]. apply (quiet_heads _ _ _ hr_starts).
    apply markdown_free_heads; [char_side|done].
  - apply re_sub_quiet; [done|]. apply (quiet_heads _ _ _ bullet_starts).
    apply markdown_free_heads; [char_side|done].
  - apply re_sub_never; [done|]. intros i p. apply items_needs_open.
    apply contains_false_drop. by apply markdown_free_parts in H as (_ & _ & H).
  - apply re_sub_quiet; [done|]. apply (quiet_heads _ _ _ numbered_starts).
    apply markdown_free_heads; [char_side|done].
  - unfold pass_table, re_sub_fn. apply sub_go_quiet.
    apply (quiet_avoid _ _ _ table_starts). apply markdown_free_avoids; [char_side|done].
  - apply pass_emoji_avoid. apply markdown_free_avoids; [char_side|done].
Qed.

(** C4, as the code has it: an output [h] of the converter that has no
    markdown-special character in it (backtick, [*], [[], [|]), no line
    starting with [#], [-] or a digit, and moreover no emoji and no
    list-item markup [<li>], comes out of a second run of the converter
    as it went in. *)
Theorem C4_second_run_keeps_plain_output (x h : str) :
  convert_markdown_to_html x = Ok h ->
  markdown_free h = true ->
  convert_markdown_to_html h = Ok h.
Proof.
  intros Hx Hf.
  destruct (convert_output x h Hx) as (y & Hy).
  assert (Hw : h = wrap_paragraphs y).
  { apply (pass_emoji_plain_output _ _ Hy). apply markdown_free_avoids; [|done].
    intros c ->. by rewrite orb_true_r. }
  rewrite convert_passes.
  destruct (passes_markdown_free h Hf)
    as (H1 & H2 & H3 & H4 & H5 & H6 & H7 & H8 & H9 & H10 & H11 & H12 & H13 & Ht & He).
  rewrite H1, bind_Ok, H2, bind_Ok, H3, bind_Ok, H4, bind_Ok, H5, bind_Ok, H6, bind_Ok,
    H7, bind_Ok, H8, bind_Ok, H9, bind_Ok, H10, bind_Ok, H11, bind_Ok, H12, bind_Ok,
    H13, bind_Ok, Ht.
  rewrite Hw at 1. rewrite wrap_paragraphs_idem. by rewrite <- Hw.
Qed.

Lemma C4_second_run_keeps_plain_output_witness :
  convert_markdown_to_html
    (lit "<p>Call <code>fp_sum</code> first.</p>" ++ [NL; NL] ++ lit "<h2>Usage</h2>"
     ++ [NL; NL] ++ lit "<hr>")
  = Ok (lit "<p>Call <code>fp_sum</code> first.</p>" ++ [NL; NL] ++ lit "<h2>Usage</h2>"
        ++ [NL; NL] ++ lit "<hr>").
Proof.
  apply (C4_second_run_keeps_plain_output
           (lit "Call `fp_sum` first." ++ [NL; NL] ++ lit "## Usage" ++ [NL; NL] ++ lit "---")).
  - vm_compute. reflexivity.
  - vm_compute. reflexivity.
Defined.

(** C4, as the claim states it, fails: the output for one bullet line has
    none of the markdown-special characters, and a second run wraps its
    list in a second list container. *)
Lemma C4_list_wrapped_again :
  convert_markdown_to_html (lit "- a") = Ok (lit "<ul><li>a</li></ul>")
  /\ forallb (fun c => negb (markdown_char c)) (lit "<ul><li>a</li></ul>") = true
  /\ heads_ok line_start_char true (lit "<ul><li>a</li></ul>") = true
  /\ convert_markdown_to_html (lit "<ul><li>a</li></ul>")
     = Ok (lit "<ul><ul><li>a</li></ul></ul>").
Proof. repeat split; vm_compute; reflexivity. Qed.

(** An emoji is wrapped in a second span. *)
Example emoji_wrapped_again :
  convert_markdown_to_html [0x2705%N]
  = Ok (lit "<p><span class=" ++ Q ++ lit "emoji" ++ Q ++ lit ">" ++ [0x2705%N]
        ++ lit "</span></p>")
  /\ convert_markdown_to_html
       (lit "<p><span class=" ++ Q ++ lit "emoji" ++ Q ++ lit ">" ++ [0x2705%N]
        ++ lit "</span></p>")
     = Ok (lit "<p><span class=" ++ Q ++ lit "emoji" ++ Q ++ lit ">"
           ++ lit "<span class=" ++ Q ++ lit "emoji" ++ Q ++ lit ">" ++ [0x2705%N]
           ++ lit "</span></span></p>").
Proof. split; vm_compute; reflexivity. Qed.

(** ** The line passes: headings, rules, list items *)

(** *** A match on a line, in its context *)

Lemma at_bol_multiline p (s : str) cs :
  at_bol re_MULTILINE (St p s cs) = bol_of p.
Proof. by destruct p. Qed.

Lemma at_eol_multiline p (post : str) cs :
  at_eol re_MULTILINE (St p post cs) = line_end post.
Proof.
  destruct post as [|c post]; [done|]. unfold at_eol. cbn [m_rest line_end].
  cbn. by rewrite andb_true_r.
Qed.

Lemma line_end_stops (post : str) :
  line_end post = true -> stops re_MULTILINE Any post = true.
Proof.
  destruct post as [|c post]; [done|]. cbn. by intros ->.
Qed.

Lemma lacks_NL_any (txt : str) :
  lacks NL txt = true -> forallb (atom_mem re_MULTILINE Any) txt = true.
Proof. done. Qed.

(** The end of the line patterns: [(.+)$] takes the rest of the line. *)
Lemma line_rest_match p (txt post : str) cs :
  txt <> [] -> lacks NL txt = true -> line_end post = true ->
  matches re_MULTILINE (cats [Grp 1 (plus Any); Eol]) (St p (txt ++ post) cs) Some
  = Some (St (prev_after p txt) post ((1, txt) :: cs)).
Proof.
  intros Hne Hnl Hend.
  rewrite matches_cats_cons, matches_grp. unfold plus. rewrite matches_rep.
  rewrite <- (app_nil_l post) at 1.
  erewrite (rep_greedy_atom re_MULTILINE Any eq_refl _ _ txt [] post).
  - reflexivity.
  - rewrite app_nil_r. by apply lacks_NL_any.
  - by apply line_end_stops.
  - destruct txt; [done|]. simpl. lia.
  - simpl. rewrite !length_app. simpl. lia.
  - rewrite app_nil_l, set_cap_take, matches_cats_cons, matches_eol, at_eol_multiline, Hend.
    rewrite matches_cats_nil. by rewrite take_consumed.
  - intros v1 v2 Hv Hv1. by destruct v1.
Qed.

Lemma sub_go_line_end fl r f (g : N -> bool) (post : str) p :
  starts_line_at fl r g -> g NL = false -> line_end post = true ->
  sub_go fl r f 0 p post = sub_go fl r f 0 None post.
Proof.
  intros [Hc He] Hg Hend. destruct post as [|c post].
  - simpl. by rewrite !match_at_cannot_start by apply He.
  - simpl in Hend. apply N.eqb_eq in Hend as ->. simpl.
    rewrite !match_at_cannot_start; [done| |]; apply Hc; by rewrite Hg, andb_false_r.
Qed.

(** A line the pattern matches, after lines it cannot start on and before
    the end of the line: the replacement is written and the pass goes on
    behind the line. *)
Lemma re_sub_line fl r (g : N -> bool) tpl (pre w post : str) mo :
  starts_line_at fl r g -> g NL = false ->
  template_ok r tpl = true ->
  heads_ok g true pre = true ->
  w <> [] ->
  match_at fl r (prev_after None pre) (w ++ post) = Some (length w, mo) ->
  line_end post = true ->
  re_sub fl r tpl (pre ++ w ++ post)
  = (rest <- re_sub fl r tpl post ;; Ok (pre ++ expand tpl mo ++ rest)).
Proof.
  intros Hr Hg Ht Hpre Hw Hm Hend. rewrite !re_sub_ok by done. rewrite bind_Ok.
  f_equal. unfold re_sub_fn.
  rewrite sub_go_unmatched.
  2: { apply quiet_to_unmatched. by apply (quiet_to_heads _ _ _ Hr). }
  f_equal. erewrite sub_go_match; [|done|exact Hm]. f_equal.
  by apply (sub_go_line_end fl r _ g).
Qed.

(** *** Headings *)

Lemma header_match (hashes : string) p (txt post : str) :
  bol_of p = true -> txt <> [] -> lacks NL txt = true -> line_end post = true ->
  match_at re_MULTILINE (re_header hashes) p ((lit hashes ++ [32%N] ++ txt) ++ post)
  = Some (length (lit hashes ++ [32%N] ++ txt),
          {| group0 := lit hashes ++ [32%N] ++ txt; mo_caps := [(1, txt)] |}).
Proof.
  intros Hp Hne Hnl Hend.
  apply (match_at_intro _ _ _ _ _ (prev_after (Some 32%N) txt)).
  unfold re_header. rewrite <- !app_assoc.
  rewrite matches_cats_cons, matches_bol, at_bol_multiline, Hp.
  rewrite matches_cats_cons, matches_text. cbn [app].
  rewrite matches_cats_cons, matches_chr_eq.
  by apply line_rest_match.
Qed.

Lemma header_line (hashes tag : string) (pre txt post : str) :
  In hashes ["#"; "##"; "###"; "####"]%string ->
  heads_ok (fun c => N.eqb c 35) true pre = true -> line_start pre = true ->
  txt <> [] -> lacks NL txt = true -> line_end post = true ->
  re_sub re_MULTILINE (re_header hashes)
    [TLit (lit "<" ++ lit tag ++ lit ">"); TRef 1; TLit (lit "</" ++ lit tag ++ lit ">")]
    (pre ++ (lit hashes ++ [32%N] ++ txt) ++ post)
  = (rest <- re_sub re_MULTILINE (re_header hashes)
               [TLit (lit "<" ++ lit tag ++ lit ">"); TRef 1;
                TLit (lit "</" ++ lit tag ++ lit ">")] post ;;
     Ok (pre ++ (lit "<" ++ lit tag ++ lit ">" ++ txt ++ lit "</" ++ lit tag ++ lit ">")
         ++ rest)).
Proof.
  intros Hin Hpre Hstart Hne Hnl Hend.
  assert (Ht : template_ok (re_header hashes)
                 [TLit (lit "<" ++ lit tag ++ lit ">"); TRef 1;
                  TLit (lit "</" ++ lit tag ++ lit ">")] = true).
  { pose proof Hin as Hin'. cbn [In] in Hin'.
    destruct Hin' as [<-|[<-|[<-|[<-|[]]]]]; reflexivity. }
  pose proof (header_match hashes (prev_after None pre) txt post Hstart Hne Hnl Hend) as Hm.
  assert (Hw : lit hashes ++ [32%N] ++ txt <> []) by (by destruct (lit hashes)).
  rewrite (re_sub_line _ _ _ _ pre _ post _ (header_starts hashes Hin) eq_refl Ht Hpre Hw Hm Hend).
  unfold expand, group. cbn [map concat mo_caps assoc Nat.eqb].
  rewrite app_nil_r. by rewrite <- !app_assoc.
Qed.

(** *** Bullet lines *)

Lemma bullet_match p (txt post : str) :
  bol_of p = true -> txt <> [] -> lacks NL txt = true -> line_end post = true ->
  match_at re_MULTILINE re_bullet p ((lit "- " ++ txt) ++ post)
  = Some (length (lit "- " ++ txt), {| group0 := lit "- " ++ txt; mo_caps := [(1, txt)] |}).
Proof.
  intros Hp Hne Hnl Hend.
  apply (match_at_intro _ _ _ _ _ (prev_after (Some 32%N) txt)).
  unfold re_bullet. rewrite <- !app_assoc.
  rewrite matches_cats_cons, matches_bol, at_bol_multiline, Hp.
  rewrite matches_cats_cons, matches_text.
  by apply line_rest_match.
Qed.

Lemma bullet_line (pre txt post : str) :
  heads_ok (fun c => N.eqb c 45) true pre = true -> line_start pre = true ->
  txt <> [] -> lacks NL txt = true -> line_end post = true ->
  pass_bullet (pre ++ (lit "- " ++ txt) ++ post)
  = (rest <- pass_bullet post ;; Ok (pre ++ (lit "<li>" ++ txt ++ lit "</li>") ++ rest)).
Proof.
  intros Hpre Hstart Hne Hnl Hend. unfold pass_bullet.
  pose proof (bullet_match (prev_after None pre) txt post Hstart Hne Hnl Hend) as Hm.
  assert (Hw : lit "- " ++ txt <> []) by done.
  rewrite (re_sub_line _ _ _ [t "<li>"; TRef 1; t "</li>"] pre _ post _ bullet_starts
             eq_refl eq_refl Hpre Hw Hm Hend).
  rewrite expand_wrap. unfold group. cbn [mo_caps assoc Nat.eqb]. done.
Qed.

(** *** Rules *)

Lemma hyphen_atoms (n : nat) : forallb (atom_mem re_MULTILINE (Chr 45%N)) (repeat 45%N n) = true.
Proof. by induction n. Qed.

Lemma hr_match p (n : nat) (post : str) :
  bol_of p = true -> line_end post = true ->
  match_at re_MULTILINE re_hr p (repeat 45%N (3 + n) ++ post)
  = Some (length (repeat 45%N (3 + n)), {| group0 := repeat 45%N (3 + n); mo_caps := [] |}).
Proof.
  intros Hp Hend.
  apply (match_at_intro _ _ _ _ _ (Some 45%N)).
  unfold re_hr.
  change (repeat 45%N (3 + n)) with (lit "--" ++ repeat 45%N (1 + n)). rewrite <- app_assoc.
  rewrite matches_cats_cons, matches_bol, at_bol_multiline, Hp.
  rewrite matches_cats_cons, matches_text.
  rewrite matches_cats_cons. unfold plus. rewrite matches_rep.
  rewrite <- (app_nil_l post) at 1.
  erewrite (rep_greedy_atom re_MULTILINE (Chr 45%N) eq_refl _ _ (repeat 45%N (1 + n)) [] post).
  - reflexivity.
  - rewrite app_nil_r. apply hyphen_atoms.
  - destruct post as [|c post]; [done|]. simpl in Hend. apply N.eqb_eq in Hend as ->. done.
  - simpl. lia.
  - simpl. rewrite !length_app. simpl. lia.
  - rewrite app_nil_l, matches_cats_cons, matches_eol, at_eol_multiline, Hend.
    rewrite matches_cats_nil. f_equal. f_equal.
    change (repeat 45%N (1 + n)) with (45%N :: repeat 45%N n).
    by rewrite repeat_cons, prev_after_snoc.
  - intros v1 v2 Hv Hv1. by destruct v1.
Qed.

Lemma hr_line (pre : str) (n : nat) (post : str) :
  heads_ok (fun c => N.eqb c 45) true pre = true -> line_start pre = true ->
  line_end post = true ->
  pass_hr (pre ++ repeat 45%N (3 + n) ++ post)
  = (rest <- pass_hr post ;; Ok (pre ++ lit "<hr>" ++ rest)).
Proof.
  intros Hpre Hstart Hend. unfold pass_hr.
  pose proof (hr_match (prev_after None pre) n post Hstart Hend) as Hm.
  assert (Hw : repeat 45%N (3 + n) <> []) by done.
  rewrite (re_sub_line _ _ _ [t "<hr>"] pre _ post _ hr_starts eq_refl eq_refl Hpre Hw Hm Hend).
  unfold expand, t. cbn [map concat]. by rewrite app_nil_r.
Qed.

(** *** Numbered lines *)

Lemma digit_atoms (digits : str) :
  forallb is_digit digits = true ->
  forallb (atom_mem re_MULTILINE (Cls false [Digit])) digits = true.
Proof.
  rewrite !forallb_forall. intros H x Hx. cbn. unfold cls_mem. cbn.
  by rewrite (H x Hx).
Qed.

Lemma numbered_match p (digits txt post : str) :
  bol_of p = true -> digits <> [] -> forallb is_digit digits = true ->
  txt <> [] -> lacks NL txt = true -> line_end post = true ->
  match_at re_MULTILINE re_numbered p ((digits ++ lit ". " ++ txt) ++ post)
  = Some (length (digits ++ lit ". " ++ txt),
          {| group0 := digits ++ lit ". " ++ txt; mo_caps := [(1, txt)] |}).
Proof.
  intros Hp Hd Hdig Hne Hnl Hend.
  apply (match_at_intro _ _ _ _ _ (prev_after (Some 32%N) txt)).
  unfold re_numbered. rewrite <- !app_assoc.
  rewrite matches_cats_cons, matches_bol, at_bol_multiline, Hp.
  rewrite matches_cats_cons. unfold plus at 1. rewrite matches_rep.
  rewrite <- (app_nil_l (lit ". " ++ txt ++ post)).
  erewrite (rep_greedy_atom re_MULTILINE (Cls false [Digit]) eq_refl _ _
              digits [] (lit ". " ++ txt ++ post)).
  - reflexivity.
  - rewrite app_nil_r. by apply digit_atoms.
  - by vm_compute.
  - destruct digits; [done|]. simpl. lia.
  - simpl. rewrite !length_app. simpl. lia.
  - rewrite app_nil_l, matches_cats_cons, matches_text.
    by apply line_rest_match.
  - intros v1 v2 Hv Hv1. by destruct v1.
Qed.

Lemma numbered_line (pre digits txt post : str) :
  heads_ok is_digit true pre = true -> line_start pre = true ->
  digits <> [] -> forallb is_digit digits = true ->
  txt <> [] -> lacks NL txt = true -> line_end post = true ->
  pass_numbered (pre ++ (digits ++ lit ". " ++ txt) ++ post)
  = (rest <- pass_numbered post ;; Ok (pre ++ (lit "<li>" ++ txt ++ lit "</li>") ++ rest)).
Proof.
  intros Hpre Hstart Hd Hdig Hne Hnl Hend. unfold pass_numbered.
  pose proof (numbered_match (prev_after None pre) digits txt post Hstart Hd Hdig Hne Hnl Hend)
    as Hm.
  assert (Hw : digits ++ lit ". " ++ txt <> []) by (by destruct digits).
  rewrite (re_sub_line _ _ _ [t "<li>"; TRef 1; t "</li>"] pre _ post _ numbered_starts
             eq_refl eq_refl Hpre Hw Hm Hend).
  rewrite expand_wrap. unfold group. cbn [mo_caps assoc Nat.eqb]. done.
Qed.

(** ** The inline passes: code spans, emphasis, links *)

(** A span the pattern matches, after text in which it cannot start: the
    replacement is written and the pass goes on behind the span. *)
Lemma re_sub_span fl r (g : N -> bool) tpl (pre w post : str) mo :
  starts_at fl r g -> anchor_free r = true ->
  template_ok r tpl = true ->
  forallb (fun c => negb (g c)) pre = true ->
  w <> [] ->
  match_at fl r (prev_after None pre) (w ++ post) = Some (length w, mo) ->
  re_sub fl r tpl (pre ++ w ++ post)
  = (rest <- re_sub fl r tpl post ;; Ok (pre ++ expand tpl mo ++ rest)).
Proof.
  intros Hr Hfree Ht Hpre Hw Hm. rewrite !re_sub_ok by done. rewrite bind_Ok.
  f_equal. unfold re_sub_fn.
  rewrite sub_go_unmatched.
  2: { apply quiet_to_unmatched. by apply (quiet_to_avoid _ _ _ Hr). }
  f_equal. erewrite sub_go_match; [|done|exact Hm]. f_equal.
  by apply sub_go_prev_indep.
Qed.

Lemma none_of_atoms fl (c : N) (s : str) :
  lacks c s = true -> forallb (atom_mem fl (none_of [c])) s = true.
Proof.
  unfold lacks. rewrite !forallb_forall. intros H x Hx.
  rewrite none_of_mem. by apply H.
Qed.

Lemma none_of_stops fl (c : N) (rest : str) : stops fl (none_of [c]) (c :: rest) = true.
Proof. cbn [stops]. by rewrite none_of_mem, N.eqb_refl. Qed.

(** *** Code spans *)

Lemma inline_code_match p (txt post : str) :
  txt <> [] -> lacks 96%N txt = true ->
  match_at no_flags re_inline_code p ((lit "`" ++ txt ++ lit "`") ++ post)
  = Some (length (lit "`" ++ txt ++ lit "`"),
          {| group0 := lit "`" ++ txt ++ lit "`"; mo_caps := [(1, txt)] |}).
Proof.
  intros Hne Hc.
  apply (match_at_intro _ _ _ _ _ (Some 96%N)).
  unfold re_inline_code. rewrite <- !app_assoc.
  rewrite matches_cats_cons, matches_text, matches_cats_cons, matches_grp.
  unfold plus. rewrite matches_rep. change (lit "`") with [96%N].
  rewrite <- (app_nil_l ([96%N] ++ post)).
  erewrite (rep_greedy_atom no_flags (none_of [96%N]) eq_refl _ _ txt [] ([96%N] ++ post)).
  - reflexivity.
  - rewrite app_nil_r. by apply none_of_atoms.
  - apply none_of_stops.
  - destruct txt; [done|]. simpl. lia.
  - simpl. rewrite !length_app. simpl. lia.
  - rewrite app_nil_l, set_cap_take, matches_cats_cons, matches_text, matches_cats_nil.
    by rewrite take_consumed.
  - intros v1 v2 Hv Hv1. by destruct v1.
Qed.

Lemma inline_code_span (pre txt post : str) :
  lacks 96%N pre = true -> txt <> [] -> lacks 96%N txt = true ->
  pass_inline_code (pre ++ (lit "`" ++ txt ++ lit "`") ++ post)
  = (rest <- pass_inline_code post ;;
     Ok (pre ++ (lit "<code>" ++ txt ++ lit "</code>") ++ rest)).
Proof.
  intros Hpre Hne Hc. unfold pass_inline_code.
  pose proof (inline_code_match (prev_after None pre) txt post Hne Hc) as Hm.
  assert (Hw : lit "`" ++ txt ++ lit "`" <> []) by done.
  rewrite (re_sub_span _ _ _ [t "<code>"; TRef 1; t "</code>"] pre _ post _
             inline_code_starts eq_refl eq_refl Hpre Hw Hm).
  rewrite expand_wrap. unfold group. cbn [mo_caps assoc Nat.eqb]. done.
Qed.

(** *** Emphasis *)

Lemma no_flags_any (txt : str) :
  lacks NL txt = true -> forallb (atom_mem no_flags Any) txt = true.
Proof. done. Qed.

(** [(.+?)] followed by a closing mark of asterisks. *)
Lemma emphasis_body_match p (mark txt post : str) cs :
  (exists m, mark = 42%N :: m) ->
  txt <> [] -> lacks NL txt = true -> lacks 42%N txt = true ->
  matches no_flags (cats [Grp 1 (lazy_plus Any); text mark]) (St p (txt ++ mark ++ post) cs) Some
  = Some (St (prev_after p (txt ++ mark)) post ((1, txt) :: cs)).
Proof.
  intros [m ->] Hne Hnl Hstar.
  rewrite matches_cats_cons, matches_grp. unfold lazy_plus. rewrite matches_rep.
  erewrite (rep_lazy_atom no_flags Any eq_refl _ _ txt ((42%N :: m) ++ post)).
  - reflexivity.
  - by apply no_flags_any.
  - destruct txt; [done|]. simpl. lia.
  - simpl. lia.
  - rewrite set_cap_take, matches_cats_cons, matches_text, matches_cats_nil.
    rewrite take_consumed. by rewrite prev_after_app.
  - intros u1 u2 E Hu2 _. rewrite set_cap_take, matches_cats_cons.
    apply matches_text_fail. by apply (lacks_suffix_startswith 42%N txt u1 u2).
Qed.

Lemma bold_match p (txt post : str) :
  txt <> [] -> lacks NL txt = true -> lacks 42%N txt = true ->
  match_at no_flags re_bold p ((lit "**" ++ txt ++ lit "**") ++ post)
  = Some (length (lit "**" ++ txt ++ lit "**"),
          {| group0 := lit "**" ++ txt ++ lit "**"; mo_caps := [(1, txt)] |}).
Proof.
  intros Hne Hnl Hstar.
  apply (match_at_intro _ _ _ _ _ (prev_after (prev_after p (lit "**")) (txt ++ lit "**"))).
  unfold re_bold. rewrite <- !app_assoc.
  rewrite matches_cats_cons, matches_text.
  apply emphasis_body_match; try done. by exists [42%N].
Qed.

Lemma italic_match p (txt post : str) :
  txt <> [] -> lacks NL txt = true -> lacks 42%N txt = true ->
  match_at no_flags re_italic p ((lit "*" ++ txt ++ lit "*") ++ post)
  = Some (length (lit "*" ++ txt ++ lit "*"),
          {| group0 := lit "*" ++ txt ++ lit "*"; mo_caps := [(1, txt)] |}).
Proof.
  intros Hne Hnl Hstar.
  apply (match_at_intro _ _ _ _ _ (prev_after (prev_after p (lit "*")) (txt ++ lit "*"))).
  unfold re_italic. rewrite <- !app_assoc.
  rewrite matches_cats_cons, matches_text.
  apply emphasis_body_match; try done. by exists [].
Qed.

Lemma bold_span (pre txt post : str) :
  lacks 42%N pre = true -> txt <> [] -> lacks NL txt = true -> lacks 42%N txt = true ->
  pass_bold (pre ++ (lit "**" ++ txt ++ lit "**") ++ post)
  = (rest <- pass_bold post ;;
     Ok (pre ++ (lit "<strong>" ++ txt ++ lit "</strong>") ++ rest)).
Proof.
  intros Hpre Hne Hnl Hstar. unfold pass_bold.
  pose proof (bold_match (prev_after None pre) txt post Hne Hnl Hstar) as Hm.
  assert (Hw : lit "**" ++ txt ++ lit "**" <> []) by done.
  rewrite (re_sub_span _ _ _ [t "<strong>"; TRef 1; t "</strong>"] pre _ post _
             bold_starts eq_refl eq_refl Hpre Hw Hm).
  rewrite expand_wrap. unfold group. cbn [mo_caps assoc Nat.eqb]. done.
Qed.

Lemma italic_span (pre txt post : str) :
  lacks 42%N pre = true -> txt <> [] -> lacks NL txt = true -> lacks 42%N txt = true ->
  pass_italic (pre ++ (lit "*" ++ txt ++ lit "*") ++ post)
  = (rest <- pass_italic post ;;
     Ok (pre ++ (lit "<em>" ++ txt ++ lit "</em>") ++ rest)).
Proof.
  intros Hpre Hne Hnl Hstar. unfold pass_italic.
  pose proof (italic_match (prev_after None pre) txt post Hne Hnl Hstar) as Hm.
  assert (Hw : lit "*" ++ txt ++ lit "*" <> []) by done.
  rewrite (re_sub_span _ _ _ [t "<em>"; TRef 1; t "</em>"] pre _ post _
             italic_starts eq_refl eq_refl Hpre Hw Hm).
  rewrite expand_wrap. unfold group. cbn [mo_caps assoc Nat.eqb]. done.
Qed.

(** *** Links *)

Lemma link_match p (label url post : str) :
  label <> [] -> lacks 93%N label = true -> url <> [] -> lacks 41%N url = true ->
  match_at no_flags re_link p ((lit "[" ++ label ++ lit "](" ++ url ++ lit ")") ++ post)
  = Some (length (lit "[" ++ label ++ lit "](" ++ url ++ lit ")"),
          {| group0 := lit "[" ++ label ++ lit "](" ++ url ++ lit ")";
             mo_caps := [(2, url); (1, label)] |}).
Proof.
  intros Hl Hlc Hu Huc.
  apply (match_at_intro _ _ _ _ _ (Some 41%N)).
  unfold re_link. rewrite <- !app_assoc.
  rewrite matches_cats_cons, matches_text, matches_cats_cons, matches_grp.
  unfold plus at 1. rewrite matches_rep.
  change (lit "]") with [93%N]. change (lit ")") with [41%N].
  change (lit "](") with ([93%N] ++ [40%N]). rewrite <- !app_assoc.
  rewrite <- (app_nil_l ([93%N] ++ [40%N] ++ url ++ [41%N] ++ post)).
  erewrite (rep_greedy_atom no_flags (none_of [93%N]) eq_refl _ _ label []
              ([93%N] ++ [40%N] ++ url ++ [41%N] ++ post)).
  - reflexivity.
  - rewrite app_nil_r. by apply none_of_atoms.
  - apply none_of_stops.
  - destruct label; [done|]. simpl. lia.
  - simpl. rewrite !length_app. simpl. lia.
  - rewrite app_nil_l, set_cap_take, take_consumed.
    rewrite matches_cats_cons.
    change ([93%N] ++ [40%N] ++ url ++ [41%N] ++ post)
      with ([93%N; 40%N] ++ url ++ [41%N] ++ post).
    rewrite matches_text, matches_cats_cons, matches_grp.
    unfold plus. rewrite matches_rep.
    rewrite <- (app_nil_l ([41%N] ++ post)).
    erewrite (rep_greedy_atom no_flags (none_of [41%N]) eq_refl _ _ url [] ([41%N] ++ post)).
    + reflexivity.
    + rewrite app_nil_r. by apply none_of_atoms.
    + apply none_of_stops.
    + destruct url; [done|]. simpl. lia.
    + simpl. rewrite !length_app. simpl. lia.
    + rewrite app_nil_l, set_cap_take, take_consumed.
      by rewrite matches_cats_cons, matches_text, matches_cats_nil.
    + intros v1 v2 Hv Hv1. by destruct v1.
  - intros v1 v2 Hv Hv1. by destruct v1.
Qed.

Lemma link_span (pre label url post : str) :
  lacks 91%N pre = true ->
  label <> [] -> lacks 93%N label = true -> url <> [] -> lacks 41%N url = true ->
  pass_link (pre ++ (lit "[" ++ label ++ lit "](" ++ url ++ lit ")") ++ post)
  = (rest <- pass_link post ;;
     Ok (pre ++ (lit "<a href=" ++ [QUOTE] ++ url ++ [QUOTE] ++ lit ">" ++ label ++ lit "</a>")
         ++ rest)).
Proof.
  intros Hpre Hl Hlc Hu Huc. unfold pass_link.
  pose proof (link_match (prev_after None pre) label url post Hl Hlc Hu Huc) as Hm.
  assert (Hw : lit "[" ++ label ++ lit "](" ++ url ++ lit ")" <> []) by done.
  rewrite (re_sub_span _ _ _ link_template pre _ post _
             link_starts eq_refl eq_refl Hpre Hw Hm).
  unfold expand, link_template, t, group. cbn [map concat mo_caps assoc Nat.eqb].
  rewrite app_nil_r. by rewrite <- ?app_assoc.
Qed.

(** ** The emoji pass, character by character *)

Lemma emoji_pass_each (s : str) : forall p,
  sub_go no_flags emoji_pattern (expand emoji_template) 0 p s = concat (map wrap_emoji s).
Proof.
  induction s as [|c s IH]; intros p.
  - cbn [sub_go map concat]. by rewrite match_at_cannot_start by apply emoji_starts.
  - rewrite emoji_pass_cons. cbn [map concat]. unfold wrap_emoji at 1.
    destruct (is_emoji c); rewrite IH; [by rewrite <- !app_assoc|done].
Qed.

(** ** The paragraph loop on plain lines and inside a block *)

Lemma paragraphs_plain (lines : list str) :
  Forall (fun l => lacks 60%N l = true) lines ->
  paragraphs false lines = map wrap_line lines.
Proof.
  induction 1 as [|line rest Hl _ IH]; [done|].
  cbn [paragraphs map]. rewrite IH.
  pose proof (lacks_strip _ _ Hl) as Hs.
  rewrite (startswith_any_lacks _ 60%N block_open Hs block_open_tags).
  rewrite (startswith_any_lacks _ 60%N block_close Hs block_close_tags).
  change (lit "<") with [60%N]. rewrite (lacks_startswith 60%N _ []) by done.
  unfold wrap_line. by destruct (is_empty (strip line)).
Qed.

Lemma forallb_split (P : N -> bool) (s : str) :
  forallb P s = true -> Forall (fun l => forallb P l = true) (split NL s).
Proof.
  induction s as [|c s IH]; [by repeat constructor|].
  cbn [forallb split]. intros [Hc Hs]%andb_true_iff. specialize (IH Hs).
  destruct (N.eqb c NL); [by constructor|].
  destruct (split NL s) as [|l ls].
  - constructor; [|constructor]. cbn [forallb]. by rewrite Hc.
  - inversion IH; subst. constructor; [|done]. cbn [forallb]. by rewrite Hc.
Qed.

Lemma forallb_join (P : N -> bool) (lines : list str) :
  P NL = true -> Forall (fun l => forallb P l = true) lines ->
  forallb P (join [NL] lines) = true.
Proof.
  intros HNL. induction 1 as [|l ls Hl Hls IH]; [done|].
  destruct ls as [|l' ls]; [done|].
  change (join [NL] (l :: l' :: ls)) with (l ++ NL :: join [NL] (l' :: ls)).
  rewrite forallb_app. cbn [forallb]. by rewrite Hl, HNL, IH.
Qed.

Lemma forallb_paragraphs (P : N -> bool) (lines : list str) : forall in_block,
  forallb P (lit "<p>") = true -> forallb P (lit "</p>") = true ->
  Forall (fun l => forallb P l = true) lines ->
  Forall (fun l => forallb P l = true) (paragraphs in_block lines).
Proof.
  intros in_block Ho Hc H. revert in_block.
  induction H as [|line rest Hl _ IH]; intros in_block; [constructor|].
  cbn [paragraphs].
  repeat case_match; constructor; try apply IH; try done.
  all: by rewrite !forallb_app, Ho, Hl, Hc.
Qed.

Lemma forallb_wrap_paragraphs (P : N -> bool) (s : str) :
  P NL = true -> forallb P (lit "<p>") = true -> forallb P (lit "</p>") = true ->
  forallb P s = true -> forallb P (wrap_paragraphs s) = true.
Proof.
  intros HNL Ho Hc Hs. unfold wrap_paragraphs.
  apply forallb_join; [done|]. apply forallb_paragraphs; [done|done|].
  by apply forallb_split.
Qed.

Lemma wrap_paragraphs_plain (s : str) :
  lacks 60%N s = true -> wrap_paragraphs s = join [NL] (map wrap_line (split NL s)).
Proof.
  intros H. unfold wrap_paragraphs. rewrite paragraphs_plain; [done|].
  by apply (forallb_split (fun x => negb (N.eqb x 60))).
Qed.

(** After a line that opens a block, lines are kept as they are as long
    as none starts with a closing tag of [block_close]. *)
Lemma paragraphs_block_kept (lines : list str) :
  Forall (fun l => startswith_any (strip l) block_close = false) lines ->
  paragraphs true lines = lines.
Proof.
  induction 1 as [|line rest Hl _ IH]; [done|].
  cbn [paragraphs]. rewrite Hl, IH. cbn [negb andb]. by repeat case_match.
Qed.

Lemma wrap_paragraphs_after_opener (first body : str) :
  lacks NL first = true ->
  startswith_any (strip first) block_open = true ->
  Forall (fun l => startswith_any (strip l) block_close = false) (split NL body) ->
  wrap_paragraphs (first ++ NL :: body) = first ++ NL :: body.
Proof.
  intros Hnl Hopen Hbody. unfold wrap_paragraphs.
  rewrite split_app by done. cbn [paragraphs]. rewrite Hopen.
  rewrite paragraphs_block_kept by done.
  rewrite <- (split_app NL first body) by done. apply join_split.
Qed.

(** ** Inert text of several lines *)

Lemma convert_inert (md : str) :
  inert true md = true ->
  convert_markdown_to_html md = Ok (join [NL] (map wrap_line (split NL md))).
Proof.
  intros Hin. rewrite convert_passes.
  destruct (passes_inert md Hin)
    as (H1 & H2 & H3 & H4 & H5 & H6 & H7 & H8 & H9 & H10 & H11 & H12 & H13 & Ht & He).
  rewrite H1, bind_Ok, H2, bind_Ok, H3, bind_Ok, H4, bind_Ok, H5, bind_Ok, H6, bind_Ok,
    H7, bind_Ok, H8, bind_Ok, H9, bind_Ok, H10, bind_Ok, H11, bind_Ok, H12, bind_Ok,
    H13, bind_Ok, Ht.
  rewrite <- wrap_paragraphs_plain by (by apply (inert_lacks 60%N true)).
  apply pass_emoji_avoid.
  apply (forallb_wrap_paragraphs (fun c => negb (is_emoji c))); try reflexivity.
  apply (inert_avoids is_emoji true md); [|done].
  intros c Hc. by destruct (markup_char_false c Hc) as (?&?&?&?&?&?).
Qed.

(** ** One line through the paragraph loop *)

Lemma startswith_any_tag (s : str) (ps : list str) :
  Forall (fun p : str => exists w, p = 60%N :: w) ps ->
  startswith s (lit "<") = false -> startswith_any s ps = false.
Proof.
  intros Hps Hs. unfold startswith_any.
  induction Hps as [|p ps [w ->] _ IH]; [done|].
  cbn [existsb]. rewrite IH, orb_false_r.
  destruct s as [|x s]; [done|]. change (lit "<") with [60%N] in Hs.
  cbn [startswith] in *. rewrite andb_true_r in Hs. by rewrite Hs.
Qed.

Lemma paragraphs_one_line (line : str) :
  paragraphs false [line]
  = [if is_empty (strip line) || startswith (strip line) (lit "<")
     then line else lit "<p>" ++ line ++ lit "</p>"].
Proof.
  cbn [paragraphs]. destruct (startswith (strip line) (lit "<")) eqn:E.
  - rewrite orb_true_r. cbn [negb]. rewrite andb_false_r. by repeat case_match.
  - rewrite (startswith_any_tag _ block_open block_open_tags E).
    rewrite (startswith_any_tag _ block_close block_close_tags E).
    rewrite orb_false_r. by destruct (is_empty (strip line)).
Qed.

Lemma wrap_paragraphs_one_line (line : str) :
  lacks NL line = true ->
  wrap_paragraphs line
  = if is_empty (strip line) || startswith (strip line) (lit "<")
    then line else lit "<p>" ++ line ++ lit "</p>".
Proof.
  intros H. unfold wrap_paragraphs. rewrite split_lacks by done.
  by rewrite paragraphs_one_line.
Qed.

(** ** The fix-up leaves no link to a markdown file behind *)

Lemma fix_copy (w : str) : forall t : str,
  lacks 46%N w = true ->
  startswith (replace_go (lit ".md" ++ Q) (lit ".html" ++ Q) 0 t) w = true ->
  startswith t w = true.
Proof.
  induction w as [|x w IH]; intros t Hw; [done|].
  cbn [lacks forallb] in Hw. apply andb_true_iff in Hw as [Hx Hw].
  apply negb_true_iff in Hx.
  destruct t as [|c t]; [done|]. cbn [replace_go].
  destruct (startswith (c :: t) (lit ".md" ++ Q)).
  - change (lit ".html" ++ Q) with [46; 104; 116; 109; 108; 34]%N.
    cbn [app startswith]. rewrite N.eqb_sym, Hx. done.
  - cbn [startswith]. intros [Hc Ht]%andb_true_iff. rewrite Hc. cbn [andb].
    by apply IH.
Qed.

Lemma contains_new_app (o : str) :
  contains o (lit ".md" ++ Q) = false ->
  contains (lit ".html" ++ Q ++ o) (lit ".md" ++ Q) = false.
Proof.
  change (lit ".html" ++ Q ++ o) with ([46; 104; 116; 109; 108; 34]%N ++ o).
  change (lit ".md" ++ Q) with [46; 109; 100; 34]%N.
  intros H. cbn [app contains]. rewrite H. reflexivity.
Qed.

Lemma fix_go_clean (s : str) : forall n,
  contains (replace_go (lit ".md" ++ Q) (lit ".html" ++ Q) n s) (lit ".md" ++ Q) = false.
Proof.
  induction s as [|c s IH]; intros n; [done|].
  destruct n as [|n]; cbn [replace_go]; [|apply IH].
  destruct (startswith (c :: s) (lit ".md" ++ Q)) eqn:E.
  - rewrite <- app_assoc. apply contains_new_app, IH.
  - cbn [contains]. rewrite IH, orb_false_r.
    destruct (startswith (c :: replace_go _ _ 0 s) (lit ".md" ++ Q)) eqn:E2; [|done].
    change (lit ".md" ++ Q) with [46; 109; 100; 34]%N in *.
    cbn [startswith] in E, E2. apply andb_true_iff in E2 as [Hc Ho].
    rewrite Hc in E. cbn [andb] in E.
    apply (fix_copy [109; 100; 34]%N) in Ho; [|done].
    cbn [startswith] in Ho. congruence.
Qed.

Lemma fix_md_links_clean (s : str) :
  contains (fix_md_links s) (lit ".md" ++ Q) = false.
Proof. apply fix_go_clean. Qed.

Lemma fix_md_links_idem (s : str) : fix_md_links (fix_md_links s) = fix_md_links s.
Proof. apply fix_md_links_none, fix_md_links_clean. Qed.

(** ** The fields of the template *)

Lemma format_fields_ok (vals : str -> str) :
  exists doc, format HTML_TEMPLATE (fields_map vals) = Ok doc.
Proof. eexists. vm_compute. reflexivity. Qed.

Lemma format_missing_field (vals : str -> str) (k : str) :
  In k template_fields ->
  format HTML_TEMPLATE (delete k (fields_map vals)) = Raise (KeyError k).
Proof.
  intros H. unfold template_fields in H. cbn [In] in H.
  repeat (destruct H as [<-|H]; [vm_compute; reflexivity|]). destruct H.
Qed.

(** ** The navigation flags of a page *)

Lemma active_flags_count (md_file : str) :
  map fst (map_to_list (active_flags_of md_file)) = map fst (map_to_list no_active_flags)
  /\ active_flags_of md_file !! lit "active_index" = Some []
  /\ active_count (active_flags_of md_file)
     = if existsb (str_eqb md_file) md_files then 1 else 0.
Proof.
  unfold active_flags_of, md_files. cbn [existsb].
  repeat (destruct (str_eqb md_file _);
          [cbn [orb]; rewrite ?orb_true_r; split; [|split]; vm_compute; reflexivity|
           cbn [orb]]).
  split; [|split]; vm_compute; reflexivity.
Qed.

(** ** The files of a run *)

(** *** The path of a page *)








Lemma page_path_in_output_dir (g : str) :
  startswith (page_path g) (lit "docs_html/") = true.
Proof.
  unfold page_path, output_dir.
  change (lit "docs_html" ++ lit "/" ++ with_suffix (path_name g) (lit ".html"))
    with (lit "docs_html/" ++ with_suffix (path_name g) (lit ".html")).
  apply startswith_app.
Qed.

(** *** What a run leaves in the file system *)

Lemma index_not_input (g : str) : In g md_files -> g <> index_path.
Proof.
  intros Hg E. subst g. unfold md_files in Hg. cbn [In] in Hg.
  repeat (destruct Hg as [Hg|Hg]; [by vm_compute in Hg|]). done.
Qed.

Lemma generate_spec (abs_dir : str) (w : world) :
  exists w',
    generate_html_docs abs_dir w
    = Ok (length (List.filter (file_exists w) md_files), w') /\
    files w' !! index_path = Some index_page /\
    (forall g content, In g md_files -> files w !! g = Some content ->
       exists page, render_page g content = Ok page /\ files w' !! page_path g = Some page) /\
    (forall path, path <> index_path ->
       (forall g, In g md_files -> file_exists w g = true -> path <> page_path g) ->
       files w' !! path = files w !! path).
Proof.
  rewrite generate_html_docs_eq. cbv zeta.
  set (w0 := print _ _ (print _ _ (print _ _ w))).
  assert (Hfiles0 : files w0 = files w) by reflexivity.
  assert (Hex0 : forall f, file_exists w0 f = file_exists w f) by reflexivity.
  destruct (convert_files_spec md_files 0 w0 (fun g H => H) md_files_NoDup)
    as (w1 & more & Hrun & Hcon & Hwarn & Hkeep & Hpages).
  rewrite Hrun, bind_Ok. cbn [fst snd].
  rewrite (parts_ok_active "active_index") by (simpl; tauto). rewrite bind_Ok.
  rewrite (List.filter_ext _ _ Hex0). rewrite Nat.add_0_l.
  eexists. split; [reflexivity|].
  repeat rewrite ?files_print, ?files_write.
  split; [|split].
  - unfold index_path, index_page. cbv zeta. apply lookup_insert_eq.
  - intros g content Hg Hc. rewrite (lookup_index_ne (files w1) _ g Hg).
    apply Hpages; [done|]. by rewrite Hfiles0.
  - intros path Hidx Hout. rewrite lookup_insert_ne by (intros E; by apply Hidx).
    rewrite Hkeep; [by rewrite Hfiles0|].
    intros g Hg Hx. apply Hout; [done|]. by rewrite <- Hex0.
Qed.

(** The files the run reads are not among the files it writes. *)
Lemma generate_keeps_inputs (abs_dir : str) (w w' : world) (n : nat) (g : str) :
  generate_html_docs abs_dir w = Ok (n, w') -> In g md_files ->
  files w' !! g = files w !! g.
Proof.
  intros Hrun Hg. destruct (generate_spec abs_dir w) as (w2 & Hrun2 & _ & _ & Hframe).
  rewrite Hrun in Hrun2. assert (w2 = w') as -> by congruence.
  apply Hframe; [by apply index_not_input|].
  intros f Hf _ E. by apply (page_path_not_input f g).
Qed.

Lemma generate_frame (abs_dir : str) (w : world) :
  exists n w',
    generate_html_docs abs_dir w = Ok (n, w') /\
    forall path, startswith path (lit "docs_html/") = false ->
      files w' !! path = files w !! path.
Proof.
  destruct (generate_spec abs_dir w) as (w' & Hrun & _ & _ & Hframe).
  eexists _, w'. split; [exact Hrun|].
  intros path Hpath. apply Hframe.
  - intros ->. by vm_compute in Hpath.
  - intros g _ _ ->. by rewrite page_path_in_output_dir in Hpath.
Qed.

Lemma generate_again (abs_dir : str) (w w1 : world) (n : nat) :
  generate_html_docs abs_dir w = Ok (n, w1) ->
  exists w2, generate_html_docs abs_dir w1 = Ok (n, w2) /\ files w2 = files w1.
Proof.
  intros Hrun.
  destruct (generate_spec abs_dir w) as (w1' & Hrun1 & Hidx1 & Hpages1 & Hframe1).
  assert (Hin : forall g, In g md_files -> files w1 !! g = files w !! g).
  { intros g Hg. by apply (generate_keeps_inputs abs_dir w w1 n g). }
  rewrite Hrun in Hrun1.
  assert (Hn : n = length (List.filter (file_exists w) md_files)) by congruence.
  assert (w1' = w1) as -> by congruence. clear Hrun1.
  assert (Hex : forall g, In g md_files -> file_exists w1 g = file_exists w g).
  { intros g Hg. unfold file_exists. by rewrite Hin. }
  destruct (generate_spec abs_dir w1) as (w2 & Hrun2 & Hidx2 & Hpages2 & Hframe2).
  exists w2. split.
  - rewrite Hrun2, Hn. do 3 f_equal. by apply List.filter_ext_in.
  - apply map_eq. intros path.
    destruct (decide (path = index_path)) as [->|Hne]; [by rewrite Hidx1, Hidx2|].
    destruct (List.Exists_dec (fun g => file_exists w g = true /\ path = page_path g) md_files)
      as [Hsome|Hnone].
    { intros g. destruct (file_exists w g); [|right; by intros [? ?]].
      destruct (decide (path = page_path g)); [by left|right; by intros [? ?]]. }
    + apply List.Exists_exists in Hsome as (g & Hg & Hx & ->).
      apply file_exists_true in Hx as [content Hc].
      destruct (Hpages1 g content Hg Hc) as (page & Hp & ->).
      rewrite <- Hin in Hc by done.
      destruct (Hpages2 g content Hg Hc) as (page' & Hp' & ->). congruence.
    + rewrite Hframe2; [done|done|].
      intros g Hg Hx ->. apply Hnone. apply List.Exists_exists. exists g.
      rewrite Hex in Hx by done. done.
Qed.

(** ** Marked-up text through the whole converter *)

(** *** Text put together from inert text and literal pieces *)

Lemma heads_ok_no_NL (f : N -> bool) (s : str) :
  lacks NL s = true -> heads_ok f false s = true.
Proof.
  induction s as [|c s IH]; [done|].
  cbn [lacks forallb heads_ok]. intros [Hc Hs]%andb_true_iff.
  apply negb_true_iff in Hc. rewrite Hc. by apply IH.
Qed.

Lemma last_no_NL (A : str) (b : bool) :
  A <> [] -> lacks NL A = true ->
  match last A with Some c => N.eqb c NL | None => b end = false.
Proof.
  intros Hne HA. destruct (last A) as [c|] eqn:E.
  - apply last_Some in E as [A' ->]. rewrite lacks_app in HA.
    apply andb_true_iff in HA as [_ HA]. cbn in HA. rewrite andb_true_r in HA.
    by apply negb_true_iff in HA.
  - apply last_None in E. done.
Qed.

(** Text [x], then a literal piece [A] that is not empty and has no
    newline, then text that goes on in the same line. *)
Lemma heads_ok_piece (f : N -> bool) (b : bool) (x A R : str) :
  heads_ok f b x = true ->
  forallb (fun c => negb (f c)) A = true -> A <> [] -> lacks NL A = true ->
  heads_ok f false R = true ->
  heads_ok f b (x ++ A ++ R) = true.
Proof.
  intros Hx HA Hne Hnl HR. rewrite !heads_ok_app, Hx.
  rewrite (heads_ok_avoid f A) by done. by rewrite last_no_NL, HR.
Qed.

Lemma contains_app_lacks (c : N) (w x s : str) :
  lacks c x = true -> contains (x ++ s) (c :: w) = contains s (c :: w).
Proof.
  induction x as [|a x IH]; [done|].
  cbn [lacks forallb app contains]. intros [Ha Hx]%andb_true_iff.
  apply negb_true_iff in Ha. cbn [startswith]. rewrite Ha. cbn [andb orb]. by apply IH.
Qed.

Lemma contains_lacks (c : N) (w x : str) :
  lacks c x = true -> contains x (c :: w) = false.
Proof.
  intros H. rewrite <- (app_nil_r x). by rewrite contains_app_lacks.
Qed.

(** Between two marks [c] with text without [c] around and between them,
    no two [c] stand side by side. *)
Lemma no_double_mark (c : N) (w pre txt post : str) :
  lacks c pre = true -> txt <> [] -> lacks c txt = true -> lacks c post = true ->
  contains (pre ++ [c] ++ txt ++ [c] ++ post) (c :: c :: w) = false.
Proof.
  intros Hpre Hne Htxt Hpost. rewrite contains_app_lacks by done.
  cbn [app contains]. rewrite contains_app_lacks by done.
  cbn [app contains]. rewrite contains_lacks by done.
  destruct txt as [|a txt]; [done|]. cbn [lacks forallb] in Htxt.
  apply andb_true_iff in Htxt as [Ha _]. apply negb_true_iff in Ha.
  cbn [app startswith]. rewrite N.eqb_refl, Ha. cbn [andb orb].
  destruct post as [|q post]; [done|]. cbn [lacks forallb] in Hpost.
  apply andb_true_iff in Hpost as [Hq _]. apply negb_true_iff in Hq.
  cbn [startswith]. by rewrite Hq.
Qed.

Lemma code_block_needs_open p (s : str) :
  startswith s (lit "```") = false -> match_at re_DOTALL re_code_block p s = None.
Proof.
  intros H. unfold match_at, re_code_block.
  rewrite matches_cats_cons. by rewrite matches_text_fail.
Qed.

Lemma bold_needs_open p (s : str) :
  startswith s (lit "**") = false -> match_at no_flags re_bold p s = None.
Proof.
  intros H. unfold match_at, re_bold.
  rewrite matches_cats_cons. by rewrite matches_text_fail.
Qed.

Lemma inert_markdown_free_chars (b : bool) (s : str) :
  inert b s = true -> forallb (fun c => negb (markdown_char c || is_emoji c)) s = true.
Proof.
  intros H. apply inert_chars in H. rewrite forallb_forall in *.
  intros x Hx. specialize (H x Hx). apply negb_true_iff in H.
  destruct (markup_char_false x H) as (H1 & H2 & H3 & H4 & _ & H6).
  unfold markdown_char. by rewrite H1, H2, H3, H4, H6.
Qed.

(** *** From the pass that writes the markup to the end *)

(** Once a text has no markdown left in it, the rest of the converter is
    the paragraph loop. *)
Lemma finish_markdown_free (Y : str) :
  markdown_free Y = true ->
  pass_emoji (wrap_paragraphs (pass_table Y)) = Ok (wrap_paragraphs Y).
Proof.
  intros HY.
  destruct (passes_markdown_free Y HY)
    as (_ & _ & _ & _ & _ & _ & _ & _ & _ & _ & _ & _ & _ & Ht & _).
  rewrite Ht. apply pass_emoji_avoid.
  apply (forallb_wrap_paragraphs (fun c => negb (is_emoji c))); try reflexivity.
  apply markdown_free_avoids; [|done]. intros c ->. by rewrite orb_true_r.
Qed.

Lemma inert_tame (b : bool) (s : str) : inert b s = true -> tame b s.
Proof.
  intros H. split; [by apply (inert_markdown_free_chars b)|].
  split; [by apply inert_heads|].
  intros r. change (lit "<li>") with (60%N :: lit "li>").
  apply contains_app_lacks. by apply (inert_lacks 60%N b).
Qed.

Lemma tame_piece (b : bool) (x A R : str) :
  tame b x -> tag_piece A -> tame false R -> tame b (x ++ A ++ R).
Proof.
  intros (Hx1 & Hx2 & Hx3) (Hne & Hnl & HA) (HR1 & HR2 & HR3).
  destruct (HA false) as (HA1 & _ & HA3).
  split; [by rewrite !forallb_app, Hx1, HA1, HR1|].
  split.
  { rewrite !heads_ok_app, Hx2. destruct (HA (match last x with
                                              | Some c => N.eqb c NL
                                              | None => b
                                              end)) as (_ & -> & _).
    by rewrite last_no_NL, HR2. }
  intros r. by rewrite <- !app_assoc, Hx3, HA3, HR3.
Qed.

Lemma tame_markdown_free (s : str) : tame true s -> markdown_free s = true.
Proof.
  intros (H1 & H2 & H3). unfold markdown_free. rewrite H1, H2.
  specialize (H3 []). rewrite app_nil_r in H3. by rewrite H3.
Qed.

Lemma tag_piece_literal (A : str) :
  A <> [] -> lacks NL A = true ->
  heads_ok line_start_char true A = true ->
  forallb (fun c => negb (markdown_char c || is_emoji c)) A = true ->
  (forall r, contains (A ++ r) (lit "<li>") = contains r (lit "<li>")) ->
  tag_piece A.
Proof.
  intros Hne Hnl Hls Hch Hc. repeat split; try done.
  destruct b; [done|]. by apply heads_ok_no_NL.
Qed.

Ltac literal_piece :=
  apply tag_piece_literal; [done | reflexivity | reflexivity | reflexivity | intros r; reflexivity].

Lemma tag_strong : tag_piece (lit "<strong>") /\ tag_piece (lit "</strong>").
Proof. split; literal_piece. Qed.

Lemma tag_em : tag_piece (lit "<em>") /\ tag_piece (lit "</em>").
Proof. split; literal_piece. Qed.

Lemma tag_code : tag_piece (lit "<code>") /\ tag_piece (lit "</code>").
Proof. split; literal_piece. Qed.

Lemma tag_anchor :
  tag_piece (lit "<a href=" ++ [QUOTE]) /\ tag_piece ([QUOTE] ++ lit ">")
  /\ tag_piece (lit "</a>").
Proof. repeat split; literal_piece. Qed.

(** *** The passes before the one that writes the markup *)

Lemma headers_pass_by (md : str) :
  heads_ok (fun c => N.eqb c 35) true md = true ->
  pass_h1 md = Ok md /\ pass_h2 md = Ok md /\ pass_h3 md = Ok md /\ pass_h4 md = Ok md.
Proof.
  intros H.
  assert (Hh : forall hashes, In hashes ["#"; "##"; "###"; "####"]%string ->
               quiet re_MULTILINE (re_header hashes) None md = true).
  { intros hashes Hin. by apply (quiet_heads _ _ _ (header_starts hashes Hin)). }
  repeat split; (apply re_sub_quiet; [done|]); apply Hh; simpl; tauto.
Qed.

Lemma code_passes_by (md : str) :
  lacks 96%N md = true -> pass_code_block md = Ok md /\ pass_inline_code md = Ok md.
Proof.
  intros H. split; (apply re_sub_quiet; [done|]).
  - by apply (quiet_avoid _ _ _ code_block_starts).
  - by apply (quiet_avoid _ _ _ inline_code_starts).
Qed.

Lemma emphasis_passes_by (md : str) :
  lacks 42%N md = true -> pass_bold md = Ok md /\ pass_italic md = Ok md.
Proof.
  intros H. split; (apply re_sub_quiet; [done|]).
  - by apply (quiet_avoid _ _ _ bold_starts).
  - by apply (quiet_avoid _ _ _ italic_starts).
Qed.

Lemma link_pass_by (md : str) : lacks 91%N md = true -> pass_link md = Ok md.
Proof.
  intros H. apply re_sub_quiet; [done|]. by apply (quiet_avoid _ _ _ link_starts).
Qed.

Lemma inert_hash_heads (b : bool) (s : str) :
  inert b s = true -> heads_ok (fun c => N.eqb c 35) b s = true.
Proof.
  intros H. apply (inert_line_heads _ b b s); [|done|done].
  intros c Hc. by destruct (line_start_char_false c Hc) as (?&?&?).
Qed.

(** The rest of the converter on a text without markdown. *)
Ltac rest_of_passes HY :=
  let H := fresh "H" in
  pose proof (passes_markdown_free _ HY) as H;
  destruct H as (?H1 & ?H2 & ?H3 & ?H4 & ?H5 & ?H6 & ?H7 & ?H8 & ?H9 & ?H10 & ?H11 & ?H12
                 & ?H13 & _ & _);
  repeat (rewrite bind_Ok
          || match goal with
             | E : ?pass _ = Ok _ |- context [?pass _] => rewrite E
             end);
  by apply finish_markdown_free.

(** *** Emphasis *)

Lemma convert_bold (pre txt post : str) :
  inert true pre = true ->
  txt <> [] -> lacks NL txt = true -> inert false txt = true ->
  inert false post = true ->
  convert_markdown_to_html (pre ++ (lit "**" ++ txt ++ lit "**") ++ post)
  = Ok (wrap_paragraphs (pre ++ (lit "<strong>" ++ txt ++ lit "</strong>") ++ post)).
Proof.
  intros Hpre Hne Hnl Htxt Hpost.
  assert (HY : markdown_free (pre ++ (lit "<strong>" ++ txt ++ lit "</strong>") ++ post)
               = true).
  { apply tame_markdown_free. rewrite <- !app_assoc.
    apply tame_piece; [by apply inert_tame|apply tag_strong|].
    apply tame_piece; [by apply inert_tame|apply tag_strong|by apply inert_tame]. }
  assert (Hh : heads_ok (fun c => N.eqb c 35) true
                 (pre ++ (lit "**" ++ txt ++ lit "**") ++ post) = true).
  { rewrite <- !app_assoc.
    apply heads_ok_piece; [by apply inert_hash_heads|done|done|done|].
    apply heads_ok_piece; [by apply inert_hash_heads|done|done|done|
                           by apply inert_hash_heads]. }
  assert (Hb : lacks 96%N (pre ++ (lit "**" ++ txt ++ lit "**") ++ post) = true).
  { rewrite !lacks_app, (inert_lacks 96%N true pre), (inert_lacks 96%N false txt),
      (inert_lacks 96%N false post); done. }
  destruct (headers_pass_by _ Hh) as (E1 & E2 & E3 & E4).
  destruct (code_passes_by _ Hb) as (E5 & E6).
  rewrite convert_passes, E1, bind_Ok, E2, bind_Ok, E3, bind_Ok, E4, bind_Ok, E5, bind_Ok,
    E6, bind_Ok.
  rewrite bold_span; [|by apply (inert_lacks 42%N true)|done|done|
                      by apply (inert_lacks 42%N false)].
  destruct (emphasis_passes_by post (inert_lacks 42%N false post eq_refl Hpost)) as [-> _].
  rewrite !bind_Ok. clear E1 E2 E3 E4 E5 E6.
  rest_of_passes HY.
Qed.

Lemma convert_italic (pre txt post : str) :
  inert true pre = true ->
  txt <> [] -> lacks NL txt = true -> inert false txt = true ->
  inert false post = true ->
  convert_markdown_to_html (pre ++ (lit "*" ++ txt ++ lit "*") ++ post)
  = Ok (wrap_paragraphs (pre ++ (lit "<em>" ++ txt ++ lit "</em>") ++ post)).
Proof.
  intros Hpre Hne Hnl Htxt Hpost.
  assert (HY : markdown_free (pre ++ (lit "<em>" ++ txt ++ lit "</em>") ++ post) = true).
  { apply tame_markdown_free. rewrite <- !app_assoc.
    apply tame_piece; [by apply inert_tame|apply tag_em|].
    apply tame_piece; [by apply inert_tame|apply tag_em|by apply inert_tame]. }
  assert (Hh : heads_ok (fun c => N.eqb c 35) true
                 (pre ++ (lit "*" ++ txt ++ lit "*") ++ post) = true).
  { rewrite <- !app_assoc.
    apply heads_ok_piece; [by apply inert_hash_heads|done|done|done|].
    apply heads_ok_piece; [by apply inert_hash_heads|done|done|done|
                           by apply inert_hash_heads]. }
  assert (Hb : lacks 96%N (pre ++ (lit "*" ++ txt ++ lit "*") ++ post) = true).
  { rewrite !lacks_app, (inert_lacks 96%N true pre), (inert_lacks 96%N false txt),
      (inert_lacks 96%N false post); done. }
  assert (Hbold : pass_bold (pre ++ (lit "*" ++ txt ++ lit "*") ++ post)
                  = Ok (pre ++ (lit "*" ++ txt ++ lit "*") ++ post)).
  { apply re_sub_never; [done|]. intros i p. apply bold_needs_open.
    apply contains_false_drop. rewrite <- !app_assoc.
    apply (no_double_mark 42%N []); [by apply (inert_lacks 42%N true)|done|
      by apply (inert_lacks 42%N false)|by apply (inert_lacks 42%N false)]. }
  destruct (headers_pass_by _ Hh) as (E1 & E2 & E3 & E4).
  destruct (code_passes_by _ Hb) as (E5 & E6).
  rewrite convert_passes, E1, bind_Ok, E2, bind_Ok, E3, bind_Ok, E4, bind_Ok, E5, bind_Ok,
    E6, bind_Ok, Hbold, bind_Ok.
  rewrite italic_span; [|by apply (inert_lacks 42%N true)|done|done|
                        by apply (inert_lacks 42%N false)].
  destruct (emphasis_passes_by post (inert_lacks 42%N false post eq_refl Hpost)) as [_ ->].
  rewrite !bind_Ok. clear E1 E2 E3 E4 E5 E6 Hbold.
  rest_of_passes HY.
Qed.

(** *** Code spans *)

Lemma convert_code_span (pre txt post : str) :
  inert true pre = true ->
  txt <> [] -> inert false txt = true ->
  inert false post = true ->
  convert_markdown_to_html (pre ++ (lit "`" ++ txt ++ lit "`") ++ post)
  = Ok (wrap_paragraphs (pre ++ (lit "<code>" ++ txt ++ lit "</code>") ++ post)).
Proof.
  intros Hpre Hne Htxt Hpost.
  assert (HY : markdown_free (pre ++ (lit "<code>" ++ txt ++ lit "</code>") ++ post) = true).
  { apply tame_markdown_free. rewrite <- !app_assoc.
    apply tame_piece; [by apply inert_tame|apply tag_code|].
    apply tame_piece; [by apply inert_tame|apply tag_code|by apply inert_tame]. }
  assert (Hh : heads_ok (fun c => N.eqb c 35) true
                 (pre ++ (lit "`" ++ txt ++ lit "`") ++ post) = true).
  { rewrite <- !app_assoc.
    apply heads_ok_piece; [by apply inert_hash_heads|done|done|done|].
    apply heads_ok_piece; [by apply inert_hash_heads|done|done|done|
                           by apply inert_hash_heads]. }
  assert (Hblock : pass_code_block (pre ++ (lit "`" ++ txt ++ lit "`") ++ post)
                   = Ok (pre ++ (lit "`" ++ txt ++ lit "`") ++ post)).
  { apply re_sub_never; [done|]. intros i p. apply code_block_needs_open.
    apply contains_false_drop. rewrite <- !app_assoc.
    apply (no_double_mark 96%N [96%N]); [by apply (inert_lacks 96%N true)|done|
      by apply (inert_lacks 96%N false)|by apply (inert_lacks 96%N false)]. }
  destruct (headers_pass_by _ Hh) as (E1 & E2 & E3 & E4).
  rewrite convert_passes, E1, bind_Ok, E2, bind_Ok, E3, bind_Ok, E4, bind_Ok, Hblock, bind_Ok.
  rewrite inline_code_span; [|by apply (inert_lacks 96%N true)|done|
                             by apply (inert_lacks 96%N false)].
  destruct (code_passes_by post (inert_lacks 96%N false post eq_refl Hpost)) as [_ ->].
  rewrite !bind_Ok. clear E1 E2 E3 E4 Hblock.
  rest_of_passes HY.
Qed.

(** *** Links *)

Lemma convert_link (pre label url post : str) :
  inert true pre = true ->
  label <> [] -> inert false label = true -> lacks 93%N label = true ->
  url <> [] -> inert false url = true -> lacks 41%N url = true ->
  inert false post = true ->
  convert_markdown_to_html (pre ++ (lit "[" ++ label ++ lit "](" ++ url ++ lit ")") ++ post)
  = Ok (wrap_paragraphs
          (pre ++ (lit "<a href=" ++ [QUOTE] ++ url ++ [QUOTE] ++ lit ">" ++ label ++ lit "</a>")
           ++ post)).
Proof.
  intros Hpre Hl Hlabel Hlc Hu Hurl Huc Hpost.
  assert (HY : markdown_free
                 (pre ++ (lit "<a href=" ++ [QUOTE] ++ url ++ [QUOTE] ++ lit ">" ++ label
                          ++ lit "</a>") ++ post) = true).
  { apply tame_markdown_free.
    replace (pre ++ (lit "<a href=" ++ [QUOTE] ++ url ++ [QUOTE] ++ lit ">" ++ label
                     ++ lit "</a>") ++ post)
      with (pre ++ (lit "<a href=" ++ [QUOTE]) ++ url ++ ([QUOTE] ++ lit ">") ++ label
            ++ lit "</a>" ++ post) by (by rewrite <- !app_assoc).
    apply tame_piece; [by apply inert_tame|apply tag_anchor|].
    apply tame_piece; [by apply inert_tame|apply tag_anchor|].
    apply tame_piece; [by apply inert_tame|apply tag_anchor|by apply inert_tame]. }
  assert (Hh : heads_ok (fun c => N.eqb c 35) true
                 (pre ++ (lit "[" ++ label ++ lit "](" ++ url ++ lit ")") ++ post) = true).
  { rewrite <- !app_assoc.
    apply heads_ok_piece; [by apply inert_hash_heads|done|done|done|].
    apply heads_ok_piece; [by apply inert_hash_heads|done|done|done|].
    apply heads_ok_piece; [by apply inert_hash_heads|done|done|done|
                           by apply inert_hash_heads]. }
  assert (Hb : lacks 96%N (pre ++ (lit "[" ++ label ++ lit "](" ++ url ++ lit ")") ++ post)
               = true).
  { rewrite !lacks_app, (inert_lacks 96%N true pre), (inert_lacks 96%N false label),
      (inert_lacks 96%N false url), (inert_lacks 96%N false post); done. }
  assert (Hs : lacks 42%N (pre ++ (lit "[" ++ label ++ lit "](" ++ url ++ lit ")") ++ post)
               = true).
  { rewrite !lacks_app, (inert_lacks 42%N true pre), (inert_lacks 42%N false label),
      (inert_lacks 42%N false url), (inert_lacks 42%N false post); done. }
  destruct (headers_pass_by _ Hh) as (E1 & E2 & E3 & E4).
  destruct (code_passes_by _ Hb) as (E5 & E6).
  destruct (emphasis_passes_by _ Hs) as (E7 & E8).
  rewrite convert_passes, E1, bind_Ok, E2, bind_Ok, E3, bind_Ok, E4, bind_Ok, E5, bind_Ok,
    E6, bind_Ok, E7, bind_Ok, E8, bind_Ok.
  rewrite link_span; [|by apply (inert_lacks 91%N true)|done|done|done|done].
  rewrite (link_pass_by post (inert_lacks 91%N false post eq_refl Hpost)).
  rewrite !bind_Ok. clear E1 E2 E3 E4 E5 E6 E7 E8.
  rest_of_passes HY.
Qed.

(** ** A heading line through the whole converter *)

(** A heading of more hashes is no heading of fewer: after the hashes of
    the pattern comes a hash, not the space. *)
Lemma header_not_lower (lower hashes : string) p (rest : str) :
  In (lower, hashes) [("#", "##"); ("#", "###"); ("#", "####"); ("##", "###");
                      ("##", "####"); ("###", "####")]%string ->
  match_at re_MULTILINE (re_header lower) p (lit hashes ++ [32%N] ++ rest) = None.
Proof.
  intros H. unfold match_at, re_header.
  rewrite matches_cats_cons, matches_bol. destruct (at_bol _ _); [|done].
  cbn [In] in H.
  repeat (destruct H as [H|H]; [injection H as <- <-; reflexivity|]). destruct H.
Qed.

Lemma heads_ok_line_piece (f : N -> bool) (A S : str) :
  A <> [] -> lacks NL A = true -> heads_ok f false S = true ->
  heads_ok f false (A ++ S) = true.
Proof.
  intros Hne Hnl HS. rewrite heads_ok_app, heads_ok_no_NL by done.
  by rewrite last_no_NL.
Qed.

Lemma header_lower_pass_by (lower hashes : string) tpl (pre txt post : str) :
  In (lower, hashes) [("#", "##"); ("#", "###"); ("#", "####"); ("##", "###");
                      ("##", "####"); ("###", "####")]%string ->
  template_ok (re_header lower) tpl = true ->
  heads_ok (fun c => N.eqb c 35) true pre = true ->
  heads_ok (fun c => N.eqb c 35) false (txt ++ post) = true ->
  re_sub re_MULTILINE (re_header lower) tpl (pre ++ (lit hashes ++ [32%N] ++ txt) ++ post)
  = Ok (pre ++ (lit hashes ++ [32%N] ++ txt) ++ post).
Proof.
  intros Hin Ht Hpre Hrest. rewrite re_sub_ok by done. f_equal. unfold re_sub_fn.
  assert (Hlow : In lower ["#"; "##"; "###"; "####"]%string).
  { cbn [In] in Hin. repeat (destruct Hin as [Hin|Hin]; [injection Hin as <- <-; simpl; tauto|]).
    destruct Hin. }
  rewrite sub_go_unmatched.
  2: { apply quiet_to_unmatched. by apply (quiet_to_heads _ _ _ (header_starts lower Hlow)). }
  f_equal. rewrite <- !app_assoc.
  assert (Hs : exists A, lit hashes = 35%N :: A /\ lacks NL A = true).
  { cbn [In] in Hin.
    repeat (destruct Hin as [Hin|Hin]; [injection Hin as <- <-; by eexists|]). destruct Hin. }
  destruct Hs as (A & EA & HA).
  pose proof (header_not_lower lower hashes (prev_after None pre) (txt ++ post) Hin) as Hm.
  rewrite EA in *. cbn [app] in *. cbn [sub_go]. rewrite Hm. f_equal.
  apply sub_go_quiet. apply (quiet_heads _ _ _ (header_starts lower Hlow)).
  change (bol_of (Some 35%N)) with false.
  replace (A ++ 32%N :: txt ++ post) with ((A ++ [32%N]) ++ txt ++ post)
    by (by rewrite <- app_assoc).
  apply heads_ok_line_piece; [by destruct A| |done].
  by rewrite lacks_app, HA.
Qed.

Lemma line_end_heads (f : N -> bool) (post : str) :
  f NL = false -> line_end post = true -> heads_ok f false post = true ->
  heads_ok f true post = true.
Proof.
  intros Hf Hend H. destruct post as [|c post]; [done|].
  cbn [line_end] in Hend. apply N.eqb_eq in Hend as ->.
  cbn [heads_ok] in *. by rewrite Hf.
Qed.

Lemma tag_headings :
  (tag_piece (lit "<h1>") /\ tag_piece (lit "</h1>"))
  /\ (tag_piece (lit "<h2>") /\ tag_piece (lit "</h2>"))
  /\ (tag_piece (lit "<h3>") /\ tag_piece (lit "</h3>"))
  /\ (tag_piece (lit "<h4>") /\ tag_piece (lit "</h4>")).
Proof. repeat split; literal_piece. Qed.

Section heading.
Context (pre txt post : str).
Context (Hpre : inert true pre = true) (Hstart : line_start pre = true).
Context (Hne : txt <> []) (Hnl : lacks NL txt = true) (Htxt : inert false txt = true).
Context (Hend : line_end post = true) (Hpost : inert false post = true).

Lemma heading_rest_heads :
  heads_ok (fun c => N.eqb c 35) false (txt ++ post) = true.
Proof.
  rewrite heads_ok_app, (inert_hash_heads false txt Htxt).
  by rewrite last_no_NL, (inert_hash_heads false post Hpost).
Qed.

Lemma heading_post_by :
  pass_h1 post = Ok post /\ pass_h2 post = Ok post /\ pass_h3 post = Ok post
  /\ pass_h4 post = Ok post.
Proof.
  apply headers_pass_by. apply line_end_heads; [done|done|].
  by apply inert_hash_heads.
Qed.

Lemma heading_tame (A B : str) :
  tag_piece A -> tag_piece B -> markdown_free (pre ++ (A ++ txt ++ B) ++ post) = true.
Proof.
  intros HA HB. apply tame_markdown_free. rewrite <- !app_assoc.
  apply tame_piece; [by apply inert_tame|done|].
  apply tame_piece; [by apply inert_tame|done|by apply inert_tame].
Qed.

Lemma convert_h1 :
  convert_markdown_to_html (pre ++ (lit "#" ++ [32%N] ++ txt) ++ post)
  = Ok (wrap_paragraphs (pre ++ (lit "<h1>" ++ txt ++ lit "</h1>") ++ post)).
Proof.
  pose proof (heading_tame (lit "<h1>") (lit "</h1>")
                (proj1 (proj1 tag_headings)) (proj2 (proj1 tag_headings))) as HY.
  assert (E1 : pass_h1 (pre ++ (lit "#" ++ [32%N] ++ txt) ++ post)
               = (rest <- pass_h1 post ;;
                  Ok (pre ++ (lit "<h1>" ++ txt ++ lit "</h1>") ++ rest))).
  { exact (header_line "#" "h1" pre txt post ltac:(simpl; tauto)
             (inert_hash_heads true pre Hpre) Hstart Hne Hnl Hend). }
  destruct heading_post_by as (P1 & _ & _ & _).
  rewrite convert_passes.
  rewrite E1, P1, !bind_Ok. clear E1 P1.
  rest_of_passes HY.
Qed.

Lemma convert_h2 :
  convert_markdown_to_html (pre ++ (lit "##" ++ [32%N] ++ txt) ++ post)
  = Ok (wrap_paragraphs (pre ++ (lit "<h2>" ++ txt ++ lit "</h2>") ++ post)).
Proof.
  pose proof (heading_tame (lit "<h2>") (lit "</h2>")
                (proj1 (proj1 (proj2 tag_headings)))
                (proj2 (proj1 (proj2 tag_headings)))) as HY.
  assert (E2 : pass_h2 (pre ++ (lit "##" ++ [32%N] ++ txt) ++ post)
               = (rest <- pass_h2 post ;;
                  Ok (pre ++ (lit "<h2>" ++ txt ++ lit "</h2>") ++ rest))).
  { exact (header_line "##" "h2" pre txt post ltac:(simpl; tauto)
             (inert_hash_heads true pre Hpre) Hstart Hne Hnl Hend). }
  pose proof (fun lower tpl Hin Ht =>
                header_lower_pass_by lower "##" tpl pre txt post Hin Ht
                  (inert_hash_heads true pre Hpre) heading_rest_heads) as Hlow.
  destruct heading_post_by as (_ & P2 & _ & _).
  rewrite convert_passes. unfold pass_h1 at 1.
  rewrite (Hlow "#"%string) by (done || (simpl; tauto)). rewrite bind_Ok.
  rewrite E2, P2, !bind_Ok. clear E2 P2 Hlow.
  rest_of_passes HY.
Qed.

Lemma convert_h3 :
  convert_markdown_to_html (pre ++ (lit "###" ++ [32%N] ++ txt) ++ post)
  = Ok (wrap_paragraphs (pre ++ (lit "<h3>" ++ txt ++ lit "</h3>") ++ post)).
Proof.
  pose proof (heading_tame (lit "<h3>") (lit "</h3>")
                (proj1 (proj1 (proj2 (proj2 tag_headings))))
                (proj2 (proj1 (proj2 (proj2 tag_headings))))) as HY.
  assert (E3 : pass_h3 (pre ++ (lit "###" ++ [32%N] ++ txt) ++ post)
               = (rest <- pass_h3 post ;;
                  Ok (pre ++ (lit "<h3>" ++ txt ++ lit "</h3>") ++ rest))).
  { exact (header_line "###" "h3" pre txt post ltac:(simpl; tauto)
             (inert_hash_heads true pre Hpre) Hstart Hne Hnl Hend). }
  pose proof (fun lower tpl Hin Ht =>
                header_lower_pass_by lower "###" tpl pre txt post Hin Ht
                  (inert_hash_heads true pre Hpre) heading_rest_heads) as Hlow.
  destruct heading_post_by as (_ & _ & P3 & _).
  rewrite convert_passes. unfold pass_h1 at 1.
  rewrite (Hlow "#"%string) by (done || (simpl; tauto)). rewrite bind_Ok.
  unfold pass_h2 at 1.
  rewrite (Hlow "##"%string) by (done || (simpl; tauto)). rewrite bind_Ok.
  rewrite E3, P3, !bind_Ok. clear E3 P3 Hlow.
  rest_of_passes HY.
Qed.

Lemma convert_h4 :
  convert_markdown_to_html (pre ++ (lit "####" ++ [32%N] ++ txt) ++ post)
  = Ok (wrap_paragraphs (pre ++ (lit "<h4>" ++ txt ++ lit "</h4>") ++ post)).
Proof.
  pose proof (heading_tame (lit "<h4>") (lit "</h4>")
                (proj1 (proj2 (proj2 (proj2 tag_headings))))
                (proj2 (proj2 (proj2 (proj2 tag_headings))))) as HY.
  assert (E4 : pass_h4 (pre ++ (lit "####" ++ [32%N] ++ txt) ++ post)
               = (rest <- pass_h4 post ;;
                  Ok (pre ++ (lit "<h4>" ++ txt ++ lit "</h4>") ++ rest))).
  { exact (header_line "####" "h4" pre txt post ltac:(simpl; tauto)
             (inert_hash_heads true pre Hpre) Hstart Hne Hnl Hend). }
  pose proof (fun lower tpl Hin Ht =>
                header_lower_pass_by lower "####" tpl pre txt post Hin Ht
                  (inert_hash_heads true pre Hpre) heading_rest_heads) as Hlow.
  destruct heading_post_by as (_ & _ & _ & P4).
  rewrite convert_passes. unfold pass_h1 at 1.
  rewrite (Hlow "#"%string) by (done || (simpl; tauto)). rewrite bind_Ok.
  unfold pass_h2 at 1.
  rewrite (Hlow "##"%string) by (done || (simpl; tauto)). rewrite bind_Ok.
  unfold pass_h3 at 1.
  rewrite (Hlow "###"%string) by (done || (simpl; tauto)). rewrite bind_Ok.
  rewrite E4, P4, !bind_Ok. clear E4 P4 Hlow.
  rest_of_passes HY.
Qed.
End heading.

Lemma convert_heading (hashes tag : string) (pre txt post : str) :
  In (hashes, tag) [("#", "h1"); ("##", "h2"); ("###", "h3"); ("####", "h4")]%string ->
  inert true pre = true -> line_start pre = true ->
  txt <> [] -> lacks NL txt = true -> inert false txt = true ->
  line_end post = true -> inert false post = true ->
  convert_markdown_to_html (pre ++ (lit hashes ++ [32%N] ++ txt) ++ post)
  = Ok (wrap_paragraphs
          (pre ++ (lit "<" ++ lit tag ++ lit ">" ++ txt ++ lit "</" ++ lit tag ++ lit ">")
           ++ post)).
Proof.
  intros Hin Hpre Hstart Hne Hnl Htxt Hend Hpost. cbn [In] in Hin.
  destruct Hin as [E|[E|[E|[E|[]]]]]; injection E as <- <-.
  - by apply convert_h1.
  - by apply convert_h2.
  - by apply convert_h3.
  - by apply convert_h4.
Qed.

(** ** A bullet list through the whole converter *)

(** *** Lines that start with a tag *)

Lemma tag_lines_split (s : str) : forall b,
  heads_ok (fun c => negb (N.eqb c 60) && negb (N.eqb c NL)) b s = true ->
  match split NL s with
  | l :: ls =>
      (b = true -> l = [] \/ exists l', l = 60%N :: l')
      /\ Forall (fun l => l = [] \/ exists l', l = 60%N :: l') ls
  | [] => False
  end.
Proof.
  induction s as [|c s IH]; intros b H.
  - cbn [split]. split; [by left|constructor].
  - cbn [heads_ok] in H. apply andb_true_iff in H as [Hc Hs].
    specialize (IH _ Hs). cbn [split].
    destruct (split NL s) as [|l ls]; [done|]. destruct IH as [Hl Hls].
    destruct (N.eqb c NL) eqn:E.
    + split; [by left|]. constructor; [by apply Hl|done].
    + split; [|done]. intros ->. right. cbn [andb negb] in Hc.
      rewrite andb_true_r in Hc.
      apply negb_true_iff, negb_false_iff, N.eqb_eq in Hc as ->. by eexists.
Qed.

Lemma tag_line_stripped (l : str) :
  l = [] \/ (exists l', l = 60%N :: l') ->
  is_empty (strip l) || startswith (strip l) (lit "<") = true.
Proof.
  intros [->|[l' ->]]; [done|].
  unfold strip. rewrite lstrip_nonspace by reflexivity.
  change (60%N :: l') with ([] ++ 60%N :: l').
  rewrite rstrip_app_nonspace by reflexivity. reflexivity.
Qed.

Lemma paragraphs_tag_lines (lines : list str) : forall in_block,
  Forall (fun l => is_empty (strip l) || startswith (strip l) (lit "<") = true) lines ->
  paragraphs in_block lines = lines.
Proof.
  induction lines as [|line rest IH]; intros in_block H; [done|].
  inversion H as [|? ? Hl Hrest]; subst. cbn [paragraphs].
  destruct (startswith_any (strip line) block_open); [by rewrite IH|].
  destruct (startswith_any (strip line) block_close); [by rewrite IH|].
  destruct (is_empty (strip line)); [by rewrite IH|].
  cbn [orb] in Hl. rewrite Hl. cbn [negb]. rewrite andb_false_r. by rewrite IH.
Qed.

(** Text in which every line is empty or starts with [<] in its first
    column comes out of the paragraph loop as it went in. *)
Lemma wrap_paragraphs_tag_lines (s : str) :
  heads_ok (fun c => negb (N.eqb c 60) && negb (N.eqb c NL)) true s = true -> wrap_paragraphs s = s.
Proof.
  intros H. unfold wrap_paragraphs. rewrite paragraphs_tag_lines; [apply join_split|].
  pose proof (tag_lines_split s true H) as Hs.
  destruct (split NL s) as [|l ls]; [done|]. destruct Hs as [Hl Hls].
  constructor; [by apply tag_line_stripped, Hl|].
  eapply Forall_impl; [exact Hls|]. intros x Hx. by apply tag_line_stripped.
Qed.

(** *** Properties of joined lines *)

Lemma heads_ok_join (g : N -> bool) (lines : list str) :
  Forall (fun l => l <> [] /\ lacks NL l = true /\ heads_ok g true l = true) lines ->
  heads_ok g true (join [NL] lines) = true.
Proof.
  induction 1 as [|l ls (Hne & Hnl & Hl) Hls IH]; [done|].
  destruct ls as [|l' ls]; [done|].
  change (join [NL] (l :: l' :: ls)) with (l ++ NL :: join [NL] (l' :: ls)).
  rewrite heads_ok_app, Hl, last_no_NL by done.
  cbn [heads_ok andb negb]. by rewrite N.eqb_refl.
Qed.

Lemma forallb_join_map (P : N -> bool) (f : str -> str) (items : list str) :
  P NL = true -> (forall a, In a items -> forallb P (f a) = true) ->
  forallb P (join [NL] (map f items)) = true.
Proof.
  intros HNL H. apply forallb_join; [done|].
  apply List.Forall_forall. intros l Hl. apply in_map_iff in Hl as (a & <- & Ha).
  by apply H.
Qed.

Lemma plain_item_parts (a : str) :
  plain_item a = true -> a <> [] /\ lacks NL a = true /\ inert false a = true.
Proof.
  unfold plain_item. intros [[H1 H2]%andb_true_iff H3]%andb_true_iff.
  split; [by destruct a|done].
Qed.

(** *** The markdown of the list before the bullet pass *)

Section bullets.
Context (items : list str) (Hitems : forallb plain_item items = true).

Lemma item_plain (a : str) :
  In a items -> a <> [] /\ lacks NL a = true /\ inert false a = true.
Proof.
  intros Ha. apply plain_item_parts.
  rewrite forallb_forall in Hitems. by apply Hitems.
Qed.

Lemma bullet_lines_heads (g : N -> bool) :
  g 45%N = false -> heads_ok g true (bullet_lines items) = true.
Proof.
  intros Hg. apply heads_ok_join. apply List.Forall_forall.
  intros l Hl. apply in_map_iff in Hl as (a & <- & Ha).
  destruct (item_plain a Ha) as (Hne & Hnl & _).
  split; [done|]. split; [by rewrite lacks_app, Hnl|].
  change (lit "- ") with [45%N; 32%N]. cbn [app heads_ok]. rewrite Hg.
  cbn [andb negb]. by apply heads_ok_no_NL.
Qed.

Lemma bullet_lines_lacks (c : N) :
  markup_char c = true -> lacks c (bullet_lines items) = true.
Proof.
  intros Hc. apply forallb_join_map.
  - destruct (N.eqb_spec NL c) as [<-|]; [by vm_compute in Hc|done].
  - intros a Ha. destruct (item_plain a Ha) as (_ & _ & Hin).
    fold (lacks c (lit "- " ++ a)). rewrite lacks_app, (inert_lacks c false a) by done.
    rewrite andb_true_r.
    change (lit "- ") with [45%N; 32%N]. cbn [lacks forallb].
    destruct (N.eqb_spec 45 c) as [<-|]; [by vm_compute in Hc|].
    destruct (N.eqb_spec 32 c) as [<-|]; [by vm_compute in Hc|]. done.
Qed.
End bullets.

(** The rule pattern asks for two hyphens at the start. *)
Lemma hr_needs_open p (s : str) :
  startswith s (lit "--") = false -> match_at re_MULTILINE re_hr p s = None.
Proof.
  intros H. unfold match_at, re_hr.
  rewrite matches_cats_cons, matches_bol. destruct (at_bol _ _); [|done].
  rewrite matches_cats_cons. by rewrite matches_text_fail.
Qed.

Lemma unmatched_app fl r (a : str) : forall p (b s : str),
  unmatched fl r p a (b ++ s) -> unmatched fl r (prev_after p a) b s ->
  unmatched fl r p (a ++ b) s.
Proof.
  induction a as [|c a IH]; intros p b s Ha Hb; [done|].
  destruct Ha as [H1 H2]. cbn [app unmatched]. rewrite <- app_assoc. split; [done|].
  apply IH; [done|]. by rewrite prev_after_cons in Hb.
Qed.

Lemma hr_bullet_line p (a rest : str) :
  lacks NL a = true ->
  unmatched re_MULTILINE re_hr p (lit "- " ++ a) rest.
Proof.
  intros Hnl. change (lit "- ") with [45%N; 32%N]. cbn [app unmatched].
  split; [by apply hr_needs_open|].
  apply (quiet_to_unmatched _ _ (32%N :: a)).
  apply (quiet_to_heads _ _ _ hr_starts). change (bol_of (Some 45%N)) with false.
  apply heads_ok_no_NL. unfold lacks in *. cbn [forallb]. by rewrite Hnl.
Qed.

Lemma hr_bullet_lines (items : list str) : forall p,
  forallb plain_item items = true ->
  unmatched re_MULTILINE re_hr p (bullet_lines items) [].
Proof.
  induction items as [|a rest IH]; intros p H; [done|].
  cbn [forallb] in H. apply andb_true_iff in H as [Ha Hrest].
  destruct (plain_item_parts a Ha) as (_ & Hnl & _).
  destruct rest as [|b rest].
  - cbn [bullet_lines map join]. by apply hr_bullet_line.
  - change (bullet_lines (a :: b :: rest))
      with ((lit "- " ++ a) ++ [NL] ++ bullet_lines (b :: rest)).
    apply unmatched_app; [by apply hr_bullet_line|].
    apply unmatched_app; [|by apply IH].
    cbn [unmatched]. split; [|done].
    apply match_at_cannot_start. apply hr_starts; by rewrite ?andb_false_r.
Qed.

Lemma pass_hr_bullet_lines (items : list str) :
  forallb plain_item items = true ->
  pass_hr (bullet_lines items) = Ok (bullet_lines items).
Proof.
  intros H. unfold pass_hr. rewrite re_sub_ok by done. f_equal. unfold re_sub_fn.
  rewrite <- (app_nil_r (bullet_lines items)) at 1.
  rewrite sub_go_unmatched by (by apply hr_bullet_lines).
  rewrite sub_go_end; [by rewrite app_nil_r|].
  apply match_at_cannot_start, hr_starts.
Qed.

(** *** The bullet pass and the wrapping pass *)

Lemma pass_bullet_lines (items : list str) : forall pre,
  items <> [] -> forallb plain_item items = true ->
  heads_ok (fun c => N.eqb c 45) true pre = true -> line_start pre = true ->
  pass_bullet (pre ++ bullet_lines items) = Ok (pre ++ item_lines items).
Proof.
  induction items as [|a rest IH]; intros pre Hne H Hpre Hstart; [done|].
  cbn [forallb] in H. apply andb_true_iff in H as [Ha Hrest].
  destruct (plain_item_parts a Ha) as (Hane & Hnl & _).
  destruct rest as [|b rest].
  - cbn [bullet_lines item_lines map join].
    rewrite <- (app_nil_r (lit "- " ++ a)). rewrite bullet_line by done.
    assert (pass_bullet [] = Ok []) as -> by (by vm_compute).
    by rewrite bind_Ok, app_nil_r.
  - change (bullet_lines (a :: b :: rest))
      with ((lit "- " ++ a) ++ [NL] ++ bullet_lines (b :: rest)).
    change (item_lines (a :: b :: rest))
      with ((lit "<li>" ++ a ++ lit "</li>") ++ [NL] ++ item_lines (b :: rest)).
    rewrite bullet_line by done.
    rewrite (IH [NL]) by done. by rewrite bind_Ok.
Qed.

Lemma item_lines_shape (items : list str) :
  items <> [] -> exists mid, item_lines items = lit "<li>" ++ mid ++ lit "</li>".
Proof.
  induction items as [|a rest IH]; intros Hne; [done|].
  destruct rest as [|b rest].
  - by exists a.
  - destruct IH as [mid Hmid]; [done|].
    exists (a ++ lit "</li>" ++ [NL] ++ lit "<li>" ++ mid).
    change (item_lines (a :: b :: rest))
      with ((lit "<li>" ++ a ++ lit "</li>") ++ [NL] ++ item_lines (b :: rest)).
    rewrite Hmid. by rewrite <- !app_assoc.
Qed.

Lemma pass_items_item_lines (items : list str) :
  items <> [] ->
  pass_items (item_lines items) = Ok (lit "<ul>" ++ item_lines items ++ lit "</ul>").
Proof.
  intros Hne. destruct (item_lines_shape items Hne) as [mid ->].
  pose proof (pass_items_wraps [] mid [] eq_refl eq_refl) as H.
  rewrite !app_nil_l in H. rewrite !app_nil_r in H. rewrite H.
  by rewrite <- !app_assoc.
Qed.

(** *** The list markup through the rest of the converter *)

Section list_markup.
Context (items : list str) (Hitems : forallb plain_item items = true).

Lemma list_markup_heads (g : N -> bool) :
  g 60%N = false ->
  heads_ok g true (lit "<ul>" ++ item_lines items ++ lit "</ul>") = true.
Proof.
  intros Hg.
  assert (Hlines : heads_ok g true (item_lines items) = true).
  { apply heads_ok_join. apply List.Forall_forall.
    intros l Hl. apply in_map_iff in Hl as (a & <- & Ha).
    destruct (item_plain items Hitems a Ha) as (Hne & Hnl & _).
    split; [done|]. split; [by rewrite !lacks_app, Hnl|].
    change (lit "<li>") with (60%N :: lit "li>"). cbn [app heads_ok]. rewrite Hg.
    cbn [andb negb]. apply heads_ok_no_NL. by rewrite !lacks_app, Hnl. }
  rewrite !heads_ok_app.
  change (lit "<ul>") with (60%N :: lit "ul>"). cbn [heads_ok]. rewrite Hg.
  cbn [andb negb]. rewrite heads_ok_no_NL by done.
  rewrite (heads_ok_weaken g g (item_lines items) (fun c H => H) _ true) by done.
  change (lit "</ul>") with (60%N :: lit "/ul>"). cbn [heads_ok]. rewrite Hg.
  rewrite andb_false_r. cbn [negb andb]. by apply heads_ok_no_NL.
Qed.

Lemma list_markup_avoids (P : N -> bool) :
  P NL = true -> forallb P (lit "<ul>") = true -> forallb P (lit "</ul>") = true ->
  forallb P (lit "<li>") = true -> forallb P (lit "</li>") = true ->
  (forall a, inert false a = true -> forallb P a = true) ->
  forallb P (lit "<ul>" ++ item_lines items ++ lit "</ul>") = true.
Proof.
  intros HNL H1 H2 H3 H4 Hin. rewrite !forallb_app, H1, H2.
  rewrite andb_true_r. cbn [andb]. apply forallb_join_map; [done|].
  intros a Ha. destruct (item_plain items Hitems a Ha) as (_ & _ & Hi).
  by rewrite !forallb_app, H3, H4, Hin.
Qed.
End list_markup.

(** A document of bullet lines with inert items becomes one list with one
    item per line, in their order. *)
Lemma convert_bullet_list (items : list str) :
  items <> [] -> forallb plain_item items = true ->
  convert_markdown_to_html (bullet_lines items)
  = Ok (lit "<ul>" ++ item_lines items ++ lit "</ul>").
Proof.
  intros Hne H.
  destruct (headers_pass_by _ (bullet_lines_heads items H (fun c => N.eqb c 35) eq_refl))
    as (E1 & E2 & E3 & E4).
  destruct (code_passes_by _ (bullet_lines_lacks items H 96%N eq_refl)) as (E5 & E6).
  destruct (emphasis_passes_by _ (bullet_lines_lacks items H 42%N eq_refl)) as (E7 & E8).
  pose proof (link_pass_by _ (bullet_lines_lacks items H 91%N eq_refl)) as E9.
  pose proof (pass_hr_bullet_lines items H) as E10.
  pose proof (pass_bullet_lines items [] Hne H eq_refl eq_refl) as E11.
  rewrite !app_nil_l in E11.
  pose proof (pass_items_item_lines items Hne) as E12.
  assert (E13 : pass_numbered (lit "<ul>" ++ item_lines items ++ lit "</ul>")
                = Ok (lit "<ul>" ++ item_lines items ++ lit "</ul>")).
  { apply re_sub_quiet; [done|]. apply (quiet_heads _ _ _ numbered_starts).
    by apply list_markup_heads. }
  assert (Et : pass_table (lit "<ul>" ++ item_lines items ++ lit "</ul>")
               = lit "<ul>" ++ item_lines items ++ lit "</ul>").
  { unfold pass_table, re_sub_fn. apply sub_go_quiet. apply (quiet_avoid _ _ _ table_starts).
    apply list_markup_avoids; try done.
    intros a Ha. by apply (inert_lacks 124%N false). }
  rewrite convert_passes, E1, bind_Ok, E2, bind_Ok, E3, bind_Ok, E4, bind_Ok, E5, bind_Ok,
    E6, bind_Ok, E7, bind_Ok, E8, bind_Ok, E9, bind_Ok, E10, bind_Ok, E11, bind_Ok,
    E12, bind_Ok, E13, bind_Ok, Et.
  rewrite wrap_paragraphs_tag_lines by (by apply list_markup_heads).
  apply pass_emoji_avoid. apply list_markup_avoids; try done.
  intros a Ha. apply (inert_avoids is_emoji false a); [|done].
  intros c Hc. by destruct (markup_char_false c Hc) as (?&?&?&?&?&?).
Qed.

(** * Further properties of the converter, the page assembler and the run *)

(** ** Lines *)

(** A heading line: one to four hashes, a space and a text, on a line of
    its own after lines that do not start with a hash.  The heading pass of
    its level writes the text between the tags of that level and goes on
    behind the line; the text is kept as it is.  Through the whole converter
    a heading with inert text between inert lines ends up the same way, and
    the result is what the paragraph loop makes of it. *)
Theorem heading_line_converted :
  (forall (pass : str -> result str) (hashes tag : string) (pre txt post : str),
     In (pass, hashes, tag)
        [(pass_h1, "#", "h1"); (pass_h2, "##", "h2"); (pass_h3, "###", "h3");
         (pass_h4, "####", "h4")]%string ->
     heads_ok (fun c => N.eqb c 35) true pre = true -> line_start pre = true ->
     txt <> [] -> lacks NL txt = true -> line_end post = true ->
     pass (pre ++ (lit hashes ++ [32%N] ++ txt) ++ post)
     = (rest <- pass post ;;
        Ok (pre ++ (lit "<" ++ lit tag ++ lit ">" ++ txt ++ lit "</" ++ lit tag ++ lit ">")
            ++ rest))) /\
  (forall (hashes tag : string) (pre txt post : str),
     In (hashes, tag) [("#", "h1"); ("##", "h2"); ("###", "h3"); ("####", "h4")]%string ->
     inert true pre = true -> line_start pre = true ->
     txt <> [] -> lacks NL txt = true -> inert false txt = true ->
     line_end post = true -> inert false post = true ->
     convert_markdown_to_html (pre ++ (lit hashes ++ [32%N] ++ txt) ++ post)
     = Ok (wrap_paragraphs
             (pre ++ (lit "<" ++ lit tag ++ lit ">" ++ txt ++ lit "</" ++ lit tag ++ lit ">")
              ++ post))).
Proof.
  split.
  - intros pass hashes tag pre txt post Hin Hpre Hstart Hne Hnl Hend. cbn [In] in Hin.
    destruct Hin as [E|[E|[E|[E|[]]]]]; injection E as <- <- <-.
    + exact (header_line "#" "h1" pre txt post ltac:(simpl; tauto) Hpre Hstart Hne Hnl Hend).
    + exact (header_line "##" "h2" pre txt post ltac:(simpl; tauto) Hpre Hstart Hne Hnl Hend).
    + exact (header_line "###" "h3" pre txt post ltac:(simpl; tauto) Hpre Hstart Hne Hnl Hend).
    + exact (header_line "####" "h4" pre txt post ltac:(simpl; tauto) Hpre Hstart Hne Hnl Hend).
  - apply convert_heading.
Qed.

Lemma heading_line_converted_witness :
  convert_markdown_to_html
    (lit "Intro." ++ [NL; NL] ++ (lit "##" ++ [32%N] ++ lit "Usage notes") ++ [NL] ++ lit "More.")
  = Ok (wrap_paragraphs
          (lit "Intro." ++ [NL; NL]
           ++ (lit "<" ++ lit "h2" ++ lit ">" ++ lit "Usage notes" ++ lit "</" ++ lit "h2"
               ++ lit ">")
           ++ [NL] ++ lit "More.")).
Proof.
  rewrite !(app_assoc (lit "Intro.") [NL; NL]).
  apply (proj2 heading_line_converted "##"%string "h2"%string (lit "Intro." ++ [NL; NL])
           (lit "Usage notes") ([NL] ++ lit "More."));
    [right; left; reflexivity | reflexivity | reflexivity | discriminate
    | reflexivity | reflexivity | reflexivity | reflexivity].
Defined.

(** With the paragraph loop worked out: the line after a heading is not
    made a paragraph. *)
Example heading_then_text :
  convert_markdown_to_html
    (lit "Intro." ++ [NL; NL] ++ lit "## Usage notes" ++ [NL] ++ lit "More.")
  = Ok (lit "<p>Intro.</p>" ++ [NL; NL] ++ lit "<h2>Usage notes</h2>" ++ [NL] ++ lit "More.").
Proof. vm_compute. reflexivity. Qed.

(** A bullet line: a hyphen, a space and a text, on a line of its own after
    lines that do not start with a hyphen.  The bullet pass writes the
    text between [<li>] and [</li>] and goes on behind the line. *)
Theorem bullet_line_converted (pre txt post : str) :
  heads_ok (fun c => N.eqb c 45) true pre = true -> line_start pre = true ->
  txt <> [] -> lacks NL txt = true -> line_end post = true ->
  pass_bullet (pre ++ (lit "- " ++ txt) ++ post)
  = (rest <- pass_bullet post ;; Ok (pre ++ (lit "<li>" ++ txt ++ lit "</li>") ++ rest)).
Proof. intros. by apply bullet_line. Qed.

Lemma bullet_line_converted_witness :
  pass_bullet (lit "<h2>To do</h2>" ++ [NL] ++ (lit "- " ++ lit "write the - docs")
               ++ [NL] ++ lit "- ship")
  = (rest <- pass_bullet ([NL] ++ lit "- ship") ;;
     Ok ((lit "<h2>To do</h2>" ++ [NL]) ++ (lit "<li>" ++ lit "write the - docs" ++ lit "</li>")
         ++ rest)).
Proof.
  rewrite (app_assoc (lit "<h2>To do</h2>") [NL]).
  apply (bullet_line_converted (lit "<h2>To do</h2>" ++ [NL]) (lit "write the - docs")
           ([NL] ++ lit "- ship"));
    [reflexivity | reflexivity | discriminate | reflexivity | reflexivity].
Defined.

(** A document that is a list, one line [- item] per item, every item
    inert text on one line: the converter returns one [<ul>] container
    around one [<li>] line per item, in the order of the items, and no
    paragraph markup. *)
Theorem bullet_list_converted (items : list str) :
  items <> [] -> forallb plain_item items = true ->
  convert_markdown_to_html (bullet_lines items)
  = Ok (lit "<ul>" ++ item_lines items ++ lit "</ul>").
Proof. apply convert_bullet_list. Qed.

Lemma bullet_list_converted_witness :
  convert_markdown_to_html (bullet_lines [lit "map"; lit "fold, left to right"; lit "zip"; lit "scan"])
  = Ok (lit "<ul>" ++ item_lines [lit "map"; lit "fold, left to right"; lit "zip"; lit "scan"]
        ++ lit "</ul>").
Proof.
  apply (bullet_list_converted [lit "map"; lit "fold, left to right"; lit "zip"; lit "scan"]);
    [discriminate | reflexivity].
Defined.

Example bullet_list_example :
  convert_markdown_to_html (lit "- map" ++ [NL] ++ lit "- zip")
  = Ok (lit "<ul><li>map</li>" ++ [NL] ++ lit "<li>zip</li></ul>").
Proof. vm_compute. reflexivity. Qed.

(** A rule: a line of three or more hyphens and nothing else, after lines
    that do not start with a hyphen, becomes [<hr>], however long it is. *)
Theorem rule_line_converted (pre : str) (n : nat) (post : str) :
  heads_ok (fun c => N.eqb c 45) true pre = true -> line_start pre = true ->
  line_end post = true ->
  pass_hr (pre ++ repeat 45%N (3 + n) ++ post)
  = (rest <- pass_hr post ;; Ok (pre ++ lit "<hr>" ++ rest)).
Proof. intros. by apply hr_line. Qed.

Lemma rule_line_converted_witness :
  pass_hr ((lit "above" ++ [NL]) ++ repeat 45%N (3 + 2) ++ ([NL] ++ lit "below"))
  = (rest <- pass_hr ([NL] ++ lit "below") ;; Ok ((lit "above" ++ [NL]) ++ lit "<hr>" ++ rest)).
Proof.
  apply (rule_line_converted (lit "above" ++ [NL]) 2 ([NL] ++ lit "below"));
    reflexivity.
Defined.

(** Two hyphens are no rule, and a rule with a space behind it is none. *)
Example short_or_padded_rule :
  pass_hr (lit "--") = Ok (lit "--") /\ pass_hr (lit "--- ") = Ok (lit "--- ").
Proof. split; vm_compute; reflexivity. Qed.

(** A numbered line: digits, a dot, a space and a text, on a line of its own
    after lines that do not start with a digit.  The numbered pass writes
    the text between [<li>] and [</li>]; the number is dropped, and the
    digits may be any decimal digits of Unicode. *)
Theorem numbered_line_converted (pre digits txt post : str) :
  heads_ok is_digit true pre = true -> line_start pre = true ->
  digits <> [] -> forallb is_digit digits = true ->
  txt <> [] -> lacks NL txt = true -> line_end post = true ->
  pass_numbered (pre ++ (digits ++ lit ". " ++ txt) ++ post)
  = (rest <- pass_numbered post ;; Ok (pre ++ (lit "<li>" ++ txt ++ lit "</li>") ++ rest)).
Proof. intros. by apply numbered_line. Qed.

Lemma numbered_line_converted_witness :
  pass_numbered ([] ++ (lit "12" ++ lit ". " ++ lit "Build the library") ++ [])
  = (rest <- pass_numbered [] ;;
     Ok ([] ++ (lit "<li>" ++ lit "Build the library" ++ lit "</li>") ++ rest)).
Proof.
  apply (numbered_line_converted [] (lit "12") (lit "Build the library") []);
    [reflexivity | reflexivity | discriminate | reflexivity | discriminate
    | reflexivity | reflexivity].
Defined.

(** ** Spans *)

(** A code span: a text without backtick between two backticks, after
    text without backtick.  The inline-code pass writes it between
    [<code>] and [</code>]; the text may run over several lines.  Through
    the whole converter a span of inert text in inert text ends up the
    same way, and the result is what the paragraph loop makes of it. *)
Theorem code_span_converted :
  (forall pre txt post : str,
     lacks 96%N pre = true -> txt <> [] -> lacks 96%N txt = true ->
     pass_inline_code (pre ++ (lit "`" ++ txt ++ lit "`") ++ post)
     = (rest <- pass_inline_code post ;;
        Ok (pre ++ (lit "<code>" ++ txt ++ lit "</code>") ++ rest))) /\
  (forall pre txt post : str,
     inert true pre = true -> txt <> [] -> inert false txt = true ->
     inert false post = true ->
     convert_markdown_to_html (pre ++ (lit "`" ++ txt ++ lit "`") ++ post)
     = Ok (wrap_paragraphs (pre ++ (lit "<code>" ++ txt ++ lit "</code>") ++ post))).
Proof. split; [apply inline_code_span|apply convert_code_span]. Qed.

Lemma code_span_converted_witness :
  convert_markdown_to_html (lit "Call " ++ (lit "`" ++ lit "fp_sum(xs, n)" ++ lit "`") ++ lit " first.")
  = Ok (wrap_paragraphs
          (lit "Call " ++ (lit "<code>" ++ lit "fp_sum(xs, n)" ++ lit "</code>") ++ lit " first.")).
Proof.
  apply (proj2 code_span_converted (lit "Call ") (lit "fp_sum(xs, n)") (lit " first."));
    [reflexivity | discriminate | reflexivity | reflexivity].
Defined.

(** Bold text: a text of one line without asterisk between two pairs of
    asterisks, after text without asterisk.  The bold pass writes it between
    [<strong>] and [</strong>]; through the whole converter bold inert text
    in inert text ends up the same way. *)
Theorem bold_span_converted :
  (forall pre txt post : str,
     lacks 42%N pre = true -> txt <> [] -> lacks NL txt = true -> lacks 42%N txt = true ->
     pass_bold (pre ++ (lit "**" ++ txt ++ lit "**") ++ post)
     = (rest <- pass_bold post ;;
        Ok (pre ++ (lit "<strong>" ++ txt ++ lit "</strong>") ++ rest))) /\
  (forall pre txt post : str,
     inert true pre = true -> txt <> [] -> lacks NL txt = true -> inert false txt = true ->
     inert false post = true ->
     convert_markdown_to_html (pre ++ (lit "**" ++ txt ++ lit "**") ++ post)
     = Ok (wrap_paragraphs (pre ++ (lit "<strong>" ++ txt ++ lit "</strong>") ++ post))).
Proof. split; [apply bold_span|apply convert_bold]. Qed.

Lemma bold_span_converted_witness :
  convert_markdown_to_html (lit "Hello " ++ (lit "**" ++ lit "world" ++ lit "**") ++ lit ".")
  = Ok (wrap_paragraphs (lit "Hello " ++ (lit "<strong>" ++ lit "world" ++ lit "</strong>")
                         ++ lit ".")).
Proof.
  apply (proj2 bold_span_converted (lit "Hello ") (lit "world") (lit "."));
    [reflexivity | discriminate | reflexivity | reflexivity | reflexivity].
Defined.

(** Italic text: the same between single asterisks, written between
    [<em>] and [</em>]; the bold pass, which runs first, leaves single
    asterisks alone. *)
Theorem italic_span_converted :
  (forall pre txt post : str,
     lacks 42%N pre = true -> txt <> [] -> lacks NL txt = true -> lacks 42%N txt = true ->
     pass_italic (pre ++ (lit "*" ++ txt ++ lit "*") ++ post)
     = (rest <- pass_italic post ;;
        Ok (pre ++ (lit "<em>" ++ txt ++ lit "</em>") ++ rest))) /\
  (forall pre txt post : str,
     inert true pre = true -> txt <> [] -> lacks NL txt = true -> inert false txt = true ->
     inert false post = true ->
     convert_markdown_to_html (pre ++ (lit "*" ++ txt ++ lit "*") ++ post)
     = Ok (wrap_paragraphs (pre ++ (lit "<em>" ++ txt ++ lit "</em>") ++ post))).
Proof. split; [apply italic_span|apply convert_italic]. Qed.

Lemma italic_span_converted_witness :
  convert_markdown_to_html (lit "It is " ++ (lit "*" ++ lit "fast" ++ lit "*") ++ lit ".")
  = Ok (wrap_paragraphs (lit "It is " ++ (lit "<em>" ++ lit "fast" ++ lit "</em>") ++ lit ".")).
Proof.
  apply (proj2 italic_span_converted (lit "It is ") (lit "fast") (lit "."));
    [reflexivity | discriminate | reflexivity | reflexivity | reflexivity].
Defined.

(** A link: a label without closing bracket in brackets and a target
    without closing parenthesis in parentheses, after text without opening
    bracket.  The link pass writes an anchor with the target in [href] and
    the label as its text; through the whole converter a link of inert
    label and target in inert text ends up the same way. *)
Theorem link_converted :
  (forall pre label url post : str,
     lacks 91%N pre = true ->
     label <> [] -> lacks 93%N label = true -> url <> [] -> lacks 41%N url = true ->
     pass_link (pre ++ (lit "[" ++ label ++ lit "](" ++ url ++ lit ")") ++ post)
     = (rest <- pass_link post ;;
        Ok (pre ++ (lit "<a href=" ++ [QUOTE] ++ url ++ [QUOTE] ++ lit ">" ++ label
                    ++ lit "</a>") ++ rest))) /\
  (forall pre label url post : str,
     inert true pre = true ->
     label <> [] -> inert false label = true -> lacks 93%N label = true ->
     url <> [] -> inert false url = true -> lacks 41%N url = true ->
     inert false post = true ->
     convert_markdown_to_html
       (pre ++ (lit "[" ++ label ++ lit "](" ++ url ++ lit ")") ++ post)
     = Ok (wrap_paragraphs
             (pre ++ (lit "<a href=" ++ [QUOTE] ++ url ++ [QUOTE] ++ lit ">" ++ label
                      ++ lit "</a>") ++ post))).
Proof. split; [apply link_span|apply convert_link]. Qed.

Lemma link_converted_witness :
  convert_markdown_to_html
    (lit "See " ++ (lit "[" ++ lit "the API" ++ lit "](" ++ lit "API_REFERENCE.md" ++ lit ")")
     ++ lit ".")
  = Ok (wrap_paragraphs
          (lit "See " ++ (lit "<a href=" ++ [QUOTE] ++ lit "API_REFERENCE.md" ++ [QUOTE] ++ lit ">"
                          ++ lit "the API" ++ lit "</a>") ++ lit ".")).
Proof.
  apply (proj2 link_converted (lit "See ") (lit "the API") (lit "API_REFERENCE.md") (lit "."));
    [reflexivity | discriminate | reflexivity | reflexivity | discriminate
    | reflexivity | reflexivity | reflexivity].
Defined.

(** A paragraph that begins with a span is left without paragraph markup:
    its line starts with a tag when the paragraph loop sees it. *)
Example paragraph_starting_with_span :
  convert_markdown_to_html (lit "**Note** this.") = Ok (lit "<strong>Note</strong> this.")
  /\ convert_markdown_to_html (lit "Mind **this**.") = Ok (lit "<p>Mind <strong>this</strong>.</p>").
Proof. split; vm_compute; reflexivity. Qed.

(** ** Emoji *)

(** The emoji pass works character by character: every character of the
    three ranges is put in a span of its own, every other character is
    copied. *)
Theorem emoji_pass_character_wise (s : str) :
  pass_emoji s = Ok (concat (map wrap_emoji s)).
Proof.
  unfold pass_emoji. rewrite re_sub_ok by done. f_equal. apply emoji_pass_each.
Qed.

(** ** The paragraph loop *)

(** The paragraph loop changes nothing when it is run on its own result:
    a line it wrapped starts with [<p>] and is kept, and the other lines
    are read as they were. *)
Theorem paragraph_loop_idempotent (s : str) :
  wrap_paragraphs (wrap_paragraphs s) = wrap_paragraphs s.
Proof. apply wrap_paragraphs_idem. Qed.

(** A text of one line is kept when it is blank or when it starts, after
    leading white space, with [<]; otherwise it is put between [<p>] and
    [</p>], white space included. *)
Theorem single_line_paragraph (line : str) :
  lacks NL line = true ->
  wrap_paragraphs line
  = if is_empty (strip line) || startswith (strip line) (lit "<")
    then line else lit "<p>" ++ line ++ lit "</p>".
Proof. apply wrap_paragraphs_one_line. Qed.

Lemma single_line_paragraph_witness :
  wrap_paragraphs (lit "  Plain text ")
  = if is_empty (strip (lit "  Plain text "))
       || startswith (strip (lit "  Plain text ")) (lit "<")
    then lit "  Plain text " else lit "<p>" ++ lit "  Plain text " ++ lit "</p>".
Proof. apply (single_line_paragraph (lit "  Plain text ")). reflexivity. Defined.

(** Text in which every line is empty or has [<] in its first column
    comes out of the paragraph loop as it went in, whatever the tags are:
    only lines that start with other text are wrapped. *)
Theorem tag_lines_kept (s : str) :
  heads_ok (fun c => negb (N.eqb c 60) && negb (N.eqb c NL)) true s = true ->
  wrap_paragraphs s = s.
Proof. apply wrap_paragraphs_tag_lines. Qed.

Lemma tag_lines_kept_witness :
  wrap_paragraphs (lit "<div>" ++ [NL; NL] ++ lit "<span>text</span> and more" ++ [NL] ++ lit "</div>")
  = lit "<div>" ++ [NL; NL] ++ lit "<span>text</span> and more" ++ [NL] ++ lit "</div>".
Proof.
  apply (tag_lines_kept (lit "<div>" ++ [NL; NL] ++ lit "<span>text</span> and more" ++ [NL]
                         ++ lit "</div>")).
  reflexivity.
Defined.

(** After a line that opens a block (a heading, [<pre>], a list, a table,
    a rule, a list item) every line is kept as it is, up to the first line
    that starts with [</pre>], [</ul>], [</ol>] or [</table>]: text below
    a heading is not wrapped. *)
Theorem lines_after_opener_kept (first body : str) :
  lacks NL first = true ->
  startswith_any (strip first) block_open = true ->
  Forall (fun l => startswith_any (strip l) block_close = false) (split NL body) ->
  wrap_paragraphs (first ++ NL :: body) = first ++ NL :: body.
Proof. apply wrap_paragraphs_after_opener. Qed.

Lemma lines_after_opener_kept_witness :
  wrap_paragraphs (lit "<h2>Usage</h2>" ++ NL :: (lit "First line." ++ [NL] ++ lit "Second line."))
  = lit "<h2>Usage</h2>" ++ NL :: (lit "First line." ++ [NL] ++ lit "Second line.").
Proof.
  apply (lines_after_opener_kept (lit "<h2>Usage</h2>")
           (lit "First line." ++ [NL] ++ lit "Second line.")).
  - reflexivity.
  - reflexivity.
  - repeat constructor.
Defined.

(** Inert text of any number of lines (no backtick, [*], [[], [|], [<] or
    emoji, no line starting with [#], [-] or a digit) goes through all the
    passes unchanged and comes out line by line: a blank line as it is,
    every other line between [<p>] and [</p>]. *)
Theorem plain_text_converted (md : str) :
  inert true md = true ->
  convert_markdown_to_html md = Ok (join [NL] (map wrap_line (split NL md))).
Proof. apply convert_inert. Qed.

Lemma plain_text_converted_witness :
  convert_markdown_to_html (lit "One line." ++ [NL; NL] ++ lit "Another, with 3 words.")
  = Ok (join [NL] (map wrap_line
                     (split NL (lit "One line." ++ [NL; NL] ++ lit "Another, with 3 words.")))).
Proof.
  apply (plain_text_converted (lit "One line." ++ [NL; NL] ++ lit "Another, with 3 words.")).
  reflexivity.
Defined.

Example plain_text_example :
  convert_markdown_to_html (lit "One line." ++ [NL; NL] ++ lit "Another, with 3 words.")
  = Ok (lit "<p>One line.</p>" ++ [NL; NL] ++ lit "<p>Another, with 3 words.</p>").
Proof. vm_compute. reflexivity. Qed.

(** ** The page assembler *)

(** For every page name the template is filled without error, whatever the
    title and the fragment are, and both are put in as they are, once
    each: braces in them are not read as fields. *)
Theorem template_inserts_verbatim (md_file : str) :
  exists head nav foot : str,
    forall title content : str,
      fill_template title content (active_flags_of md_file)
      = Ok (head ++ title ++ nav ++ content ++ foot).
Proof.
  eexists _, _, _. intros title content. apply fill_template_parts.
Qed.

(** The template has eleven fields, the title, the content and the nine
    navigation flags: with a value for each it is filled, and with any one
    of them left out the formatting raises [KeyError] for that field. *)
Theorem template_needs_every_field (vals : str -> str) (k : str) :
  In k template_fields ->
  (exists doc, format HTML_TEMPLATE (fields_map vals) = Ok doc)
  /\ format HTML_TEMPLATE (delete k (fields_map vals)) = Raise (KeyError k).
Proof.
  intros H. split; [apply format_fields_ok|by apply format_missing_field].
Qed.

Lemma template_needs_every_field_witness :
  (exists doc, format HTML_TEMPLATE (fields_map (fun _ => lit "x")) = Ok doc)
  /\ format HTML_TEMPLATE (delete (lit "active_tier2") (fields_map (fun _ => lit "x")))
     = Raise (KeyError (lit "active_tier2")).
Proof.
  apply (template_needs_every_field (fun _ => lit "x") (lit "active_tier2")).
  do 8 right. left. reflexivity.
Defined.

(** The navigation flags of a page have the nine keys of the template; the
    flag of the landing page is never set; exactly one flag is set for a
    configured file and none for any other name. *)
Theorem page_highlights_one_entry (md_file : str) :
  map fst (map_to_list (active_flags_of md_file)) = map fst (map_to_list no_active_flags)
  /\ active_flags_of md_file !! lit "active_index" = Some []
  /\ active_count (active_flags_of md_file)
     = if existsb (str_eqb md_file) md_files then 1 else 0.
Proof. apply active_flags_count. Qed.

(** No page holds the characters [.md] followed by a double quote: every
    page is rendered without error, the fix-up removes every occurrence,
    the replacement text brings in no new one, and a second fix-up changes
    nothing. *)
Theorem page_has_no_md_target (md_file markdown : str) :
  (exists page,
     render_page md_file markdown = Ok page
     /\ contains page (lit ".md" ++ Q) = false)
  /\ (forall s : str,
        contains (fix_md_links s) (lit ".md" ++ Q) = false
        /\ fix_md_links (fix_md_links s) = fix_md_links s).
Proof.
  split.
  - destruct (convert_total markdown) as [html Hc].
    destruct (page_title_total html) as [title Ht].
    eexists. split; [by apply render_page_eq|]. apply fix_md_links_clean.
  - intros s. split; [apply fix_md_links_clean|apply fix_md_links_idem].
Qed.

(** ** The run *)



Example page_path_of_bare_name :
  html_path (lit "README.md") = Ok (lit "docs_html/README.html").
Proof. reflexivity. Qed.

(** Paths as pathlib reads them. *)
Example html_path_examples :
  html_path (lit "a//b/./x.md") = Ok (lit "docs_html/x.html")
  /\ html_path (lit "x.md/") = Ok (lit "docs_html/x.html")
  /\ html_path (lit "sub.d/x") = Ok (lit "docs_html/x.html")
  /\ html_path (lit "./.hidden") = Ok (lit "docs_html/.hidden.html")
  /\ html_path (lit "..") = Ok (lit "docs_html/...html")
  /\ html_path (lit "./") = Raise (ValueError "path has an empty name")
  /\ html_path [] = Raise (ValueError "path has an empty name").
Proof. repeat split; vm_compute; reflexivity. Qed.

(** A run ends without error and touches nothing outside [docs_html/]:
    every other path holds what it held before, the markdown files it
    reads among them. *)
Theorem run_writes_only_output_dir (abs_dir : str) (w : world) :
  exists n w',
    generate_html_docs abs_dir w = Ok (n, w') /\
    (forall path, startswith path (lit "docs_html/") = false ->
       files w' !! path = files w !! path) /\
    (forall g, In g md_files -> files w' !! g = files w !! g).
Proof.
  destruct (generate_frame abs_dir w) as (n & w' & Hrun & Hframe).
  exists n, w'. split; [done|]. split; [done|].
  intros g Hg. by apply (generate_keeps_inputs abs_dir w w' n g).
Qed.

(** Every run writes the landing page, whichever markdown files exist: it
    is the template around the title [Home] and the text of
    [create_index_page] as it stands, neither converted nor fixed up, and
    the count that is returned is the number of markdown files found. *)
Theorem index_page_always_written (abs_dir : str) (w : world) :
  fill_template (lit "Home") index_content (set_active "active_index" no_active_flags)
  = Ok index_page
  /\ exists w',
       generate_html_docs abs_dir w
       = Ok (length (List.filter (file_exists w) md_files), w')
       /\ files w' !! index_path = Some index_page.
Proof.
  split.
  - unfold index_page. cbv zeta. apply (parts_ok_active "active_index"). simpl; tauto.
  - destruct (generate_spec abs_dir w) as (w' & Hrun & Hidx & _).
    by exists w'.
Qed.

(** A second run over the files a run has left changes no file and
    returns the same count: the pages are not among the files that are
    read, and each page depends on its markdown file alone. *)
Theorem second_run_changes_nothing (abs_dir : str) (w : world) :
  exists n w1 w2,
    generate_html_docs abs_dir w = Ok (n, w1)
    /\ generate_html_docs abs_dir w1 = Ok (n, w2)
    /\ files w2 = files w1.
Proof.
  destruct (generate_spec abs_dir w) as (w1 & Hrun & _).
  destruct (generate_again abs_dir w w1 _ Hrun) as (w2 & Hrun2 & Hfiles).
  by eexists _, w1, w2.
Qed.
